(** * A shallow embedding of [exercise-02/network.py]

    The multi-layer perceptron of the exercise: the three layer classes
    ([ReLULayer], [OutputLayer], [LinearLayer]), the network class [MLP] and
    its training loop.

    Numbers.  NumPy computes on IEEE doubles; here an array holds elements of
    a type [T] that carries the operations the program uses ([Scalar]).  No
    algebraic law is built into the class: a theorem that needs one (e.g.
    [x * 1 = x]) names it as a hypothesis.  The development instantiates [T]
    with the integers (to run the definitions), with the reals (arithmetic
    without rounding), with the reals under a rounding operator (arithmetic
    with a relative error at every operation) and with the binary64 numbers
    of the kernel (to run the definitions on infinities and not-a-number).
    Sums are taken from the left; the order in which NumPy itself adds
    matters for rounding only and is not modelled.

    Arrays.  A two-dimensional array is a record that carries its shape next
    to its rows, as an ndarray does, so that arrays with no row or no column
    keep their other dimension.  A one-dimensional array is a list.

    Effects.  A method of a Python object becomes a function from the
    object's state to the new state paired with the outcome of the call,
    which is a value or a raised exception.  An attribute that has not been
    assigned yet is [None]; reading it raises [AttributeError]. *)

From Stdlib Require Import List Arith Lia ZArith Bool Permutation.
From Stdlib Require Import Reals Lra.
From Stdlib Require Floats.
Import ListNotations.

Set Implicit Arguments.

(** ** Outcomes of a call *)

Inductive exn : Type :=
| AttributeError
| ValueError
| IndexError
| TypeError
| ZeroDivisionError.

Inductive result (A : Type) : Type :=
| Ok (a : A)
| Raise (e : exn).

Arguments Ok {A} a.
Arguments Raise {A} e.

Definition bind {A B : Type} (r : result A) (k : A -> result B) : result B :=
  match r with
  | Ok a => k a
  | Raise e => Raise e
  end.

Notation "'let*' x ':=' r 'in' k" := (bind r (fun x => k))
  (at level 10, x name, r at level 100, k at level 200).

Fixpoint mapM {A B : Type} (f : A -> result B) (xs : list A) : result (list B) :=
  match xs with
  | [] => Ok []
  | x :: rest =>
      let* y := f x in
      let* ys := mapM f rest in
      Ok (y :: ys)
  end.

(** ** Scalars *)

Class Scalar (T : Type) : Type := {
  s0 : T;
  s1 : T;
  sadd : T -> T -> T;
  ssub : T -> T -> T;
  smul : T -> T -> T;
  sdiv : T -> T -> T;
  sltb : T -> T -> bool;
  sleb : T -> T -> bool;
  sof_nat : nat -> T
}.

Class Exponential (T : Type) : Type := sexp : T -> T.

(** The integers, to run the definitions; the division is the integer
    quotient. *)
#[export] Instance Scalar_Z : Scalar Z := {
  s0 := 0%Z;
  s1 := 1%Z;
  sadd := Z.add;
  ssub := Z.sub;
  smul := Z.mul;
  sdiv := Z.div;
  sltb := Z.ltb;
  sleb := Z.leb;
  sof_nat := Z.of_nat
}.

(** The reals: arithmetic without rounding or overflow. *)
#[export] Instance Scalar_R : Scalar R := {
  s0 := 0%R;
  s1 := 1%R;
  sadd := Rplus;
  ssub := Rminus;
  smul := Rmult;
  sdiv := Rdiv;
  sltb := fun x y => if Rlt_dec x y then true else false;
  sleb := fun x y => if Rle_dec x y then true else false;
  sof_nat := INR
}.

#[export] Instance Exponential_R : Exponential R := exp.

(** The reals under a rounding operator [rnd]: every operation returns the
    rounding of its exact result, and [np.exp] is a function [fexp] of its
    own.  With [rnd] the rounding to nearest of a binary format this is
    floating-point arithmetic as long as no result overflows or underflows;
    with [rnd x = x] and [fexp = exp] it is the arithmetic of [Scalar_R].
    These are no instances: a statement names them where it means them. *)
Definition Scalar_rounded (rnd : R -> R) : Scalar R := {|
  s0 := 0%R;
  s1 := 1%R;
  sadd := fun x y => rnd (x + y)%R;
  ssub := fun x y => rnd (x - y)%R;
  smul := fun x y => rnd (x * y)%R;
  sdiv := fun x y => rnd (x / y)%R;
  sltb := fun x y => if Rlt_dec x y then true else false;
  sleb := fun x y => if Rle_dec x y then true else false;
  sof_nat := fun n => rnd (INR n)
|}.

Definition Exponential_rounded (fexp : R -> R) : Exponential R := fexp.

(** The doubles: the binary64 numbers of the kernel, with the IEEE 754
    operations (round to nearest, ties to even).  A comparison with a
    not-a-number is false; [inf * 0], [inf / inf] and every operation on a
    not-a-number give not-a-number. *)
Module fl.
Import PrimFloat.
Local Open Scope float_scope.

Definition of_nat (n : nat) : float := of_uint63 (Uint63.of_Z (Z.of_nat n)).

(** [1 + y/1 * (1 + y/2 * (... (1 + y/k * acc)))] *)
Fixpoint horner (k : nat) (y acc : float) : float :=
  match k with
  | O => acc
  | S k' => horner k' y (1 + y * acc / of_nat k)
  end.

Fixpoint square_times (k : nat) (t : float) : float :=
  match k with
  | O => t
  | S k' => square_times k' (t * t)
  end.

(** [np.exp] on a double calls the [exp] of the C library, whose code is
    not in the repository.  This function stands for it: it is 1 at 0,
    not-a-number at not-a-number, [+inf] where [e^x] is above the largest
    double (from [x = 709.79] on) and 0 where it is below the smallest
    (under [x = -745.14]); between, it squares the Taylor polynomial of
    degree 14 at [x / 4096] twelve times, which agrees with the library to
    about twelve digits.  The development relies on the first four
    properties only. *)
Definition exp (x : float) : float :=
  if x <? -746 then 0
  else if 710 <? x then infinity
  else square_times 12 (horner 14 (x / 4096) 1).

Definition zero : float := 0.
Definition one : float := 1.
End fl.

#[export] Instance Scalar_float : Scalar PrimFloat.float := {
  s0 := fl.zero;
  s1 := fl.one;
  sadd := PrimFloat.add;
  ssub := PrimFloat.sub;
  smul := PrimFloat.mul;
  sdiv := PrimFloat.div;
  sltb := PrimFloat.ltb;
  sleb := PrimFloat.leb;
  sof_nat := fl.of_nat
}.

#[export] Instance Exponential_float : Exponential PrimFloat.float := fl.exp.

(** ** The NumPy operations the program uses *)

Module np.

Record ndarray (A : Type) : Type := mk_ndarray {
  nrows : nat;
  ncols : nat;
  rows : list (list A)
}.

Arguments mk_ndarray {A} nrows ncols rows.

Section Generic.
Context {A : Type}.

(** The rows agree with the recorded shape. *)
Definition wf (m : ndarray A) : Prop :=
  length (rows m) = nrows m /\
  Forall (fun r => length r = ncols m) (rows m).

Definition has_shape (m : ndarray A) (r c : nat) : Prop :=
  wf m /\ nrows m = r /\ ncols m = c.

Definition get (d : A) (m : ndarray A) (i j : nat) : A :=
  nth j (nth i (rows m) []) d.

Definition tabulate (r c : nat) (f : nat -> nat -> A) : ndarray A :=
  mk_ndarray r c (map (fun i => map (f i) (seq 0 c)) (seq 0 r)).

(** A one-dimensional array seen as one row, which is how broadcasting
    aligns it with a two-dimensional operand. *)
Definition as_row (v : list A) : ndarray A :=
  mk_ndarray 1 (length v) [v].

(** Integer indexing: a negative index counts from the end, an index out
    of range raises [IndexError]. *)
Definition normalize_index (n : nat) (k : Z) : result nat :=
  if ((0 <=? k) && (k <? Z.of_nat n))%Z then Ok (Z.to_nat k)
  else if ((- Z.of_nat n <=? k) && (k <? 0))%Z then Ok (Z.to_nat (Z.of_nat n + k))
  else Raise IndexError.

(** [v[idx]] for an integer array [idx]. *)
Definition take (d : A) (v : list A) (idx : list Z) : result (list A) :=
  mapM (fun k => let* i := normalize_index (length v) k in Ok (nth i v d)) idx.

(** [m[idx]]: the rows of [m] selected by the integer array [idx]. *)
Definition take_rows (m : ndarray A) (idx : list Z) : result (ndarray A) :=
  let* rs := mapM (fun k => let* i := normalize_index (nrows m) k in
                            Ok (nth i (rows m) [])) idx in
  Ok (mk_ndarray (length idx) (ncols m) rs).

(** [v[start:stop]] for [0 <= start <= stop]. *)
Definition slice (v : list A) (start stop : nat) : list A :=
  firstn (stop - start) (skipn start v).
End Generic.

Definition map_nd {A B : Type} (f : A -> B) (m : ndarray A) : ndarray B :=
  mk_ndarray (nrows m) (ncols m) (map (map f) (rows m)).

(** Broadcasting of two dimensions: equal, or one of them is 1. *)
Definition bdim (a b : nat) : option nat :=
  if a =? b then Some a
  else if a =? 1 then Some b
  else if b =? 1 then Some a
  else None.

(** The index read in a dimension of extent [n]: a dimension of extent 1 is
    stretched. *)
Definition bidx (n i : nat) : nat := if n =? 1 then 0 else i.

Definition broadcast2 {A B C : Type} (f : A -> B -> C) (da : A) (db : B)
    (x : ndarray A) (y : ndarray B) : result (ndarray C) :=
  match bdim (nrows x) (nrows y), bdim (ncols x) (ncols y) with
  | Some r, Some c =>
      Ok (tabulate r c (fun i j =>
            f (get da x (bidx (nrows x) i) (bidx (ncols x) j))
              (get db y (bidx (nrows y) i) (bidx (ncols y) j))))
  | _, _ => Raise ValueError
  end.

Definition broadcast1 {A B C : Type} (f : A -> B -> C) (da : A) (db : B)
    (u : list A) (v : list B) : result (list C) :=
  match bdim (length u) (length v) with
  | Some n =>
      Ok (map (fun j => f (nth (bidx (length u) j) u da)
                          (nth (bidx (length v) j) v db)) (seq 0 n))
  | None => Raise ValueError
  end.

Section Numeric.
Context {T : Type} {ST : Scalar T}.

Definition entry (m : ndarray T) (i j : nat) : T := get s0 m i j.

(** [m.T] *)
Definition transpose (m : ndarray T) : ndarray T :=
  mk_ndarray (ncols m) (nrows m)
    (map (fun j => map (fun r => nth j r s0) (rows m)) (seq 0 (ncols m))).

Definition dot (u v : list T) : T :=
  fold_left sadd (map (fun p => smul (fst p) (snd p)) (combine u v)) s0.

(** [a @ b] *)
Definition matmul (a b : ndarray T) : result (ndarray T) :=
  if ncols a =? nrows b then
    Ok (mk_ndarray (nrows a) (ncols b)
          (map (fun ra => map (fun cb => dot ra cb) (rows (transpose b)))
               (rows a)))
  else Raise ValueError.

Definition vadd (u v : list T) : list T :=
  map (fun p => sadd (fst p) (snd p)) (combine u v).

(** [np.sum(m, axis=0)] *)
Definition sum_axis0 (m : ndarray T) : list T :=
  fold_left vadd (rows m) (repeat s0 (ncols m)).

(** [np.sum(m, axis=1, keepdims=True)] *)
Definition sum_axis1_keepdims (m : ndarray T) : ndarray T :=
  mk_ndarray (nrows m) 1 (map (fun r => [fold_left sadd r s0]) (rows m)).

Definition add (x y : ndarray T) := broadcast2 sadd s0 s0 x y.
Definition sub (x y : ndarray T) := broadcast2 ssub s0 s0 x y.
Definition divide (x y : ndarray T) := broadcast2 sdiv s0 s0 x y.

(** [x * mask] for a boolean array [mask]: [True] counts as one and
    [False] as zero. *)
Definition mul_mask (x : ndarray T) (mask : ndarray bool) :=
  broadcast2 (fun u (c : bool) => smul u (if c then s1 else s0)) s0 false x mask.

(** [m > 0] *)
Definition gt0 (m : ndarray T) : ndarray bool := map_nd (fun x => sltb s0 x) m.

(** [np.maximum(0, m)].  NumPy computes [maximum(a, b)] as [a] when
    [a >= b] or [a] is not-a-number, and as [b] otherwise; here [a] is 0. *)
Definition maximum0 (m : ndarray T) : ndarray T :=
  map_nd (fun x => if sleb x s0 then s0 else x) m.

(** [c * m] for a Python number [c] *)
Definition scale (c : T) (m : ndarray T) : ndarray T := map_nd (smul c) m.
Definition vscale (c : T) (v : list T) : list T := map (smul c) v.

(** [v / n] for a Python integer [n] *)
Definition vdiv_nat (v : list T) (n : nat) : list T :=
  map (fun s => sdiv s (sof_nat n)) v.

Definition vsub (u v : list T) := broadcast1 ssub s0 s0 u v.

(** [np.eye(n)] *)
Definition eye (n : nat) : ndarray T :=
  tabulate n n (fun i j => if i =? j then s1 else s0).

(** [x != x], which holds of not-a-number only. *)
Definition isnan (x : T) : bool := negb (sleb x x).

(** Position of the first greatest element of a row, found as NumPy
    finds it: an element takes the place of the best one so far when it
    is not [<=] it, and a not-a-number, once it is the best one, ends the
    search (so that the first not-a-number of a row is its [argmax]). *)
Fixpoint argmax_from (best : T) (ibest i : nat) (r : list T) : nat :=
  match r with
  | [] => ibest
  | x :: rest =>
      if isnan best then ibest
      else if sleb x best then argmax_from best ibest (S i) rest
      else argmax_from x i (S i) rest
  end.

(** [np.argmax(m, axis=1)]: raises on an axis of extent 0. *)
Definition argmax_axis1 (m : ndarray T) : result (list nat) :=
  if ncols m =? 0 then Raise ValueError
  else Ok (map (fun r => match r with
                         | [] => 0
                         | x :: rest => argmax_from x 0 1 rest
                         end) (rows m)).

(** [X.reshape(X.shape[0], -1)] of a two-dimensional [X]: the unknown
    extent cannot be inferred when there is no row. *)
Definition reshape_rows (x : ndarray T) : result (ndarray T) :=
  if nrows x =? 0 then Raise ValueError else Ok x.

Section Exp.
Context {E : Exponential T}.
(** [np.exp(m)] *)
Definition exp (m : ndarray T) : ndarray T := map_nd sexp m.
End Exp.
End Numeric.

End np.

(** ** The random source

    [np.random] is process-wide state.  It is threaded explicitly: a value of
    type [G] is the state of the generator, and each draw returns the next
    state.  The distributions are not modelled.  *)

Class RandomSource (T G : Type) : Type := {
  (** [np.random.normal(0, 0.01, (r, c))] *)
  random_normal2 : G -> nat -> nat -> np.ndarray T * G;
  (** [np.random.normal(0, 0.01, (n,))] *)
  random_normal1 : G -> nat -> list T * G;
  (** [np.random.permutation(n)] *)
  random_permutation : G -> nat -> list nat * G
}.

(** What NumPy documents of the draws: the arrays have the shape asked for,
    and [permutation n] is a rearrangement of [range(n)]. *)
Class RandomSourceSpec {T G : Type} (RS : RandomSource T G) : Prop := {
  random_normal2_shape : forall g r c,
    np.has_shape (fst (random_normal2 g r c)) r c;
  random_normal1_length : forall g n,
    length (fst (random_normal1 g n)) = n;
  random_permutation_perm : forall g n,
    Permutation (fst (random_permutation g n)) (seq 0 n)
}.

(** ** class ReLULayer *)

Module ReLULayer.
Section Def.
Context {T : Type} {ST : Scalar T}.

Record t : Type := mk {
  input : option (np.ndarray T)
}.

(** A fresh instance has no attribute yet (the class has no [__init__]). *)
Definition init : t := mk None.

Definition forward (self : t) (input : np.ndarray T) : t * result (np.ndarray T) :=
  let self := mk (Some input) in
  let relu := np.maximum0 input in
  (self, Ok relu).

Definition backward (self : t) (upstream_gradient : np.ndarray T)
  : t * result (np.ndarray T) :=
  match input self with
  | None => (self, Raise AttributeError)
  | Some cached =>
      let downstream_gradient := np.mul_mask upstream_gradient (np.gt0 cached) in
      (self, downstream_gradient)
  end.

Definition update (self : t) (learning_rate : T) : t * result unit :=
  (self, Ok tt).
End Def.
Arguments t T : clear implicits.
End ReLULayer.

(** ** class OutputLayer *)

Module OutputLayer.
Section Def.
Context {T : Type} {ST : Scalar T}.

Record t : Type := mk {
  n_classes : nat;
  input : option (np.ndarray T)
}.

Definition init (n_classes : nat) : t := mk n_classes None.

Definition forward {E : Exponential T} (self : t) (input : np.ndarray T)
  : t * result (np.ndarray T) :=
  let self := mk (n_classes self) (Some input) in
  let softmax :=
    np.divide (np.exp input) (np.sum_axis1_keepdims (np.exp input)) in
  (self, softmax).

(** [np.eye(nb_classes)[targets]]; the two [reshape] calls leave a
    one-dimensional [targets] and the rows picked for it as they are. *)
Definition get_one_hot (targets : list Z) (nb_classes : nat)
  : result (np.ndarray T) :=
  np.take_rows (np.eye nb_classes) targets.

Definition backward (self : t) (predicted_posteriors : np.ndarray T)
    (true_labels : list Z) : t * result (np.ndarray T) :=
  (self,
   let* one_hot_labels := get_one_hot true_labels (n_classes self) in
   let* downstream_gradient := np.sub predicted_posteriors one_hot_labels in
   Ok downstream_gradient).

Definition update (self : t) (learning_rate : T) : t * result unit :=
  (self, Ok tt).
End Def.
Arguments t T : clear implicits.
End OutputLayer.

(** ** class LinearLayer

    The source calls the weight matrix [B] and the intercepts [b]. *)

Module LinearLayer.
Section Def.
Context {T : Type} {ST : Scalar T}.

Record t : Type := mk {
  n_inputs : nat;
  n_outputs : nat;
  B : np.ndarray T;
  b : list T;
  input : option (np.ndarray T);
  grad_b : option (list T);
  grad_B : option (np.ndarray T)
}.

Definition init {G : Type} {RS : RandomSource T G} (n_inputs n_outputs : nat) (g : G)
  : t * G :=
  let (B0, g) := random_normal2 g n_inputs n_outputs in
  let (b0, g) := random_normal1 g n_outputs in
  (mk n_inputs n_outputs B0 b0 None None None, g).

Definition set_input (self : t) (v : np.ndarray T) : t :=
  mk (n_inputs self) (n_outputs self) (B self) (b self) (Some v)
     (grad_b self) (grad_B self).

Definition set_grad_b (self : t) (v : list T) : t :=
  mk (n_inputs self) (n_outputs self) (B self) (b self) (input self)
     (Some v) (grad_B self).

Definition set_grad_B (self : t) (v : np.ndarray T) : t :=
  mk (n_inputs self) (n_outputs self) (B self) (b self) (input self)
     (grad_b self) (Some v).

Definition set_B (self : t) (v : np.ndarray T) : t :=
  mk (n_inputs self) (n_outputs self) v (b self) (input self)
     (grad_b self) (grad_B self).

Definition set_b (self : t) (v : list T) : t :=
  mk (n_inputs self) (n_outputs self) (B self) v (input self)
     (grad_b self) (grad_B self).

Definition forward (self : t) (input : np.ndarray T) : t * result (np.ndarray T) :=
  let self := set_input self input in
  (self,
   let* product := np.matmul input (B self) in
   let* preactivations := np.add product (np.as_row (b self)) in
   Ok preactivations).

Definition backward (self : t) (upstream_gradient : np.ndarray T)
  : t * result (np.ndarray T) :=
  let self :=
    set_grad_b self
      (np.vdiv_nat (np.sum_axis0 upstream_gradient) (np.nrows upstream_gradient)) in
  match input self with
  | None => (self, Raise AttributeError)
  | Some cached =>
      match np.matmul (np.transpose cached) upstream_gradient with
      | Raise e => (self, Raise e)
      | Ok gB =>
          let self := set_grad_B self gB in
          (self,
           let* downstream_gradient :=
             np.matmul upstream_gradient (np.transpose (B self)) in
           Ok downstream_gradient)
      end
  end.

Definition update (self : t) (learning_rate : T) : t * result unit :=
  match grad_B self with
  | None => (self, Raise AttributeError)
  | Some gB =>
      match np.sub (B self) (np.scale learning_rate gB) with
      | Raise e => (self, Raise e)
      | Ok B' =>
          let self := set_B self B' in
          match grad_b self with
          | None => (self, Raise AttributeError)
          | Some gb =>
              match np.vsub (b self) (np.vscale learning_rate gb) with
              | Raise e => (self, Raise e)
              | Ok b' => (set_b self b', Ok tt)
              end
          end
      end
  end.
End Def.
Arguments t T : clear implicits.
End LinearLayer.

(** ** The layers of a network

    [MLP] keeps its layers in one Python list and calls [forward], [backward]
    and [update] on whatever object is there.  The three classes are the
    variants of one type; a call with the wrong number of arguments raises
    [TypeError]. *)

Inductive Layer (T : Type) : Type :=
| Linear (l : LinearLayer.t T)
| ReLU (l : ReLULayer.t T)
| Output (l : OutputLayer.t T).

Arguments Linear {T} l.
Arguments ReLU {T} l.
Arguments Output {T} l.

Section Dispatch.
Context {T : Type} {ST : Scalar T} {E : Exponential T}.

Definition lift {A B : Type} (c : A -> Layer T) (p : A * B) : Layer T * B :=
  (c (fst p), snd p).

(** [layer.forward(x)] *)
Definition Layer_forward (layer : Layer T) (x : np.ndarray T)
  : Layer T * result (np.ndarray T) :=
  match layer with
  | Linear l => lift Linear (LinearLayer.forward l x)
  | ReLU l => lift ReLU (ReLULayer.forward l x)
  | Output l => lift Output (OutputLayer.forward l x)
  end.

(** [layer.backward(upstream_gradient)] *)
Definition Layer_backward (layer : Layer T) (upstream_gradient : np.ndarray T)
  : Layer T * result (np.ndarray T) :=
  match layer with
  | Linear l => lift Linear (LinearLayer.backward l upstream_gradient)
  | ReLU l => lift ReLU (ReLULayer.backward l upstream_gradient)
  | Output l => (layer, Raise TypeError)
  end.

(** [layer.backward(predicted_posteriors, true_classes)] *)
Definition Layer_backward2 (layer : Layer T) (predicted_posteriors : np.ndarray T)
    (true_classes : list Z) : Layer T * result (np.ndarray T) :=
  match layer with
  | Output l => lift Output (OutputLayer.backward l predicted_posteriors true_classes)
  | _ => (layer, Raise TypeError)
  end.

(** [layer.update(learning_rate)] *)
Definition Layer_update (layer : Layer T) (learning_rate : T)
  : Layer T * result unit :=
  match layer with
  | Linear l => lift Linear (LinearLayer.update l learning_rate)
  | ReLU l => lift ReLU (ReLULayer.update l learning_rate)
  | Output l => lift Output (OutputLayer.update l learning_rate)
  end.
End Dispatch.

(** ** class MLP *)

Module MLP.
Section Def.
Context {T : Type} {ST : Scalar T} {E : Exponential T}.
Context {G : Type} {RS : RandomSource T G}.

Record t : Type := mk {
  n_layers : nat;
  layers : list (Layer T)
}.

(** The loop of [__init__] over [layer_sizes[:-1]]; it returns the layers
    appended, the last value of [n_in] and the generator. *)
Fixpoint init_interior (n_in : nat) (sizes : list nat) (g : G)
  : list (Layer T) * nat * G :=
  match sizes with
  | [] => ([], n_in, g)
  | n_out :: rest =>
      let (lin, g) := LinearLayer.init n_in n_out g in
      let '(ls, n_in, g) := init_interior n_out rest g in
      (Linear lin :: ReLU ReLULayer.init :: ls, n_in, g)
  end.

(** [layer_sizes[-1]] raises [IndexError] on the empty list. *)
Definition init (n_features : nat) (layer_sizes : list nat) (g : G)
  : result (t * G) :=
  let '(ls, n_in, g) := init_interior n_features (removelast layer_sizes) g in
  match layer_sizes with
  | [] => Raise IndexError
  | _ :: _ =>
      let n_out := last layer_sizes 0 in
      let (lin, g) := LinearLayer.init n_in n_out g in
      Ok (mk (length layer_sizes)
             (ls ++ [Linear lin; Output (OutputLayer.init n_out)]), g)
  end.

(** [for layer in layers: result = layer.forward(result)].  A layer that
    raises has already stored its input; the layers after it are not
    reached. *)
Fixpoint forward_layers (ls : list (Layer T)) (x : np.ndarray T)
  : list (Layer T) * result (np.ndarray T) :=
  match ls with
  | [] => ([], Ok x)
  | layer :: rest =>
      let (layer, r) := Layer_forward layer x in
      match r with
      | Raise e => (layer :: rest, Raise e)
      | Ok y =>
          let (rest, r) := forward_layers rest y in
          (layer :: rest, r)
      end
  end.

(** [X] is a two-dimensional batch here, which [reshape] returns as it
    is (or raises on, when the batch has no row). *)
Definition forward (self : t) (X : np.ndarray T) : t * result (np.ndarray T) :=
  match np.reshape_rows X with
  | Raise e => (self, Raise e)
  | Ok X =>
      let (ls, result) := forward_layers (layers self) X in
      (mk (n_layers self) ls, result)
  end.

(** The loop of [backward], on the layers in the order in which it visits
    them. *)
Fixpoint backward_layers (ls : list (Layer T)) (upstream_gradient : np.ndarray T)
  : list (Layer T) * result (np.ndarray T) :=
  match ls with
  | [] => ([], Ok upstream_gradient)
  | layer :: rest =>
      let (layer, r) := Layer_backward layer upstream_gradient in
      match r with
      | Raise e => (layer :: rest, Raise e)
      | Ok g =>
          let (rest, r) := backward_layers rest g in
          (layer :: rest, r)
      end
  end.

Definition backward (self : t) (predicted_posteriors : np.ndarray T)
    (true_classes : list Z) : t * result unit :=
  match rev (layers self) with
  | [] => (self, Raise IndexError)
  | last_layer :: before =>
      let (last_layer, r) :=
        Layer_backward2 last_layer predicted_posteriors true_classes in
      match r with
      | Raise e => (mk (n_layers self) (rev (last_layer :: before)), Raise e)
      | Ok upstream_gradient =>
          let (before, r) := backward_layers before upstream_gradient in
          (mk (n_layers self) (rev (last_layer :: before)),
           let* _ := r in Ok tt)
      end
  end.

Fixpoint update_layers (ls : list (Layer T)) (learning_rate : T)
  : list (Layer T) * result unit :=
  match ls with
  | [] => ([], Ok tt)
  | layer :: rest =>
      let (layer, r) := Layer_update layer learning_rate in
      match r with
      | Raise e => (layer :: rest, Raise e)
      | Ok _ =>
          let (rest, r) := update_layers rest learning_rate in
          (layer :: rest, r)
      end
  end.

(** [predicted_classes] is computed and not used; [np.argmax] can still
    raise. *)
Definition update (self : t) (X : np.ndarray T) (Y : list Z) (learning_rate : T)
  : t * result unit :=
  let (self, r) := forward self X in
  match r with
  | Raise e => (self, Raise e)
  | Ok posteriors =>
      match np.argmax_axis1 posteriors with
      | Raise e => (self, Raise e)
      | Ok predicted_classes =>
          let (self, r) := backward self posteriors Y in
          match r with
          | Raise e => (self, Raise e)
          | Ok _ =>
              let (ls, r) := update_layers (layers self) learning_rate in
              (mk (n_layers self) ls, r)
          end
      end
  end.

(** What one epoch did: the permutation drawn, and the index array of each
    call of [update], in the order of the calls.  The program keeps no such
    record; [train] returns it so that its schedule can be stated. *)
Definition epoch_log : Type := (list nat * list (list nat))%type.

(** [for batch in range(n_batches)] *)
Fixpoint train_batches (self : t) (x : np.ndarray T) (y : list Z)
    (permutation : list nat) (batch_size : nat) (learning_rate : T)
    (batches : list nat) : t * list (list nat) * result unit :=
  match batches with
  | [] => (self, [], Ok tt)
  | batch :: rest =>
      let start := batch * batch_size in
      let idx := np.slice permutation start (start + batch_size) in
      match np.take_rows x (map Z.of_nat idx) with
      | Raise e => (self, [], Raise e)
      | Ok x_batch =>
          match np.take 0%Z y (map Z.of_nat idx) with
          | Raise e => (self, [], Raise e)
          | Ok y_batch =>
              let (self, r) := update self x_batch y_batch learning_rate in
              match r with
              | Raise e => (self, [idx], Raise e)
              | Ok _ =>
                  let '(self, calls, r) :=
                    train_batches self x y permutation batch_size
                                  learning_rate rest in
                  (self, idx :: calls, r)
              end
          end
      end
  end.

(** [for i in range(n_epochs)]; the [print] is left out. *)
Fixpoint train_epochs (self : t) (x : np.ndarray T) (y : list Z)
    (N n_batches batch_size : nat) (learning_rate : T) (g : G)
    (epochs : list nat) : t * G * list epoch_log * result unit :=
  match epochs with
  | [] => (self, g, [], Ok tt)
  | i :: rest =>
      let (permutation, g) := random_permutation g N in
      let '(self, calls, r) :=
        train_batches self x y permutation batch_size learning_rate
                      (seq 0 n_batches) in
      match r with
      | Raise e => (self, g, [(permutation, calls)], Raise e)
      | Ok _ =>
          let '(self, g, log, r) :=
            train_epochs self x y N n_batches batch_size learning_rate g rest in
          (self, g, (permutation, calls) :: log, r)
      end
  end.

(** [N // batch_size] raises [ZeroDivisionError] for [batch_size = 0]. *)
Definition train (self : t) (x : np.ndarray T) (y : list Z)
    (n_epochs batch_size : nat) (learning_rate : T) (g : G)
  : t * G * list epoch_log * result unit :=
  let N := np.nrows x in
  if batch_size =? 0 then (self, g, [], Raise ZeroDivisionError)
  else
    let n_batches := N / batch_size in
    train_epochs self x y N n_batches batch_size learning_rate g
                 (seq 0 n_epochs).
End Def.
Arguments t T : clear implicits.
End MLP.

(** * The vocabulary of the statements *)

(** [big_sum n f] adds [f 0], ..., [f (n-1)] from the left, starting from
    zero: the order in which [dot] and [sum_axis0] add. *)
Definition big_sum {T : Type} {ST : Scalar T} (n : nat) (f : nat -> T) : T :=
  fold_left (fun acc k => sadd acc (f k)) (seq 0 n) s0.

(** [x == 0]: on the doubles both zeros compare equal to 0, and
    not-a-number does not. *)
Definition szero {T : Type} {ST : Scalar T} (x : T) : bool :=
  sleb x s0 && sleb s0 x.

(** A finite number: [x - x == 0].  On the doubles [inf - inf] and every
    difference with a not-a-number are not-a-number, which fails the test;
    integers and reals are all finite. *)
Definition sfinite {T : Type} {ST : Scalar T} (x : T) : bool :=
  szero (ssub x x).

(** The parameters of a linear layer have the shape the constructor gives
    them. *)
Definition LinearLayer_wf {T : Type} (self : LinearLayer.t T) : Prop :=
  np.has_shape (LinearLayer.B self)
               (LinearLayer.n_inputs self) (LinearLayer.n_outputs self) /\
  length (LinearLayer.b self) = LinearLayer.n_outputs self.

(** What a layer is, apart from the arrays it holds: its class and the sizes
    it was constructed with. *)
Inductive LayerKind : Type :=
| KLinear (n_inputs n_outputs : nat)
| KReLU
| KOutput (n_classes : nat).

Definition layer_kind {T : Type} (layer : Layer T) : LayerKind :=
  match layer with
  | Linear l => KLinear (LinearLayer.n_inputs l) (LinearLayer.n_outputs l)
  | ReLU _ => KReLU
  | Output l => KOutput (OutputLayer.n_classes l)
  end.

(** The stack the specification describes for [n_features] and
    [layer_sizes]: for each width but the last a linear layer and a ReLU
    layer, for the last width a linear layer and the output layer; each
    linear layer takes the width before it. *)
Fixpoint architecture (n_in : nat) (layer_sizes : list nat) : list LayerKind :=
  match layer_sizes with
  | [] => []
  | [n_out] => [KLinear n_in n_out; KOutput n_out]
  | n_out :: rest => KLinear n_in n_out :: KReLU :: architecture n_out rest
  end.

(** The part of a network that no method assigns: the number of layers
    recorded and, position by position, the class and the sizes of each
    layer. *)
Definition same_stack {T : Type} (net net' : MLP.t T) : Prop :=
  MLP.n_layers net' = MLP.n_layers net /\
  length (MLP.layers net') = length (MLP.layers net) /\
  map layer_kind (MLP.layers net') = map layer_kind (MLP.layers net).

(** ** Networks on which a training step runs to its end *)

(** A hidden layer that takes rows of [d_in] entries and gives rows of
    [d_out] entries. *)
Definition layer_ty {T : Type} (layer : Layer T) (d_in d_out : nat) : Prop :=
  match layer with
  | Linear l =>
      LinearLayer_wf l /\
      LinearLayer.n_inputs l = d_in /\ LinearLayer.n_outputs l = d_out
  | ReLU _ => d_out = d_in
  | Output _ => False
  end.

(** The layer has cached an input of [r] rows. *)
Definition layer_primed {T : Type} (r : nat) (layer : Layer T) (d_in : nat) : Prop :=
  match layer with
  | Linear l =>
      exists x, LinearLayer.input l = Some x /\ np.has_shape x r d_in
  | ReLU l =>
      exists x, ReLULayer.input l = Some x /\ np.has_shape x r d_in
  | Output _ => False
  end.

(** The layer holds gradients of the shape of its parameters. *)
Definition layer_ready {T : Type} (layer : Layer T) (d_in : nat) : Prop :=
  match layer with
  | Linear l =>
      exists gB gb,
        LinearLayer.grad_B l = Some gB /\
        np.has_shape gB (LinearLayer.n_inputs l) (LinearLayer.n_outputs l) /\
        LinearLayer.grad_b l = Some gb /\
        length gb = LinearLayer.n_outputs l
  | _ => True
  end.

Definition layer_any {T : Type} (layer : Layer T) (d_in : nat) : Prop := True.

(** Hidden layers whose widths fit one another, each in a state [P]. *)
Inductive chain {T : Type} (P : Layer T -> nat -> Prop)
  : nat -> list (Layer T) -> nat -> Prop :=
| chain_nil (d : nat) : chain P d [] d
| chain_cons (layer : Layer T) (rest : list (Layer T)) (d_in d_mid d_out : nat) :
    layer_ty layer d_in d_mid -> P layer d_in ->
    chain P d_mid rest d_out ->
    chain P d_in (layer :: rest) d_out.

(** A network for [n_features] features and [n_classes] classes: hidden
    layers that fit, then the output layer.  The networks that [MLP.init]
    constructs are of this form. *)
Definition MLP_wf {T : Type} (net : MLP.t T) (n_features n_classes : nat) : Prop :=
  exists body o,
    MLP.layers net = body ++ [Output o] /\
    chain layer_any n_features body n_classes /\
    OutputLayer.n_classes o = n_classes.

(** Class labels of a problem with [n_classes] classes. *)
Definition labels_in_range (n_classes : nat) (y : list Z) : Prop :=
  Forall (fun l => (0 <= l < Z.of_nat n_classes)%Z) y.

(** The index arrays of the calls of [update] in an epoch of [n_batches]
    mini-batches: consecutive slices of the permutation. *)
Definition schedule (permutation : list nat) (batch_size n_batches : nat)
  : list (list nat) :=
  map (fun batch => np.slice permutation (batch * batch_size)
                             (batch * batch_size + batch_size))
      (seq 0 n_batches).

(** "For each mini-batch in order, call update": [update_each] calls
    [update] on [x[idx]] and [y[idx]] for each index array [idx] of
    [calls], from the first to the last, each call on the network that the
    call before it left; it stops at the first call that raises. *)
Fixpoint update_each {T : Type} {ST : Scalar T} {E : Exponential T}
    (net : MLP.t T) (x : np.ndarray T) (y : list Z) (learning_rate : T)
    (calls : list (list nat)) : MLP.t T * result unit :=
  match calls with
  | [] => (net, Ok tt)
  | idx :: rest =>
      match np.take_rows x (map Z.of_nat idx) with
      | Raise e => (net, Raise e)
      | Ok x_batch =>
          match np.take 0%Z y (map Z.of_nat idx) with
          | Raise e => (net, Raise e)
          | Ok y_batch =>
              let (net, r) := MLP.update net x_batch y_batch learning_rate in
              match r with
              | Raise e => (net, Raise e)
              | Ok _ => update_each net x y learning_rate rest
              end
          end
      end
  end.

(** The permutations that [n_epochs] successive calls of
    [np.random.permutation(N)] return, and the generator after them. *)
Fixpoint draw_permutations {T G : Type} {RS : RandomSource T G}
    (g : G) (N n_epochs : nat) : list (list nat) * G :=
  match n_epochs with
  | 0 => ([], g)
  | S k =>
      let (p, g) := random_permutation g N in
      let (ps, g) := draw_permutations g N k in
      (p :: ps, g)
  end.

(** * Concrete inputs

    Small arrays and layers on which the definitions are run. *)

(** A deterministic stand-in for [np.random]: the generator is a counter, an
    array drawn holds the counter in every entry, and the permutation drawn
    is [range(n)] rotated by the counter. *)
Definition rotate (k n : nat) : list nat :=
  skipn (k mod n) (seq 0 n) ++ firstn (k mod n) (seq 0 n).

#[export] Instance RandomSource_counter {T : Type} {ST : Scalar T}
  : RandomSource T nat := {
  random_normal2 := fun g r c => (np.tabulate r c (fun _ _ => sof_nat g), S g);
  random_normal1 := fun g n => (repeat (sof_nat g) n, S g);
  random_permutation := fun g n => (rotate g n, S g)
}.

Module ex.
(** Integer arrays. *)
Definition W : np.ndarray Z := np.mk_ndarray 2 2 [[1; 2]; [3; 4]]%Z.
Definition w : list Z := [10; 20]%Z.
Definition linear : LinearLayer.t Z := LinearLayer.mk 2 2 W w None None None.
Definition input : np.ndarray Z :=
  np.mk_ndarray 3 2 [[1; 1]; [2; 0]; [0; -1]]%Z.
Definition upstream : np.ndarray Z :=
  np.mk_ndarray 3 2 [[1; 2]; [3; 4]; [5; 6]]%Z.
Definition gW : np.ndarray Z := np.mk_ndarray 2 2 [[7; 10]; [-4; -4]]%Z.
Definition gw : list Z := [3; 4]%Z.
Definition linear_after_backward : LinearLayer.t Z :=
  LinearLayer.mk 2 2 W w (Some input) (Some gw) (Some gW).
Definition posteriors : np.ndarray Z :=
  np.mk_ndarray 3 2 [[1; 0]; [0; 1]; [0; 1]]%Z.
Definition labels : list Z := [0; 1; 1]%Z.

(** Real arrays: the network [MLP(2, [2, 2])] and five labelled points. *)
Definition scores : np.ndarray R :=
  np.mk_ndarray 2 3 [[0; 1; -1]; [2; 2; 2]]%R.
Definition no_class : np.ndarray R := np.mk_ndarray 1 0 [[]].
Definition net : MLP.t R :=
  MLP.mk 2
    [Linear (LinearLayer.mk 2 2 (np.mk_ndarray 2 2 [[1; -1]; [0; 2]]%R)
                            [0; 1]%R None None None);
     ReLU ReLULayer.init;
     Linear (LinearLayer.mk 2 2 (np.mk_ndarray 2 2 [[1; 0]; [1; 1]]%R)
                            [0; 0]%R None None None);
     Output (OutputLayer.init 2)].
Definition x : np.ndarray R :=
  np.mk_ndarray 5 2 [[0; 1]; [1; 0]; [1; 1]; [-1; 0]; [0; -1]]%R.
Definition y : list Z := [0; 1; 1; 0; 1]%Z.
(** Five instances of three features: one more than [net] takes. *)
Definition x_wide : np.ndarray R :=
  np.mk_ndarray 5 3
    [[0; 1; 0]; [1; 0; 0]; [1; 1; 0]; [-1; 0; 0]; [0; -1; 0]]%R.
End ex.

(** Arrays of doubles, with entries that are infinite or not a number. *)
Module exf.
Import PrimFloat.
Local Open Scope float_scope.

Definition input : np.ndarray float :=
  np.mk_ndarray 2 2 [[1.5; -2]; [0; nan]].
Definition upstream : np.ndarray float :=
  np.mk_ndarray 2 2 [[infinity; 3]; [-4; 5]].
(** Not one entry above 0, under a gradient with no finite entry. *)
Definition nonpositive : np.ndarray float := np.mk_ndarray 1 2 [[-1; 0]].
Definition unbounded : np.ndarray float :=
  np.mk_ndarray 1 2 [[infinity; nan]].
(** Scores whose exponential is above the largest double, and scores
    whose exponential is below the smallest. *)
Definition large_scores : np.ndarray float := np.mk_ndarray 1 2 [[1000; 0]].
Definition tiny_scores : np.ndarray float :=
  np.mk_ndarray 1 2 [[-1000; -1000]].
(** [ex.scores] as doubles, and the distance of a double from 1. *)
Definition scores : np.ndarray float :=
  np.mk_ndarray 2 3 [[0; 1; -1]; [2; 2; 2]].
Definition off_one (x : float) : float := abs (x - 1).
Definition tolerance : float := 0x1p-50.
(** A row with a not-a-number and a negative zero, and what
    [np.maximum(0, .)] makes of it; two rows and their [argmax]. *)
Definition mixed : np.ndarray float := np.mk_ndarray 1 4 [[nan; -1; 2; -0]].
Definition mixed_relu : np.ndarray float :=
  np.mk_ndarray 1 4 [[nan; 0; 2; 0]].
Definition rows_with_nan : np.ndarray float :=
  np.mk_ndarray 2 3 [[1; nan; 3]; [2; 5; 5]].
End exf.

(** * The script at the end of the file

    The block under [if __name__ == "__main__"] prepares the data, then
    constructs, trains and tests four networks.  Its steps are embedded as
    functions of the arrays they read; [datasets.make_moons] and the
    [print] calls are left out. *)

(** ** The NumPy reductions the script uses *)

Module npx.
Section Numeric.
Context {T : Type} {ST : Scalar T}.

(** [np.minimum(a, b)] and [np.maximum(a, b)]: the first argument when it
    is the smaller (the greater) or is not-a-number, else the second; a
    not-a-number on either side is returned. *)
Definition smin (a b : T) : T := if sleb a b || np.isnan a then a else b.
Definition smax (a b : T) : T := if sleb b a || np.isnan a then a else b.

Definition vmin (u v : list T) : list T :=
  map (fun p => smin (fst p) (snd p)) (combine u v).
Definition vmax (u v : list T) : list T :=
  map (fun p => smax (fst p) (snd p)) (combine u v).

(** [m.min(axis=0)]: raises on an array with no row. *)
Definition min_axis0 (m : np.ndarray T) : result (list T) :=
  match np.rows m with
  | [] => Raise ValueError
  | r :: rest => Ok (fold_left vmin rest r)
  end.

(** [m.max(axis=0)] *)
Definition max_axis0 (m : np.ndarray T) : result (list T) :=
  match np.rows m with
  | [] => Raise ValueError
  | r :: rest => Ok (fold_left vmax rest r)
  end.
End Numeric.

(** [np.sum(v)] of a boolean array: the number of [True]. *)
Definition count_true (v : list bool) : nat := length (filter (fun c => c) v).
End npx.

Module Main.
Section Def.
Context {T : Type} {ST : Scalar T} {E : Exponential T}.
Context {G : Type} {RS : RandomSource T G}.

(** The Python numbers [0.5] and [2.0]. *)
Definition half : T := sdiv s1 (sof_nat 2).
Definition two : T := sof_nat 2.

(** [offset = X_train.min(axis=0)] and
    [scaling = X_train.max(axis=0) - offset] *)
Definition scaler (X_train : np.ndarray T) : result (list T * list T) :=
  let* offset := npx.min_axis0 X_train in
  let* top := npx.max_axis0 X_train in
  let* scaling := np.vsub top offset in
  Ok (offset, scaling).

(** [((X - offset) / scaling - 0.5) * 2.0] *)
Definition standardize (X : np.ndarray T) (offset scaling : list T)
  : result (np.ndarray T) :=
  let* centred := np.sub X (np.as_row offset) in
  let* scaled := np.divide centred (np.as_row scaling) in
  Ok (np.map_nd (fun v => smul (ssub v half) two) scaled).

(** [predicted_posteriors = network.forward(X_test)] and
    [predicted_classes = np.argmax(predicted_posteriors, axis=1)] *)
Definition predict (network : MLP.t T) (X_test : np.ndarray T)
  : MLP.t T * result (list nat) :=
  let (network, r) := MLP.forward network X_test in
  (network,
   let* predicted_posteriors := r in
   np.argmax_axis1 predicted_posteriors).

(** [np.sum(predicted_classes != Y_test) / len(Y_test)].  The comparison
    of two arrays that do not broadcast raises (NumPy 1.25 and later). *)
Definition error_rate (predicted_classes : list nat) (Y_test : list Z)
  : result T :=
  let* wrong := np.broadcast1 (fun p y => negb (Z.of_nat p =? y)%Z) 0 0%Z
                              predicted_classes Y_test in
  Ok (sdiv (sof_nat (npx.count_true wrong)) (sof_nat (length Y_test))).

(** The body of the loop over [layer_sizes_multiple_mlps]: construct,
    train, test.  It returns the error rate. *)
Definition experiment (n_features : nat) (layer_sizes : list nat)
    (X_train : np.ndarray T) (Y_train : list Z)
    (X_test : np.ndarray T) (Y_test : list Z)
    (n_epochs batch_size : nat) (learning_rate : T) (g : G)
  : G * result T :=
  match MLP.init n_features layer_sizes g with
  | Raise e => (g, Raise e)
  | Ok (network, g) =>
      let '(network, g, _, r) :=
        MLP.train network X_train Y_train n_epochs batch_size learning_rate g in
      match r with
      | Raise e => (g, Raise e)
      | Ok _ =>
          let (network, r) := predict network X_test in
          (g,
           let* predicted_classes := r in
           error_rate predicted_classes Y_test)
      end
  end.
End Def.
End Main.

(** * More vocabulary *)

(** The trainable parameters of a layer: the weights and intercepts of a
    linear layer; the other layers have none. *)
Definition layer_params {T : Type} (layer : Layer T)
  : option (np.ndarray T * list T) :=
  match layer with
  | Linear l => Some (LinearLayer.B l, LinearLayer.b l)
  | _ => None
  end.

Definition MLP_params {T : Type} (net : MLP.t T)
  : list (option (np.ndarray T * list T)) :=
  map layer_params (MLP.layers net).

(** A layer as its constructor leaves it: no input cached, no gradient
    stored. *)
Definition layer_fresh {T : Type} (layer : Layer T) : Prop :=
  match layer with
  | Linear l =>
      LinearLayer.input l = None /\
      LinearLayer.grad_b l = None /\ LinearLayer.grad_B l = None
  | ReLU l => ReLULayer.input l = None
  | Output l => OutputLayer.input l = None
  end.

(** The index that an integer index into an axis of extent [n] reads. *)
Definition wrap_index (n : nat) (k : Z) : Z :=
  if (k <? 0)%Z then (Z.of_nat n + k)%Z else k.

(** What one step of gradient descent with [learning_rate] makes of a
    layer: a linear layer keeps its sizes, holds gradients [grad_B] and
    [grad_b], and its weights and intercepts are the ones before minus
    [learning_rate] times these gradients; the other layers have no
    parameter to change. *)
Definition descent_step {T : Type} {ST : Scalar T} (learning_rate : T)
    (before after : Layer T) : Prop :=
  match before, after with
  | Linear l, Linear l' =>
      LinearLayer.n_inputs l' = LinearLayer.n_inputs l /\
      LinearLayer.n_outputs l' = LinearLayer.n_outputs l /\
      exists gB gb,
        LinearLayer.grad_B l' = Some gB /\ LinearLayer.grad_b l' = Some gb /\
        np.has_shape (LinearLayer.B l')
                     (LinearLayer.n_inputs l) (LinearLayer.n_outputs l) /\
        length (LinearLayer.b l') = LinearLayer.n_outputs l /\
        (forall i j, i < LinearLayer.n_inputs l -> j < LinearLayer.n_outputs l ->
           np.entry (LinearLayer.B l') i j =
           ssub (np.entry (LinearLayer.B l) i j)
                (smul learning_rate (np.entry gB i j))) /\
        (forall j, j < LinearLayer.n_outputs l ->
           nth j (LinearLayer.b l') s0 =
           ssub (nth j (LinearLayer.b l) s0)
                (smul learning_rate (nth j gb s0)))
  | ReLU _, ReLU _ => True
  | Output o, Output o' => OutputLayer.n_classes o' = OutputLayer.n_classes o
  | _, _ => False
  end.

(** A function from batches to batches that works on each row by itself:
    entry [(i, j)] of the result is [phi j] of row [i] of the argument, and
    [phi] reads the first [d_in] entries of the row only. *)
Definition row_wise {T : Type} {ST : Scalar T}
    (run : np.ndarray T -> result (np.ndarray T))
    (d_in d_out : nat) (phi : nat -> (nat -> T) -> T) : Prop :=
  (forall row row' j, j < d_out -> (forall k, k < d_in -> row k = row' k) ->
     phi j row = phi j row') /\
  forall r x, np.has_shape x r d_in -> 0 < r ->
    exists y, run x = Ok y /\ np.has_shape y r d_out /\
      forall i j, i < r -> j < d_out ->
        np.entry y i j = phi j (fun k => np.entry x i k).

(** ** More concrete arrays for the examples *)

Module ex2.
(** An integer batch that is one column too wide for [ex.linear]. *)
Definition wide : np.ndarray Z :=
  np.mk_ndarray 3 3 [[1; 2; 3]; [4; 5; 6]; [7; 8; 9]]%Z.
(** [ex.linear] after [forward(ex.input)]. *)
Definition primed : LinearLayer.t Z :=
  LinearLayer.mk 2 2 ex.W ex.w (Some ex.input) None None.
(** [ex.scores] with 5 added to its first row and 1 taken from its second. *)
Definition shifted_scores : np.ndarray R :=
  np.mk_ndarray 2 3 [[5; 6; 4]; [1; 1; 1]]%R.
Definition shift (i : nat) : R :=
  match i with 0 => 5%R | _ => (-1)%R end.
(** Batches that [ex.net] cannot take: no row, and one feature too many. *)
Definition no_row : np.ndarray R := np.mk_ndarray 0 2 [].
Definition wide_x : np.ndarray R := np.mk_ndarray 1 3 [[0; 0; 0]]%R.
End ex2.

(** * Properties *)

(** ** Lists *)

Lemma fold_left_ext_in {A B : Type} (f g : B -> A -> B) (l : list A) (acc : B) :
  (forall a x, In x l -> f a x = g a x) ->
  fold_left f l acc = fold_left g l acc.
Proof.
  revert acc; induction l as [|x l IH]; intros acc Hfg; simpl; auto.
  rewrite (Hfg acc x) by (left; reflexivity).
  apply IH; intros; apply Hfg; right; assumption.
Qed.

Lemma fold_left_map_fuse {A B C : Type} (f : C -> B -> C) (h : A -> B)
    (l : list A) (acc : C) :
  fold_left f (map h l) acc = fold_left (fun a x => f a (h x)) l acc.
Proof.
  revert acc; induction l as [|x l IH]; intros acc; simpl; auto.
Qed.

Section ListFacts.
Context {A B : Type}.

(** A left fold over a list is a left fold over its positions. *)
Lemma fold_left_positions (f : B -> A -> B) (d : A) (l : list A) (acc : B) :
  fold_left f l acc =
  fold_left (fun a k => f a (nth k l d)) (seq 0 (length l)) acc.
Proof.
  revert acc; induction l as [|x l IH] using rev_ind; intros acc; [reflexivity|].
  rewrite length_app; simpl length.
  rewrite Nat.add_1_r, seq_S, !fold_left_app; simpl.
  rewrite app_nth2, Nat.sub_diag by lia; simpl.
  f_equal. rewrite IH.
  apply fold_left_ext_in; intros a k Hk.
  apply in_seq in Hk. rewrite app_nth1 by lia. reflexivity.
Qed.

Lemma nth_map_seq (f : nat -> A) (n k : nat) (d : A) :
  k < n -> nth k (map f (seq 0 n)) d = f k.
Proof.
  intros Hk.
  rewrite (nth_indep _ d (f 0)) by (rewrite length_map, length_seq; exact Hk).
  rewrite (map_nth f (seq 0 n) 0 k), seq_nth by exact Hk. reflexivity.
Qed.

Lemma nth_map_in (f : A -> B) (l : list A) (k : nat) (d : A) (e : B) :
  k < length l -> nth k (map f l) e = f (nth k l d).
Proof.
  intros Hk.
  rewrite (nth_indep _ e (f d)) by (rewrite length_map; exact Hk).
  apply map_nth.
Qed.
End ListFacts.

Lemma mapM_Ok {A B : Type} (f : A -> result B) (g : A -> B) (xs : list A) :
  (forall x, In x xs -> f x = Ok (g x)) -> mapM f xs = Ok (map g xs).
Proof.
  induction xs as [|x xs IH]; intros Hf; simpl; [reflexivity|].
  rewrite (Hf x) by (left; reflexivity); simpl.
  rewrite IH by (intros; apply Hf; right; assumption). reflexivity.
Qed.

(** ** The array operations, entry by entry *)

Section ArrayFacts.
Context {A : Type}.
Implicit Types m : np.ndarray A.

Lemma tabulate_shape (r c : nat) (f : nat -> nat -> A) :
  np.has_shape (np.tabulate r c f) r c.
Proof.
  unfold np.has_shape, np.wf, np.tabulate; simpl.
  rewrite length_map, length_seq. repeat split.
  apply Forall_forall; intros row Hrow.
  apply in_map_iff in Hrow as [i [<- _]].
  rewrite length_map, length_seq. reflexivity.
Qed.

Lemma get_tabulate (d : A) (r c : nat) (f : nat -> nat -> A) (i j : nat) :
  i < r -> j < c -> np.get d (np.tabulate r c f) i j = f i j.
Proof.
  intros Hi Hj. unfold np.get, np.tabulate; simpl.
  rewrite (nth_map_seq (fun i => map (f i) (seq 0 c)) [] Hi).
  apply nth_map_seq; exact Hj.
Qed.

Lemma wf_row_length m (i : nat) :
  np.wf m -> i < np.nrows m -> length (nth i (np.rows m) []) = np.ncols m.
Proof.
  intros [Hlen Hrows] Hi.
  rewrite Forall_forall in Hrows. apply Hrows, nth_In. lia.
Qed.
End ArrayFacts.

Lemma bidx_lt (n i : nat) : i < n -> np.bidx n i = i.
Proof.
  unfold np.bidx; intros Hi.
  destruct (Nat.eqb_spec n 1); [lia | reflexivity].
Qed.

Lemma bdim_same (n : nat) : np.bdim n n = Some n.
Proof. unfold np.bdim. rewrite Nat.eqb_refl. reflexivity. Qed.

Lemma bdim_1_r (n : nat) : np.bdim n 1 = Some n.
Proof.
  unfold np.bdim.
  destruct (Nat.eqb_spec n 1) as [->|]; [reflexivity|].
  reflexivity.
Qed.

Lemma map_nd_shape {A B : Type} (f : A -> B) (m : np.ndarray A) (r c : nat) :
  np.has_shape m r c -> np.has_shape (np.map_nd f m) r c.
Proof.
  intros ([Hlen Hrows] & Hr & Hc).
  unfold np.has_shape, np.wf, np.map_nd; simpl.
  rewrite length_map. repeat split; auto.
  apply Forall_forall; intros row Hrow.
  apply in_map_iff in Hrow as [row' [<- Hin]].
  rewrite length_map. rewrite Forall_forall in Hrows. auto.
Qed.

Lemma get_map_nd {A B : Type} (f : A -> B) (da : A) (db : B)
    (m : np.ndarray A) (i j : nat) :
  np.wf m -> i < np.nrows m -> j < np.ncols m ->
  np.get db (np.map_nd f m) i j = f (np.get da m i j).
Proof.
  intros Hwf Hi Hj. unfold np.get, np.map_nd; simpl.
  pose proof (wf_row_length Hwf Hi) as Hrow. destruct Hwf as [Hlen _].
  rewrite (nth_map_in (map f) _ [] []) by lia.
  apply nth_map_in. lia.
Qed.

(** The general rule of broadcasting for two-dimensional operands. *)
Lemma broadcast2_spec {A B C : Type} (f : A -> B -> C) (da : A) (db : B) (dc : C)
    (x : np.ndarray A) (y : np.ndarray B) (r c : nat) :
  np.bdim (np.nrows x) (np.nrows y) = Some r ->
  np.bdim (np.ncols x) (np.ncols y) = Some c ->
  exists p, np.broadcast2 f da db x y = Ok p /\ np.has_shape p r c /\
    forall i j, i < r -> j < c ->
      np.get dc p i j =
      f (np.get da x (np.bidx (np.nrows x) i) (np.bidx (np.ncols x) j))
        (np.get db y (np.bidx (np.nrows y) i) (np.bidx (np.ncols y) j)).
Proof.
  intros Hr Hc. unfold np.broadcast2. rewrite Hr, Hc.
  eexists; split; [reflexivity|]. split; [apply tabulate_shape|].
  intros i j Hi Hj. exact (get_tabulate dc _ Hi Hj).
Qed.

(** Operands of one shape: entry by entry. *)
Lemma broadcast2_same {A B C : Type} (f : A -> B -> C) (da : A) (db : B) (dc : C)
    (x : np.ndarray A) (y : np.ndarray B) (r c : nat) :
  np.nrows x = r -> np.ncols x = c -> np.nrows y = r -> np.ncols y = c ->
  exists p, np.broadcast2 f da db x y = Ok p /\ np.has_shape p r c /\
    forall i j, i < r -> j < c ->
      np.get dc p i j = f (np.get da x i j) (np.get db y i j).
Proof.
  intros Hxr Hxc Hyr Hyc.
  destruct (broadcast2_spec f da db dc x y (r := r) (c := c))
    as (p & Hp & Hshape & Hget).
  - rewrite Hxr, Hyr. apply bdim_same.
  - rewrite Hxc, Hyc. apply bdim_same.
  - exists p; repeat split; try apply Hshape; auto.
    intros i j Hi Hj. rewrite Hget by assumption.
    rewrite Hxr, Hxc, Hyr, Hyc, !bidx_lt by assumption. reflexivity.
Qed.

Section NumericFacts.
Context {T : Type} {ST : Scalar T}.
Implicit Types m : np.ndarray T.

Lemma transpose_shape m :
  np.wf m -> np.has_shape (np.transpose m) (np.ncols m) (np.nrows m).
Proof.
  intros [Hlen _].
  unfold np.has_shape, np.wf, np.transpose; simpl.
  rewrite length_map, length_seq. repeat split.
  apply Forall_forall; intros row Hrow.
  apply in_map_iff in Hrow as [j [<- _]].
  rewrite length_map. exact Hlen.
Qed.

Lemma transpose_row m (j : nat) :
  j < np.ncols m ->
  nth j (np.rows (np.transpose m)) [] = map (fun r => nth j r s0) (np.rows m).
Proof.
  intros Hj. unfold np.transpose; simpl.
  apply (nth_map_seq (fun j => map (fun r => nth j r s0) (np.rows m))). exact Hj.
Qed.

Lemma entry_transpose m (i j : nat) :
  np.wf m -> i < np.ncols m -> j < np.nrows m ->
  np.entry (np.transpose m) i j = np.entry m j i.
Proof.
  intros [Hlen _] Hi Hj. unfold np.entry, np.get.
  rewrite transpose_row by exact Hi.
  apply (nth_map_in (fun r => nth i r s0)). lia.
Qed.

Lemma dot_big_sum (u v : list T) (n : nat) :
  length u = n -> length v = n ->
  np.dot u v = big_sum n (fun k => smul (nth k u s0) (nth k v s0)).
Proof.
  intros Hu Hv. unfold np.dot, big_sum.
  rewrite fold_left_map_fuse.
  rewrite (fold_left_positions _ (s0, s0)).
  rewrite length_combine, Hu, Hv, Nat.min_id.
  apply fold_left_ext_in; intros acc k _.
  rewrite combine_nth by lia. reflexivity.
Qed.

(** [a @ b]: the shapes must agree, and entry [(i, j)] of the product is
    the sum over [k] of [a[i,k] * b[k,j]]. *)
Lemma matmul_spec (a b : np.ndarray T) (r n c : nat) :
  np.has_shape a r n -> np.has_shape b n c ->
  exists p, np.matmul a b = Ok p /\ np.has_shape p r c /\
    forall i j, i < r -> j < c ->
      np.entry p i j =
      big_sum n (fun k => smul (np.entry a i k) (np.entry b k j)).
Proof.
  intros (Hwfa & Har & Han) (Hwfb & Hbn & Hbc).
  unfold np.matmul. rewrite Han, Hbn, Nat.eqb_refl.
  eexists; split; [reflexivity|].
  pose proof (transpose_shape Hwfb) as ([HTlen HTrows] & _ & _).
  split.
  - unfold np.has_shape, np.wf; simpl. destruct Hwfa as [Hlen _].
    rewrite length_map. repeat split; auto; try lia.
    apply Forall_forall; intros row Hrow.
    apply in_map_iff in Hrow as [ra [<- _]].
    rewrite length_map. simpl in HTlen. rewrite length_map, length_seq. reflexivity.
  - intros i j Hi Hj. unfold np.entry at 1, np.get; cbn [np.rows].
    pose proof (wf_row_length Hwfa (i := i)) as Hrow.
    destruct Hwfa as [Hlen _].
    rewrite (nth_map_in _ _ [] []) by lia.
    rewrite (nth_map_in _ _ [] s0) by (rewrite HTlen; simpl; lia).
    rewrite transpose_row by lia.
    rewrite (@dot_big_sum _ _ n).
    + unfold big_sum. apply fold_left_ext_in; intros acc k Hk.
      apply in_seq in Hk. unfold np.entry, np.get.
      rewrite (nth_map_in (fun r0 => nth j r0 s0) _ [] s0) by (destruct Hwfb; lia).
      reflexivity.
    + rewrite Hrow; lia.
    + rewrite length_map. destruct Hwfb; lia.
Qed.

Lemma vadd_length (u v : list T) (n : nat) :
  length u = n -> length v = n -> length (np.vadd u v) = n.
Proof.
  intros Hu Hv. unfold np.vadd.
  rewrite length_map, length_combine. lia.
Qed.

Lemma nth_vadd (u v : list T) (n j : nat) :
  length u = n -> length v = n -> j < n ->
  nth j (np.vadd u v) s0 = sadd (nth j u s0) (nth j v s0).
Proof.
  intros Hu Hv Hj. unfold np.vadd.
  rewrite (nth_map_in _ _ (s0, s0)) by (rewrite length_combine; lia).
  rewrite combine_nth by lia. reflexivity.
Qed.

Lemma fold_vadd (rs : list (list T)) (acc : list T) (c : nat) :
  length acc = c -> Forall (fun r => length r = c) rs ->
  length (fold_left np.vadd rs acc) = c /\
  forall j, j < c ->
    nth j (fold_left np.vadd rs acc) s0 =
    fold_left (fun a r => sadd a (nth j r s0)) rs (nth j acc s0).
Proof.
  revert acc; induction rs as [|r rs IH]; intros acc Hacc Hrs; simpl.
  - split; auto.
  - inversion Hrs as [|? ? Hr Hrs']; subst.
    destruct (IH (np.vadd acc r)) as [Hlen Hnth]; auto.
    { apply vadd_length; auto. }
    split; [exact Hlen|].
    intros j Hj. rewrite Hnth by exact Hj.
    rewrite nth_vadd with (n := length acc) by auto. reflexivity.
Qed.

(** [np.sum(m, axis=0)]: one entry per column, the sum of the column. *)
Lemma sum_axis0_spec m :
  np.wf m ->
  length (np.sum_axis0 m) = np.ncols m /\
  forall j, j < np.ncols m ->
    nth j (np.sum_axis0 m) s0 = big_sum (np.nrows m) (fun i => np.entry m i j).
Proof.
  intros [Hlen Hrows]. unfold np.sum_axis0.
  destruct (@fold_vadd (np.rows m) (repeat s0 (np.ncols m)) (np.ncols m))
    as [Hl Hn]; auto.
  { apply repeat_length. }
  split; [exact Hl|].
  intros j Hj. rewrite Hn by exact Hj.
  rewrite nth_repeat.
  rewrite (fold_left_positions _ []). rewrite Hlen. reflexivity.
Qed.
End NumericFacts.

(** ** LinearLayer *)

Section LinearLayerFacts.
Context {T : Type} {ST : Scalar T}.

(** Adding the intercepts to a product: row by row. *)
Lemma add_row_spec (p : np.ndarray T) (v : list T) (r c : nat) :
  np.has_shape p r c -> length v = c ->
  exists out, np.add p (np.as_row v) = Ok out /\ np.has_shape out r c /\
    forall i j, i < r -> j < c ->
      np.entry out i j = sadd (np.entry p i j) (nth j v s0).
Proof.
  intros (Hwf & Hr & Hc) Hv. unfold np.add.
  destruct (broadcast2_spec sadd s0 s0 s0 p (np.as_row v) (r := r) (c := c))
    as (out & Hout & Hshape & Hget).
  - simpl. rewrite Hr. apply bdim_1_r.
  - simpl. rewrite Hc, Hv. apply bdim_same.
  - exists out; repeat split; try apply Hshape; auto.
    intros i j Hi Hj. unfold np.entry. rewrite Hget by assumption.
    rewrite Hr, Hc, !bidx_lt by assumption.
    simpl np.nrows; simpl np.ncols. rewrite Hv, (bidx_lt Hj).
    reflexivity.
Qed.

(** C4. [LinearLayer.forward]: on a layer whose weights [B] are
    [n_inputs x n_outputs] and whose intercepts [b] have [n_outputs]
    entries, and an input of shape [batch x n_inputs], the call stores the
    input in the layer's cache (nothing else changes) and returns the
    [batch x n_outputs] array whose entry [(i, j)] is
    [sum_k input[i,k] * B[k,j] + b[j]]: the product [input . B] with [b]
    added to every row. *)
Theorem LinearLayer_forward_spec (self : LinearLayer.t T)
    (input : np.ndarray T) (batch : nat) :
  LinearLayer_wf self ->
  np.has_shape input batch (LinearLayer.n_inputs self) ->
  exists out,
    LinearLayer.forward self input =
      (LinearLayer.set_input self input, Ok out) /\
    LinearLayer.input (fst (LinearLayer.forward self input)) = Some input /\
    np.has_shape out batch (LinearLayer.n_outputs self) /\
    forall i j, i < batch -> j < LinearLayer.n_outputs self ->
      np.entry out i j =
      sadd (big_sum (LinearLayer.n_inputs self)
              (fun k => smul (np.entry input i k)
                             (np.entry (LinearLayer.B self) k j)))
           (nth j (LinearLayer.b self) s0).
Proof.
  intros [HB Hb] Hin. unfold LinearLayer.forward.
  destruct (matmul_spec Hin HB) as (p & Hp & Hpshape & Hpget).
  destruct (@add_row_spec p _ _ _ Hpshape Hb) as (out & Hout & Hshape & Hget).
  exists out. cbn [LinearLayer.set_input LinearLayer.B LinearLayer.b fst].
  rewrite Hp; cbn [bind]. rewrite Hout; cbn [bind].
  repeat split; try apply Hshape; auto.
  intros i j Hi Hj. rewrite Hget, Hpget by assumption. reflexivity.
Qed.

(** C1. [LinearLayer.backward] after [forward(input)]: with [B] of shape
    [n_inputs x n_outputs], [input] of shape [batch x n_inputs] and an
    upstream gradient of shape [batch x n_outputs], the call stores
    [grad_b], of length [n_outputs], whose entry [j] is the sum of column
    [j] of the upstream gradient divided by [batch] (the mean over the
    batch); it stores [grad_B], of shape [n_inputs x n_outputs], whose
    entry [(i, j)] is [sum_k input[k,i] * upstream[k,j]], that is
    [input^T . upstream] with no division by the batch size; and it
    returns the [batch x n_inputs] array whose entry [(k, i)] is
    [sum_j upstream[k,j] * B[i,j]], that is [upstream . B^T]. *)
Theorem LinearLayer_backward_spec (self : LinearLayer.t T)
    (input upstream_gradient : np.ndarray T) (batch : nat) :
  np.has_shape (LinearLayer.B self)
               (LinearLayer.n_inputs self) (LinearLayer.n_outputs self) ->
  np.has_shape input batch (LinearLayer.n_inputs self) ->
  np.has_shape upstream_gradient batch (LinearLayer.n_outputs self) ->
  let primed := fst (LinearLayer.forward self input) in
  exists gb gB down,
    LinearLayer.backward primed upstream_gradient =
      (LinearLayer.set_grad_B (LinearLayer.set_grad_b primed gb) gB, Ok down) /\
    (length gb = LinearLayer.n_outputs self /\
     forall j, j < LinearLayer.n_outputs self ->
       nth j gb s0 =
       sdiv (big_sum batch (fun i => np.entry upstream_gradient i j))
            (sof_nat batch)) /\
    (np.has_shape gB (LinearLayer.n_inputs self) (LinearLayer.n_outputs self) /\
     forall i j, i < LinearLayer.n_inputs self -> j < LinearLayer.n_outputs self ->
       np.entry gB i j =
       big_sum batch (fun k => smul (np.entry input k i)
                                    (np.entry upstream_gradient k j))) /\
    (np.has_shape down batch (LinearLayer.n_inputs self) /\
     forall k i, k < batch -> i < LinearLayer.n_inputs self ->
       np.entry down k i =
       big_sum (LinearLayer.n_outputs self)
         (fun j => smul (np.entry upstream_gradient k j)
                        (np.entry (LinearLayer.B self) i j))).
Proof.
  intros HB Hin Hup primed.
  destruct Hin as (Hwfin & Hinr & Hinc).
  destruct Hup as (Hwfup & Hupr & Hupc).
  destruct HB as (HwfB & HBr & HBc).
  pose proof (transpose_shape Hwfin) as HinT.
  pose proof (transpose_shape HwfB) as HBT.
  rewrite Hinr, Hinc in HinT. rewrite HBr, HBc in HBT.
  assert (Hup : np.has_shape upstream_gradient batch (LinearLayer.n_outputs self))
    by (unfold np.has_shape; auto).
  destruct (matmul_spec HinT Hup) as (gB & HgB & HgBshape & HgBget).
  destruct (matmul_spec Hup HBT) as (down & Hdown & Hdshape & Hdget).
  destruct (sum_axis0_spec Hwfup) as [Hslen Hsget].
  exists (np.vdiv_nat (np.sum_axis0 upstream_gradient)
                      (np.nrows upstream_gradient)), gB, down.
  split; [|split; [|split]].
  - unfold LinearLayer.backward, primed, LinearLayer.forward.
    cbn [fst LinearLayer.set_input LinearLayer.set_grad_b LinearLayer.input
         LinearLayer.B].
    rewrite HgB.
    cbn [LinearLayer.set_grad_B LinearLayer.set_grad_b LinearLayer.set_input
         LinearLayer.B].
    rewrite Hdown. reflexivity.
  - unfold np.vdiv_nat. rewrite length_map, Hslen. split; [exact Hupc|].
    intros j Hj.
    rewrite (nth_map_in _ _ s0) by (rewrite Hslen, Hupc; exact Hj).
    rewrite Hsget, Hupr by (rewrite Hupc; exact Hj). reflexivity.
  - split; [exact HgBshape|].
    intros i j Hi Hj. rewrite HgBget by assumption.
    unfold big_sum. apply fold_left_ext_in; intros acc k Hk.
    apply in_seq in Hk.
    rewrite entry_transpose by (try assumption; lia). reflexivity.
  - split; [exact Hdshape|].
    intros k i Hk Hi. rewrite Hdget by assumption.
    unfold big_sum. apply fold_left_ext_in; intros acc j Hj.
    apply in_seq in Hj.
    rewrite entry_transpose by (try assumption; lia). reflexivity.
Qed.

Lemma broadcast1_same (f : T -> T -> T) (u v : list T) (n : nat) :
  length u = n -> length v = n ->
  exists w, np.broadcast1 f s0 s0 u v = Ok w /\ length w = n /\
    forall j, j < n -> nth j w s0 = f (nth j u s0) (nth j v s0).
Proof.
  intros Hu Hv. unfold np.broadcast1. rewrite Hu, Hv, bdim_same.
  eexists; split; [reflexivity|]. split.
  - rewrite length_map, length_seq. reflexivity.
  - intros j Hj.
    rewrite (nth_map_seq _ s0 Hj), !bidx_lt by assumption. reflexivity.
Qed.

(** C5. [LinearLayer.update] on a layer that holds the gradients stored
    by [backward] ([grad_B] of the shape of [B], [grad_b] of the length
    of [b]): for every learning rate the call returns normally, and in
    the layer it leaves the attribute [B] is the array whose entry
    [(i, j)] is [B[i,j] - learning_rate * grad_B[i,j]] and the attribute
    [b] the array whose entry [j] is [b[j] - learning_rate * grad_b[j]],
    for the [B] and [b] before the call; the sizes, the cached input and
    the stored gradients are the ones before the call. *)
Theorem LinearLayer_update_spec (self : LinearLayer.t T) (learning_rate : T)
    (gB : np.ndarray T) (gb : list T) :
  LinearLayer_wf self ->
  LinearLayer.grad_B self = Some gB ->
  np.has_shape gB (LinearLayer.n_inputs self) (LinearLayer.n_outputs self) ->
  LinearLayer.grad_b self = Some gb ->
  length gb = LinearLayer.n_outputs self ->
  exists self',
    LinearLayer.update self learning_rate = (self', Ok tt) /\
    (np.has_shape (LinearLayer.B self')
                  (LinearLayer.n_inputs self) (LinearLayer.n_outputs self) /\
     forall i j, i < LinearLayer.n_inputs self -> j < LinearLayer.n_outputs self ->
       np.entry (LinearLayer.B self') i j =
       ssub (np.entry (LinearLayer.B self) i j)
            (smul learning_rate (np.entry gB i j))) /\
    (length (LinearLayer.b self') = LinearLayer.n_outputs self /\
     forall j, j < LinearLayer.n_outputs self ->
       nth j (LinearLayer.b self') s0 =
       ssub (nth j (LinearLayer.b self) s0) (smul learning_rate (nth j gb s0))) /\
    (LinearLayer.n_inputs self' = LinearLayer.n_inputs self /\
     LinearLayer.n_outputs self' = LinearLayer.n_outputs self /\
     LinearLayer.input self' = LinearLayer.input self /\
     LinearLayer.grad_B self' = LinearLayer.grad_B self /\
     LinearLayer.grad_b self' = LinearLayer.grad_b self).
Proof.
  intros [HB Hb] HgB HgBshape Hgb Hgblen.
  destruct HB as (HwfB & HBr & HBc).
  destruct HgBshape as (HwfgB & HgBr & HgBc).
  destruct (broadcast2_same ssub s0 s0 s0 (LinearLayer.B self)
              (np.scale learning_rate gB) HBr HBc)
    as (B' & HB' & HB'shape & HB'get); [exact HgBr | exact HgBc |].
  destruct (@broadcast1_same ssub (LinearLayer.b self)
              (np.vscale learning_rate gb) _ Hb)
    as (b' & Hb' & Hb'len & Hb'get).
  { unfold np.vscale. rewrite length_map. exact Hgblen. }
  assert (Hupd : LinearLayer.update self learning_rate =
                 (LinearLayer.set_b (LinearLayer.set_B self B') b', Ok tt)).
  { unfold LinearLayer.update. rewrite HgB. unfold np.sub. rewrite HB'.
    cbn [LinearLayer.set_B LinearLayer.grad_b LinearLayer.b].
    rewrite Hgb. unfold np.vsub. rewrite Hb'. reflexivity. }
  exists (LinearLayer.set_b (LinearLayer.set_B self B') b').
  split; [exact Hupd|].
  cbn [LinearLayer.set_b LinearLayer.set_B LinearLayer.B LinearLayer.b
       LinearLayer.n_inputs LinearLayer.n_outputs LinearLayer.input
       LinearLayer.grad_B LinearLayer.grad_b].
  split; [|split].
  - split; [exact HB'shape|].
    intros i j Hi Hj. unfold np.entry. rewrite HB'get by assumption.
    unfold np.scale.
    rewrite (get_map_nd (smul learning_rate) s0 s0 HwfgB) by lia.
    reflexivity.
  - split; [exact Hb'len|].
    intros j Hj. rewrite Hb'get by assumption. unfold np.vscale.
    rewrite (nth_map_in _ _ s0) by lia. reflexivity.
  - auto.
Qed.

(** C9. [forward] and [backward] of a linear layer leave the weights [B]
    and the intercepts [b] as they are, whatever the arguments and whether
    or not the call raises: [forward] changes the cached input only, and
    [backward] changes the stored gradients [grad_b] and [grad_B] only.
    Of the three methods only [update] assigns [B] and [b]. *)
Theorem LinearLayer_frame (self : LinearLayer.t T) (x : np.ndarray T) :
  (let self' := fst (LinearLayer.forward self x) in
   self' = LinearLayer.set_input self x /\
   LinearLayer.B self' = LinearLayer.B self /\
   LinearLayer.b self' = LinearLayer.b self /\
   LinearLayer.grad_B self' = LinearLayer.grad_B self /\
   LinearLayer.grad_b self' = LinearLayer.grad_b self /\
   LinearLayer.n_inputs self' = LinearLayer.n_inputs self /\
   LinearLayer.n_outputs self' = LinearLayer.n_outputs self) /\
  (let self' := fst (LinearLayer.backward self x) in
   LinearLayer.B self' = LinearLayer.B self /\
   LinearLayer.b self' = LinearLayer.b self /\
   LinearLayer.input self' = LinearLayer.input self /\
   LinearLayer.n_inputs self' = LinearLayer.n_inputs self /\
   LinearLayer.n_outputs self' = LinearLayer.n_outputs self).
Proof.
  split; intros self'; subst self'.
  - unfold LinearLayer.forward. cbn. repeat split; reflexivity.
  - destruct self as [n_in n_out W w cache gb gB].
    unfold LinearLayer.backward.
    cbn [LinearLayer.set_grad_b LinearLayer.input].
    destruct cache as [cached|]; [|cbn; repeat split; reflexivity].
    destruct (np.matmul (np.transpose cached) x); cbn;
      repeat split; reflexivity.
Qed.
End LinearLayerFacts.

(** ** ReLULayer *)

Section ReLULayerFacts.
Context {T : Type} {ST : Scalar T}.

(** C3. [ReLULayer.backward] after [forward(input)], for an upstream
    gradient of the shape of [input]: the result has that shape and its
    entry [(i, j)] is [upstream[i,j] * 1] where [input[i,j] > 0] and
    [upstream[i,j] * 0] elsewhere.  With [x * 1 = x] this is
    [upstream[i,j]] where [input[i,j] > 0].  Where [input[i,j] > 0] does
    not hold, and so where the input is exactly [0] ([0 > 0] is false),
    the entry is zero when [upstream[i,j]] is finite: [x * 0] is zero for
    the finite [x] only.  The laws assumed hold of the integers, of the
    reals and of the doubles. *)
Theorem ReLULayer_backward_spec (self : ReLULayer.t T)
    (input upstream_gradient : np.ndarray T) (r c : nat) :
  (forall x : T, smul x s1 = x) ->
  (forall x : T, sfinite x = true -> szero (smul x s0) = true) ->
  sltb s0 s0 = false ->
  np.has_shape input r c ->
  np.has_shape upstream_gradient r c ->
  exists down,
    ReLULayer.backward (fst (ReLULayer.forward self input)) upstream_gradient =
      (ReLULayer.mk (Some input), Ok down) /\
    np.has_shape down r c /\
    forall i j, i < r -> j < c ->
      np.entry down i j =
        smul (np.entry upstream_gradient i j)
             (if sltb s0 (np.entry input i j) then s1 else s0) /\
      (sltb s0 (np.entry input i j) = true ->
         np.entry down i j = np.entry upstream_gradient i j) /\
      (sltb s0 (np.entry input i j) = false ->
         sfinite (np.entry upstream_gradient i j) = true ->
         szero (np.entry down i j) = true) /\
      (np.entry input i j = s0 ->
         sfinite (np.entry upstream_gradient i j) = true ->
         szero (np.entry down i j) = true).
Proof.
  intros Hmul1 Hmul0 Hirr (Hwfin & Hinr & Hinc) (Hwfup & Hupr & Hupc).
  unfold ReLULayer.forward, ReLULayer.backward, np.mul_mask.
  cbn [fst ReLULayer.input].
  destruct (broadcast2_same
              (fun u (b : bool) => smul u (if b then s1 else s0))
              s0 false s0 upstream_gradient (np.gt0 input) Hupr Hupc)
    as (down & Hdown & Hshape & Hget); [exact Hinr | exact Hinc |].
  exists down. rewrite Hdown. split; [reflexivity|]. split; [exact Hshape|].
  intros i j Hi Hj.
  assert (Hentry : np.entry down i j =
                   smul (np.entry upstream_gradient i j)
                        (if sltb s0 (np.entry input i j) then s1 else s0)).
  { unfold np.entry at 1. rewrite Hget by assumption. unfold np.gt0.
    rewrite (get_map_nd (fun x => sltb s0 x) s0 false Hwfin) by lia.
    reflexivity. }
  split; [exact Hentry|]. rewrite Hentry. repeat split.
  - intros ->. apply Hmul1.
  - intros -> Hfin. apply Hmul0, Hfin.
  - intros -> Hfin. rewrite Hirr. apply Hmul0, Hfin.
Qed.
End ReLULayerFacts.

(** ** OutputLayer *)

Section OutputLayerFacts.
Context {T : Type} {ST : Scalar T}.

Lemma normalize_index_in_range (n : nat) (k : Z) :
  (0 <= k < Z.of_nat n)%Z -> np.normalize_index n k = Ok (Z.to_nat k).
Proof.
  intros Hk. unfold np.normalize_index.
  replace ((0 <=? k) && (k <? Z.of_nat n))%Z with true; [reflexivity|].
  symmetry. apply andb_true_iff. split; [apply Z.leb_le | apply Z.ltb_lt]; lia.
Qed.

(** The rows of the identity picked by labels in range. *)
Lemma get_one_hot_spec (labels : list Z) (n : nat) :
  Forall (fun l => (0 <= l < Z.of_nat n)%Z) labels ->
  exists h, OutputLayer.get_one_hot labels n = Ok h /\
    np.has_shape h (length labels) n /\
    forall i j, i < length labels -> j < n ->
      np.entry h i j = if (Z.of_nat j =? nth i labels 0)%Z then s1 else s0.
Proof.
  intros Hlabels. rewrite Forall_forall in Hlabels.
  unfold OutputLayer.get_one_hot, np.take_rows.
  rewrite (mapM_Ok _ (fun k => nth (Z.to_nat k) (np.rows (np.eye n)) [])).
  2:{ intros k Hk. cbn [np.eye np.tabulate np.nrows].
      rewrite normalize_index_in_range by auto. reflexivity. }
  cbn [bind]. eexists; split; [reflexivity|].
  destruct (tabulate_shape n n (fun i j => if i =? j then s1 else s0))
    as (Hwf & _ & _).
  split.
  - unfold np.has_shape, np.wf; cbn [np.rows np.nrows np.ncols].
    rewrite length_map. repeat split.
    apply Forall_forall; intros row Hrow.
    apply in_map_iff in Hrow as [k [<- Hk]].
    apply (wf_row_length Hwf). specialize (Hlabels k Hk).
    cbn [np.eye np.tabulate np.nrows]. lia.
  - intros i j Hi Hj. unfold np.entry, np.get; cbn [np.rows].
    rewrite (nth_map_in _ _ 0%Z) by exact Hi.
    assert (Hl : (0 <= nth i labels 0 < Z.of_nat n)%Z)
      by (apply Hlabels, nth_In; exact Hi).
    change (np.get s0 (np.eye n) (Z.to_nat (nth i labels 0%Z)) j =
            if (Z.of_nat j =? nth i labels 0)%Z then s1 else s0).
    unfold np.eye. rewrite get_tabulate by lia.
    destruct (Nat.eqb_spec (Z.to_nat (nth i labels 0%Z)) j) as [E|E];
      destruct (Z.eqb_spec (Z.of_nat j) (nth i labels 0%Z)) as [E'|E'];
      try reflexivity; lia.
Qed.

(** C2. [OutputLayer.backward] on posteriors of shape
    [batch x n_classes] and [batch] labels, each in [[0, n_classes)]: the
    result has that shape and its entry [(i, j)] is
    [predicted[i,j] - 1] if [j] is the label of row [i] and
    [predicted[i,j] - 0] if not, that is
    [predicted - one_hot(labels)].  When the posteriors are exactly
    [one_hot(labels)] (and [1 - 1 = 0], [0 - 0 = 0]), every entry of the
    result is zero. *)
Theorem OutputLayer_backward_spec (self : OutputLayer.t T)
    (predicted_posteriors : np.ndarray T) (true_labels : list Z) (batch : nat) :
  np.has_shape predicted_posteriors batch (OutputLayer.n_classes self) ->
  length true_labels = batch ->
  Forall (fun l => (0 <= l < Z.of_nat (OutputLayer.n_classes self))%Z)
         true_labels ->
  exists down,
    OutputLayer.backward self predicted_posteriors true_labels = (self, Ok down) /\
    np.has_shape down batch (OutputLayer.n_classes self) /\
    (forall i j, i < batch -> j < OutputLayer.n_classes self ->
       np.entry down i j =
       ssub (np.entry predicted_posteriors i j)
            (if (Z.of_nat j =? nth i true_labels 0)%Z then s1 else s0)) /\
    (ssub s1 s1 = s0 -> ssub s0 s0 = s0 ->
     OutputLayer.get_one_hot true_labels (OutputLayer.n_classes self)
       = Ok predicted_posteriors ->
     forall i j, i < batch -> j < OutputLayer.n_classes self ->
       np.entry down i j = s0).
Proof.
  intros (Hwf & Hr & Hc) Hlen Hlabels.
  destruct (@get_one_hot_spec _ _ Hlabels) as (h & Hh & (Hwfh & Hhr & Hhc) & Hhget).
  rewrite Hlen in Hhr, Hhget.
  destruct (broadcast2_same ssub s0 s0 s0 predicted_posteriors h Hr Hc Hhr Hhc)
    as (down & Hdown & Hshape & Hget).
  assert (Hentry : forall i j, i < batch -> j < OutputLayer.n_classes self ->
            np.entry down i j =
            ssub (np.entry predicted_posteriors i j)
                 (if (Z.of_nat j =? nth i true_labels 0)%Z then s1 else s0)).
  { intros i j Hi Hj. unfold np.entry at 1. rewrite Hget by assumption.
    fold (np.entry h i j). rewrite Hhget by assumption. reflexivity. }
  exists down. split; [|split; [exact Hshape|split; [exact Hentry|]]].
  - unfold OutputLayer.backward. rewrite Hh; cbn [bind].
    unfold np.sub. rewrite Hdown. reflexivity.
  - intros H11 H00 Hone i j Hi Hj. rewrite Hentry by assumption.
    assert (h = predicted_posteriors) as <- by congruence.
    rewrite Hhget by assumption.
    destruct (Z.of_nat j =? nth i true_labels 0)%Z; assumption.
Qed.

(** C10. The outcome of [OutputLayer.backward] depends on its two
    arguments and on [n_classes] only: two layers with the same
    [n_classes] return the same value whatever input each has cached,
    also when one of them has never run [forward]; and the call leaves
    the layer as it was. *)
Theorem OutputLayer_backward_ignores_cache (n_classes : nat)
    (cache1 cache2 : option (np.ndarray T))
    (predicted_posteriors : np.ndarray T) (true_labels : list Z) :
  snd (OutputLayer.backward (OutputLayer.mk n_classes cache1)
         predicted_posteriors true_labels) =
  snd (OutputLayer.backward (OutputLayer.mk n_classes cache2)
         predicted_posteriors true_labels) /\
  snd (OutputLayer.backward (OutputLayer.mk n_classes cache1)
         predicted_posteriors true_labels) =
  snd (OutputLayer.backward (OutputLayer.init n_classes)
         predicted_posteriors true_labels) /\
  fst (OutputLayer.backward (OutputLayer.mk n_classes cache1)
         predicted_posteriors true_labels) =
  OutputLayer.mk n_classes cache1.
Proof. repeat split. Qed.
End OutputLayerFacts.

Lemma big_sum_S {T : Type} {ST : Scalar T} (n : nat) (f : nat -> T) :
  big_sum (S n) f = sadd (big_sum n f) (f n).
Proof.
  unfold big_sum. rewrite seq_S, fold_left_app. reflexivity.
Qed.

Lemma big_sum_ext {T : Type} {ST : Scalar T} (n : nat) (f g : nat -> T) :
  (forall k, k < n -> f k = g k) -> big_sum n f = big_sum n g.
Proof.
  intros Hfg. unfold big_sum. apply fold_left_ext_in; intros acc k Hk.
  apply in_seq in Hk. rewrite Hfg by lia. reflexivity.
Qed.

Section SoftmaxFacts.
Context {T : Type} {ST : Scalar T} {E : Exponential T}.

(** The softmax of [forward], entry by entry, for any scalars. *)
Lemma OutputLayer_forward_entry (self : OutputLayer.t T)
    (input : np.ndarray T) (batch n : nat) :
  np.has_shape input batch n ->
  exists out,
    OutputLayer.forward self input =
      (OutputLayer.mk (OutputLayer.n_classes self) (Some input), Ok out) /\
    np.has_shape out batch n /\
    forall i j, i < batch -> j < n ->
      np.entry out i j =
      sdiv (sexp (np.entry input i j))
           (big_sum n (fun k => sexp (np.entry input i k))).
Proof.
  intros Hshape. pose proof Hshape as (Hwf & Hr & Hc).
  pose proof (map_nd_shape sexp Hshape) as (Hwfe & Her & Hec).
  fold (np.exp input) in Hwfe, Her, Hec.
  unfold OutputLayer.forward, np.divide.
  destruct (broadcast2_spec sdiv s0 s0 s0 (np.exp input)
              (np.sum_axis1_keepdims (np.exp input)) (r := batch) (c := n))
    as (out & Hout & Hoshape & Hget).
  { cbn [np.sum_axis1_keepdims np.nrows]. rewrite Her. apply bdim_same. }
  { cbn [np.sum_axis1_keepdims np.ncols]. rewrite Hec. apply bdim_1_r. }
  exists out. rewrite Hout. split; [reflexivity|]. split; [exact Hoshape|].
  intros i j Hi Hj. unfold np.entry at 1. rewrite Hget by assumption.
  cbn [np.sum_axis1_keepdims np.nrows np.ncols].
  rewrite Her, Hec, !bidx_lt by assumption.
  change (np.bidx 1 j) with 0.
  f_equal.
  - unfold np.exp. rewrite (get_map_nd sexp s0 s0 Hwf) by lia. reflexivity.
  - unfold np.get; cbn [np.sum_axis1_keepdims np.rows].
    destruct Hwfe as [Helen _].
    rewrite (nth_map_in _ _ [] []) by lia. cbn [nth].
    rewrite (fold_left_positions _ s0).
    fold (np.get s0 (np.exp input) i).
    assert (Hrow : length (nth i (np.rows (np.exp input)) []) = n).
    { rewrite <- Hec. apply wf_row_length; [|lia].
      apply (map_nd_shape sexp Hshape). }
    rewrite Hrow. unfold big_sum.
    apply fold_left_ext_in; intros acc k Hk. apply in_seq in Hk.
    f_equal. change (np.get s0 (np.exp input) i k = sexp (np.entry input i k)).
    unfold np.exp. rewrite (get_map_nd sexp s0 s0 Hwf) by lia. reflexivity.
Qed.
End SoftmaxFacts.

(** ** The softmax over the reals *)

Section SoftmaxReal.
Open Scope R_scope.

Lemma big_sum_R_div (n : nat) (f : nat -> R) (c : R) :
  big_sum n (fun k => f k / c) = big_sum n f / c.
Proof.
  induction n as [|n IH].
  - unfold big_sum; simpl. unfold Rdiv. ring.
  - rewrite !big_sum_S, IH. simpl. unfold Rdiv. ring.
Qed.

Lemma big_sum_R_pos (n : nat) (f : nat -> R) :
  (forall k, (k < n)%nat -> 0 < f k) ->
  0 <= big_sum n f /\
  (forall j, (j < n)%nat -> f j <= big_sum n f) /\
  ((0 < n)%nat -> 0 < big_sum n f).
Proof.
  induction n as [|n IH]; intros Hpos.
  - unfold big_sum; simpl. repeat split; try lra; intros; lia.
  - destruct IH as (H0 & Hle & _); [intros; apply Hpos; lia|].
    rewrite big_sum_S; simpl.
    pose proof (Hpos n (Nat.lt_succ_diag_r n)) as Hn.
    repeat split; try lra.
    intros j Hj. destruct (Nat.eq_dec j n) as [->|Hne]; [lra|].
    assert (f j <= big_sum n f) by (apply Hle; lia). lra.
Qed.
End SoftmaxReal.

(** ** The softmax in arithmetic that rounds *)

Section SoftmaxRounded.
Open Scope R_scope.
Variables (u : R) (rnd fexp : R -> R).
Hypothesis u_range : 0 <= u < 1.
Hypothesis rnd_error : forall x, Rabs (rnd x - x) <= u * Rabs x.
Hypothesis rnd_monotone : forall x y, x <= y -> rnd x <= rnd y.
Hypothesis rnd_idempotent : forall x, rnd (rnd x) = rnd x.
Hypothesis rnd_one : rnd 1 = 1.
Hypothesis fexp_positive : forall x, 0 < fexp x.
Hypothesis fexp_representable : forall x, rnd (fexp x) = fexp x.

Lemma pow_unit (x : R) (n : nat) : 0 <= x <= 1 -> 0 <= x ^ n <= 1.
Proof.
  intros Hx. induction n as [|n IH]; cbn [pow]; [lra | nra].
Qed.

Lemma pow_above_one (x : R) (n : nat) : 1 <= x -> 1 <= x ^ n.
Proof.
  intros Hx. induction n as [|n IH]; cbn [pow]; [lra | nra].
Qed.

Local Abbreviation rsum := (@big_sum R (Scalar_rounded rnd)).
Local Abbreviation esum := (@big_sum R Scalar_R).

Lemma rnd_bracket (x : R) :
  0 <= x -> (1 - u) * x <= rnd x <= (1 + u) * x.
Proof.
  intros Hx. pose proof (rnd_error x) as H.
  rewrite (Rabs_pos_eq x Hx) in H. revert H.
  unfold Rabs. destruct (Rcase_abs (rnd x - x)); intros H; lra.
Qed.

Lemma rnd_zero : rnd 0 = 0.
Proof. destruct (rnd_bracket (x := 0)); lra. Qed.

Lemma rsum_S (n : nat) (f : nat -> R) :
  rsum (S n) f = rnd (rsum n f + f n).
Proof. rewrite big_sum_S. reflexivity. Qed.

Lemma esum_S (n : nat) (f : nat -> R) :
  esum (S n) f = esum n f + f n.
Proof. rewrite big_sum_S. reflexivity. Qed.

Lemma rsum_bounds (n : nat) (f : nat -> R) :
  (forall k, (k < n)%nat -> 0 < f k) ->
  (forall k, (k < n)%nat -> rnd (f k) = f k) ->
  rnd (rsum n f) = rsum n f /\
  (1 - u) ^ n * esum n f <= rsum n f <= (1 + u) ^ n * esum n f /\
  0 <= esum n f /\
  (forall j, (j < n)%nat -> f j <= rsum n f).
Proof.
  induction n as [|n IH]; intros Hpos Hrep.
  - unfold big_sum; cbn. rewrite rnd_zero.
    split; [reflexivity|]. split; [lra|]. split; [lra|]. intros; lia.
  - destruct IH as (Hfix & [Hlo Hhi] & Hsum & Hle);
      [intros; apply Hpos; lia | intros; apply Hrep; lia |].
    pose proof (Hpos n (Nat.lt_succ_diag_r n)) as Hn.
    pose proof (Hrep n (Nat.lt_succ_diag_r n)) as Hnrep.
    rewrite rsum_S, esum_S.
    assert (Hlow_n : 0 <= (1 - u) ^ n <= 1) by (apply pow_unit; lra).
    assert (Hup_n : 1 <= (1 + u) ^ n) by (apply pow_above_one; lra).
    assert (Hr0 : 0 <= rsum n f).
    { apply Rle_trans with ((1 - u) ^ n * esum n f); [|exact Hlo].
      apply Rmult_le_pos; lra. }
    destruct (rnd_bracket (x := rsum n f + f n)) as [Hb1 Hb2]; [lra|].
    split; [apply rnd_idempotent|]. split; [split|split].
    + cbn [pow].
      apply Rle_trans with ((1 - u) * (rsum n f + f n)); [|exact Hb1].
      rewrite Rmult_assoc. apply Rmult_le_compat_l; [lra|].
      assert ((1 - u) ^ n * f n <= f n) by nra. nra.
    + cbn [pow].
      apply Rle_trans with ((1 + u) * (rsum n f + f n)); [exact Hb2|].
      rewrite Rmult_assoc. apply Rmult_le_compat_l; [lra|].
      assert (f n <= (1 + u) ^ n * f n) by nra. nra.
    + lra.
    + intros j Hj. destruct (Nat.eq_dec j n) as [->|Hne].
      * rewrite <- Hnrep at 1. apply rnd_monotone. lra.
      * apply Rle_trans with (rsum n f); [apply Hle; lia|].
        rewrite <- Hfix at 1. apply rnd_monotone. lra.
Qed.

Lemma bernoulli (n : nat) : 1 - INR n * u <= (1 - u) ^ n.
Proof.
  induction n as [|n IH]; [cbn; lra|].
  rewrite S_INR. cbn [pow].
  pose proof (pos_INR n) as Hn.
  assert (0 <= (1 - u) ^ n <= 1) by (apply pow_unit; lra).
  nra.
Qed.

Lemma pow_conjugates (n : nat) : (1 + u) ^ n * (1 - u) ^ n <= 1.
Proof.
  rewrite <- Rpow_mult_distr.
  apply (pow_unit (x := (1 + u) * (1 - u))). nra.
Qed.

Lemma esum_le (n : nat) (f h : nat -> R) :
  (forall k, (k < n)%nat -> f k <= h k) -> esum n f <= esum n h.
Proof.
  induction n as [|n IH]; intros Hfh.
  - unfold big_sum; cbn. lra.
  - rewrite !esum_S.
    assert (esum n f <= esum n h) by (apply IH; intros; apply Hfh; lia).
    assert (f n <= h n) by (apply Hfh; lia). lra.
Qed.

Lemma esum_scale (n : nat) (f : nat -> R) (c : R) :
  esum n (fun k => c * f k) = c * esum n f.
Proof.
  induction n as [|n IH].
  - unfold big_sum; cbn. ring.
  - rewrite !esum_S, IH. ring.
Qed.

Variable ue : R.
Hypothesis ue_range : 0 <= ue < 1.
Hypothesis fexp_error : forall x, Rabs (fexp x - exp x) <= ue * exp x.

Lemma fexp_bracket (x : R) :
  (1 - ue) * exp x <= fexp x <= (1 + ue) * exp x.
Proof.
  pose proof (fexp_error x) as H. revert H.
  unfold Rabs. destruct (Rcase_abs (fexp x - exp x)); intros H; lra.
Qed.

End SoftmaxRounded.

(** ** MLP: the stack of layers *)

Section MLPStructure.
Context {T : Type} {ST : Scalar T} {E : Exponential T}.
Context {G : Type} {RS : RandomSource T G}.

Lemma LinearLayer_init_kind (n_in n_out : nat) (g : G) :
  layer_kind (Linear (fst (LinearLayer.init n_in n_out g))) = KLinear n_in n_out.
Proof.
  unfold LinearLayer.init.
  destruct (random_normal2 g n_in n_out) as [B0 g1].
  destruct (random_normal1 g1 n_out) as [b0 g2]. reflexivity.
Qed.

Lemma init_interior_kinds (sizes : list nat) (n_in : nat) (g : G) (k : nat) :
  map layer_kind (fst (fst (MLP.init_interior n_in sizes g)))
    ++ [KLinear (snd (fst (MLP.init_interior n_in sizes g))) k; KOutput k]
  = architecture n_in (sizes ++ [k]) /\
  length (fst (fst (MLP.init_interior n_in sizes g))) = 2 * length sizes.
Proof.
  revert n_in g; induction sizes as [|n_out rest IH]; intros n_in g.
  - split; reflexivity.
  - cbn [MLP.init_interior].
    pose proof (LinearLayer_init_kind n_in n_out g) as Hkind.
    destruct (LinearLayer.init n_in n_out g) as [lin g1].
    specialize (IH n_out g1).
    destruct (MLP.init_interior n_out rest g1) as [[ls n'] g2].
    cbn [fst snd] in *. destruct IH as [IHk IHl]. split.
    + cbn [map app]. rewrite Hkind, IHk.
      cbn [app architecture]. destruct (rest ++ [k]) eqn:Hrest; [|reflexivity].
      destruct rest; discriminate.
    + cbn [length]. rewrite IHl. lia.
Qed.

Lemma Layer_forward_kind (layer : Layer T) (x : np.ndarray T) :
  layer_kind (fst (Layer_forward layer x)) = layer_kind layer.
Proof. destruct layer; reflexivity. Qed.

Lemma LinearLayer_backward_sizes (l : LinearLayer.t T) (up : np.ndarray T) :
  LinearLayer.n_inputs (fst (LinearLayer.backward l up)) = LinearLayer.n_inputs l /\
  LinearLayer.n_outputs (fst (LinearLayer.backward l up)) = LinearLayer.n_outputs l.
Proof.
  destruct l as [n_in n_out W w cache gb gB]. unfold LinearLayer.backward.
  cbn [LinearLayer.set_grad_b LinearLayer.input].
  destruct cache as [cached|]; [|split; reflexivity].
  destruct (np.matmul (np.transpose cached) up); split; reflexivity.
Qed.

Lemma LinearLayer_update_sizes (l : LinearLayer.t T) (lr : T) :
  LinearLayer.n_inputs (fst (LinearLayer.update l lr)) = LinearLayer.n_inputs l /\
  LinearLayer.n_outputs (fst (LinearLayer.update l lr)) = LinearLayer.n_outputs l.
Proof.
  destruct l as [n_in n_out W w cache gb gB]. unfold LinearLayer.update.
  cbn [LinearLayer.grad_B LinearLayer.B].
  destruct gB as [gB|]; [|split; reflexivity].
  destruct (np.sub W (np.scale lr gB)); [|split; reflexivity].
  cbn [LinearLayer.set_B LinearLayer.grad_b LinearLayer.b].
  destruct gb as [gb|]; [|split; reflexivity].
  destruct (np.vsub w (np.vscale lr gb)); split; reflexivity.
Qed.

Lemma Layer_backward_kind (layer : Layer T) (up : np.ndarray T) :
  layer_kind (fst (Layer_backward layer up)) = layer_kind layer.
Proof.
  destruct layer as [l|l|l]; cbn [Layer_backward lift fst layer_kind].
  - destruct (LinearLayer_backward_sizes l up) as [-> ->]. reflexivity.
  - reflexivity.
  - reflexivity.
Qed.

Lemma Layer_backward2_kind (layer : Layer T) (p : np.ndarray T) (y : list Z) :
  layer_kind (fst (Layer_backward2 layer p y)) = layer_kind layer.
Proof. destruct layer; reflexivity. Qed.

Lemma Layer_update_kind (layer : Layer T) (lr : T) :
  layer_kind (fst (Layer_update layer lr)) = layer_kind layer.
Proof.
  destruct layer as [l|l|l]; try reflexivity.
  cbn [Layer_update lift fst layer_kind].
  destruct (LinearLayer_update_sizes l lr) as [-> ->]. reflexivity.
Qed.

Lemma forward_layers_kinds (ls : list (Layer T)) (x : np.ndarray T) :
  map layer_kind (fst (MLP.forward_layers ls x)) = map layer_kind ls.
Proof.
  revert x; induction ls as [|layer rest IH]; intros x; [reflexivity|].
  cbn [MLP.forward_layers].
  pose proof (Layer_forward_kind layer x) as Hk.
  destruct (Layer_forward layer x) as [layer' [y|e]]; cbn [fst] in Hk.
  - specialize (IH y). destruct (MLP.forward_layers rest y) as [rest' r].
    cbn [fst map] in *. congruence.
  - cbn [fst map]. congruence.
Qed.

Lemma backward_layers_kinds (ls : list (Layer T)) (up : np.ndarray T) :
  map layer_kind (fst (MLP.backward_layers ls up)) = map layer_kind ls.
Proof.
  revert up; induction ls as [|layer rest IH]; intros up; [reflexivity|].
  cbn [MLP.backward_layers].
  pose proof (Layer_backward_kind layer up) as Hk.
  destruct (Layer_backward layer up) as [layer' [g|e]]; cbn [fst] in Hk.
  - specialize (IH g). destruct (MLP.backward_layers rest g) as [rest' r].
    cbn [fst map] in *. congruence.
  - cbn [fst map]. congruence.
Qed.

Lemma update_layers_kinds (ls : list (Layer T)) (lr : T) :
  map layer_kind (fst (MLP.update_layers ls lr)) = map layer_kind ls.
Proof.
  induction ls as [|layer rest IH]; [reflexivity|].
  cbn [MLP.update_layers].
  pose proof (Layer_update_kind layer lr) as Hk.
  destruct (Layer_update layer lr) as [layer' [u|e]]; cbn [fst] in Hk.
  - destruct (MLP.update_layers rest lr) as [rest' r].
    cbn [fst map] in *. congruence.
  - cbn [fst map]. congruence.
Qed.

Lemma same_stack_of_kinds (net net' : MLP.t T) :
  MLP.n_layers net' = MLP.n_layers net ->
  map layer_kind (MLP.layers net') = map layer_kind (MLP.layers net) ->
  same_stack net net'.
Proof.
  intros Hn Hk. split; [exact Hn|]. split; [|exact Hk].
  rewrite <- (length_map layer_kind (MLP.layers net')), Hk.
  apply length_map.
Qed.

Lemma same_stack_refl (net : MLP.t T) : same_stack net net.
Proof. apply same_stack_of_kinds; reflexivity. Qed.

Lemma same_stack_trans (n1 n2 n3 : MLP.t T) :
  same_stack n1 n2 -> same_stack n2 n3 -> same_stack n1 n3.
Proof.
  intros (H1 & _ & H2) (H3 & _ & H4).
  apply same_stack_of_kinds; congruence.
Qed.

Lemma MLP_forward_stack (net : MLP.t T) (X : np.ndarray T) :
  same_stack net (fst (MLP.forward net X)).
Proof.
  unfold MLP.forward. destruct (np.reshape_rows X) as [X'|e];
    [|apply same_stack_refl].
  pose proof (forward_layers_kinds (MLP.layers net) X') as Hk.
  destruct (MLP.forward_layers (MLP.layers net) X') as [ls r].
  apply same_stack_of_kinds; [reflexivity | exact Hk].
Qed.

Lemma MLP_backward_stack (net : MLP.t T) (p : np.ndarray T) (y : list Z) :
  same_stack net (fst (MLP.backward net p y)).
Proof.
  unfold MLP.backward.
  destruct (rev (MLP.layers net)) as [|last_layer before] eqn:Hrev;
    [apply same_stack_refl|].
  assert (Hl : MLP.layers net = rev (last_layer :: before))
    by (rewrite <- Hrev, rev_involutive; reflexivity).
  pose proof (Layer_backward2_kind last_layer p y) as Hk.
  destruct (Layer_backward2 last_layer p y) as [last' [up|e]]; cbn [fst] in Hk.
  - pose proof (backward_layers_kinds before up) as Hks.
    destruct (MLP.backward_layers before up) as [before' r]. cbn [fst] in *.
    apply same_stack_of_kinds; [reflexivity|]. cbn [MLP.layers].
    rewrite Hl, !map_rev. cbn [map]. congruence.
  - apply same_stack_of_kinds; [reflexivity|]. cbn [fst MLP.layers].
    rewrite Hl, !map_rev. cbn [map]. congruence.
Qed.

Lemma MLP_update_stack (net : MLP.t T) (X : np.ndarray T) (Y : list Z) (lr : T) :
  same_stack net (fst (MLP.update net X Y lr)).
Proof.
  unfold MLP.update.
  pose proof (MLP_forward_stack net X) as H1.
  destruct (MLP.forward net X) as [net1 [posteriors|e]]; cbn [fst] in *;
    [|exact H1].
  destruct (np.argmax_axis1 posteriors) as [classes|e]; [|exact H1].
  pose proof (MLP_backward_stack net1 posteriors Y) as H2.
  destruct (MLP.backward net1 posteriors Y) as [net2 [u|e]]; cbn [fst] in *;
    [|exact (same_stack_trans H1 H2)].
  pose proof (update_layers_kinds (MLP.layers net2) lr) as H3.
  destruct (MLP.update_layers (MLP.layers net2) lr) as [ls r]. cbn [fst] in *.
  apply (same_stack_trans H1), (same_stack_trans H2).
  apply same_stack_of_kinds; [reflexivity | exact H3].
Qed.

Lemma train_batches_stack (batches : list nat) (net : MLP.t T)
    (x : np.ndarray T) (y : list Z) (perm : list nat) (bs : nat) (lr : T) :
  same_stack net (fst (fst (MLP.train_batches net x y perm bs lr batches))).
Proof.
  revert net; induction batches as [|batch rest IH]; intros net;
    [apply same_stack_refl|].
  cbn [MLP.train_batches].
  destruct (np.take_rows x _) as [xb|e]; [|apply same_stack_refl].
  destruct (np.take 0%Z y _) as [yb|e]; [|apply same_stack_refl].
  pose proof (MLP_update_stack net xb yb lr) as H1.
  destruct (MLP.update net xb yb lr) as [net1 [u|e]]; cbn [fst] in *;
    [|exact H1].
  specialize (IH net1).
  destruct (MLP.train_batches net1 x y perm bs lr rest) as [[net2 calls] r].
  cbn [fst] in *. exact (same_stack_trans H1 IH).
Qed.

Lemma train_epochs_stack (epochs : list nat) (net : MLP.t T)
    (x : np.ndarray T) (y : list Z) (N n_batches bs : nat) (lr : T) (g : G) :
  same_stack net
    (fst (fst (fst (MLP.train_epochs net x y N n_batches bs lr g epochs)))).
Proof.
  revert net g; induction epochs as [|i rest IH]; intros net g;
    [apply same_stack_refl|].
  cbn [MLP.train_epochs].
  destruct (random_permutation g N) as [perm g1].
  pose proof (train_batches_stack (seq 0 n_batches) net x y perm bs lr) as H1.
  destruct (MLP.train_batches net x y perm bs lr (seq 0 n_batches))
    as [[net1 calls] [u|e]]; cbn [fst] in *; [|exact H1].
  specialize (IH net1 g1).
  destruct (MLP.train_epochs net1 x y N n_batches bs lr g1 rest)
    as [[[net2 g2] log] r].
  cbn [fst] in *. exact (same_stack_trans H1 IH).
Qed.

(** C6. The network constructed from [n_features] and [layer_sizes]
    (construction raises exactly when [layer_sizes] is empty, on
    [layer_sizes[-1]]) holds [2 * len(layer_sizes)] layers, and they are,
    in order: for each width but the last a linear layer, which takes the
    width before it (first [n_features]), and a ReLU layer; for the last
    width a linear layer and the output layer.  And for any network,
    [forward], [backward], [update] and [train] leave the stack as it is,
    whatever their arguments and whether or not they raise: the same
    number of layers, and at each position a layer of the same class and
    sizes. *)
Theorem MLP_stack_fixed (n_features : nat) (layer_sizes : list nat) (g : G) :
  match MLP.init n_features layer_sizes g with
  | Ok (net, _) =>
      length (MLP.layers net) = 2 * length layer_sizes /\
      MLP.n_layers net = length layer_sizes /\
      map layer_kind (MLP.layers net) = architecture n_features layer_sizes
  | Raise e => layer_sizes = [] /\ e = IndexError
  end /\
  forall net : MLP.t T,
    (forall X, same_stack net (fst (MLP.forward net X))) /\
    (forall p y, same_stack net (fst (MLP.backward net p y))) /\
    (forall X Y lr, same_stack net (fst (MLP.update net X Y lr))) /\
    (forall x y n_epochs batch_size lr g',
       same_stack net
         (fst (fst (fst (MLP.train net x y n_epochs batch_size lr g'))))).
Proof.
  split.
  - unfold MLP.init.
    destruct (init_interior_kinds (removelast layer_sizes) n_features g
                (last layer_sizes 0)) as [Hk Hl].
    destruct (MLP.init_interior n_features (removelast layer_sizes) g)
      as [[ls n_in] g1]. cbn [fst snd] in Hk, Hl.
    destruct layer_sizes as [|n0 rest] eqn:Hsizes; [split; reflexivity|].
    rewrite <- Hsizes in *.
    assert (Hne : layer_sizes <> []) by (rewrite Hsizes; discriminate).
    pose proof (LinearLayer_init_kind n_in (last layer_sizes 0) g1) as Hlin.
    destruct (LinearLayer.init n_in (last layer_sizes 0) g1) as [lin g2].
    cbn [fst] in Hlin. cbn [MLP.layers MLP.n_layers].
    rewrite <- (app_removelast_last 0 Hne) in Hk.
    split; [|split; [reflexivity|]].
    + rewrite length_app, Hl. cbn [length].
      rewrite (app_removelast_last 0 Hne) at 2.
      rewrite length_app. cbn [length]. lia.
    + rewrite map_app. cbn [map]. rewrite Hlin. exact Hk.
  - intros net. split; [|split; [|split]]; intros.
    + apply MLP_forward_stack.
    + apply MLP_backward_stack.
    + apply MLP_update_stack.
    + unfold MLP.train. destruct (batch_size =? 0);
        [apply same_stack_refl|].
      apply train_epochs_stack.
Qed.
End MLPStructure.

(** ** MLP: a training step on data that fits the network *)

Section LayerSteps.
Context {T : Type} {ST : Scalar T}.

Lemma LinearLayer_forward_ok (l : LinearLayer.t T) (x : np.ndarray T) (r : nat) :
  LinearLayer_wf l -> np.has_shape x r (LinearLayer.n_inputs l) ->
  exists out,
    LinearLayer.forward l x = (LinearLayer.set_input l x, Ok out) /\
    np.has_shape out r (LinearLayer.n_outputs l).
Proof.
  intros [HB Hb] Hx. unfold LinearLayer.forward.
  destruct (matmul_spec Hx HB) as (p & Hp & Hpshape & _).
  destruct (@add_row_spec _ _ p _ _ _ Hpshape Hb) as (out & Hout & Hshape & _).
  exists out. cbn [LinearLayer.set_input LinearLayer.B LinearLayer.b].
  rewrite Hp; cbn [bind]. rewrite Hout. split; [reflexivity | exact Hshape].
Qed.

Lemma LinearLayer_backward_ok (l : LinearLayer.t T) (x up : np.ndarray T)
    (r : nat) :
  LinearLayer_wf l -> LinearLayer.input l = Some x ->
  np.has_shape x r (LinearLayer.n_inputs l) ->
  np.has_shape up r (LinearLayer.n_outputs l) ->
  exists gb gB down,
    LinearLayer.backward l up =
      (LinearLayer.set_grad_B (LinearLayer.set_grad_b l gb) gB, Ok down) /\
    length gb = LinearLayer.n_outputs l /\
    np.has_shape gB (LinearLayer.n_inputs l) (LinearLayer.n_outputs l) /\
    np.has_shape down r (LinearLayer.n_inputs l).
Proof.
  intros [HB Hb] Hcache Hx Hup.
  pose proof Hx as (Hwfx & Hxr & Hxc). pose proof Hup as (Hwfup & Hupr & Hupc).
  pose proof HB as (HwfB & HBr & HBc).
  pose proof (transpose_shape Hwfx) as HxT.
  pose proof (transpose_shape HwfB) as HBT.
  rewrite Hxr, Hxc in HxT. rewrite HBr, HBc in HBT.
  destruct (matmul_spec HxT Hup) as (gB & HgB & HgBshape & _).
  destruct (matmul_spec Hup HBT) as (down & Hdown & Hdshape & _).
  destruct (sum_axis0_spec Hwfup) as [Hslen _].
  exists (np.vdiv_nat (np.sum_axis0 up) (np.nrows up)), gB, down.
  split; [|split; [|split; assumption]].
  - unfold LinearLayer.backward.
    cbn [LinearLayer.set_grad_b LinearLayer.input]. rewrite Hcache, HgB.
    cbn [LinearLayer.set_grad_B LinearLayer.set_grad_b LinearLayer.B].
    rewrite Hdown. reflexivity.
  - unfold np.vdiv_nat. rewrite length_map, Hslen. exact Hupc.
Qed.

Lemma LinearLayer_update_ok (l : LinearLayer.t T) (lr : T)
    (gB : np.ndarray T) (gb : list T) :
  LinearLayer_wf l ->
  LinearLayer.grad_B l = Some gB ->
  np.has_shape gB (LinearLayer.n_inputs l) (LinearLayer.n_outputs l) ->
  LinearLayer.grad_b l = Some gb ->
  length gb = LinearLayer.n_outputs l ->
  exists l',
    LinearLayer.update l lr = (l', Ok tt) /\ LinearLayer_wf l' /\
    LinearLayer.n_inputs l' = LinearLayer.n_inputs l /\
    LinearLayer.n_outputs l' = LinearLayer.n_outputs l.
Proof.
  intros [HB Hb] HgB HgBshape Hgb Hgblen.
  destruct HB as (HwfB & HBr & HBc).
  destruct HgBshape as (HwfgB & HgBr & HgBc).
  destruct (broadcast2_same ssub s0 s0 s0 (LinearLayer.B l)
              (np.scale lr gB) HBr HBc)
    as (B' & HB' & HB'shape & _); [exact HgBr | exact HgBc |].
  destruct (@broadcast1_same _ _ ssub (LinearLayer.b l) (np.vscale lr gb) _ Hb)
    as (b' & Hb' & Hb'len & _).
  { unfold np.vscale. rewrite length_map. exact Hgblen. }
  exists (LinearLayer.set_b (LinearLayer.set_B l B') b').
  split; [|split; [split; assumption | split; reflexivity]].
  unfold LinearLayer.update. rewrite HgB. unfold np.sub. rewrite HB'.
  cbn [LinearLayer.set_B LinearLayer.grad_b LinearLayer.b].
  rewrite Hgb. unfold np.vsub. rewrite Hb'. reflexivity.
Qed.

Lemma ReLULayer_backward_ok (l : ReLULayer.t T) (x up : np.ndarray T) (r d : nat) :
  ReLULayer.input l = Some x -> np.has_shape x r d -> np.has_shape up r d ->
  exists down,
    ReLULayer.backward l up = (l, Ok down) /\ np.has_shape down r d.
Proof.
  intros Hcache (Hwfx & Hxr & Hxc) (Hwfup & Hupr & Hupc).
  unfold ReLULayer.backward, np.mul_mask. rewrite Hcache.
  destruct (broadcast2_same
              (fun u (b : bool) => smul u (if b then s1 else s0))
              s0 false s0 up (np.gt0 x) Hupr Hupc)
    as (down & Hdown & Hshape & _); [exact Hxr | exact Hxc |].
  exists down. rewrite Hdown. split; [reflexivity | exact Hshape].
Qed.

Lemma OutputLayer_backward_ok (o : OutputLayer.t T) (p : np.ndarray T)
    (y : list Z) (r : nat) :
  np.has_shape p r (OutputLayer.n_classes o) -> length y = r ->
  labels_in_range (OutputLayer.n_classes o) y ->
  exists down,
    OutputLayer.backward o p y = (o, Ok down) /\
    np.has_shape down r (OutputLayer.n_classes o).
Proof.
  intros (Hwf & Hr & Hc) Hlen Hlabels.
  destruct (@get_one_hot_spec _ _ _ _ Hlabels) as (h & Hh & (Hwfh & Hhr & Hhc) & _).
  rewrite Hlen in Hhr.
  destruct (broadcast2_same ssub s0 s0 s0 p h Hr Hc Hhr Hhc)
    as (down & Hdown & Hshape & _).
  exists down. unfold OutputLayer.backward. rewrite Hh; cbn [bind].
  unfold np.sub. rewrite Hdown. split; [reflexivity | exact Hshape].
Qed.
End LayerSteps.

Section TrainingStep.
Context {T : Type} {ST : Scalar T} {E : Exponential T}.

Lemma forward_layers_app (xs ys : list (Layer T)) (x : np.ndarray T) :
  MLP.forward_layers (xs ++ ys) x =
  let (xs', r) := MLP.forward_layers xs x in
  match r with
  | Ok y => let (ys', r') := MLP.forward_layers ys y in (xs' ++ ys', r')
  | Raise e => (xs' ++ ys, Raise e)
  end.
Proof.
  revert x; induction xs as [|layer rest IH]; intros x.
  - cbn. destruct (MLP.forward_layers ys x); reflexivity.
  - cbn [app MLP.forward_layers].
    destruct (Layer_forward layer x) as [layer' [y|e]]; [|reflexivity].
    rewrite IH. destruct (MLP.forward_layers rest y) as [rest' [z|e]].
    + destruct (MLP.forward_layers ys z); reflexivity.
    + reflexivity.
Qed.

Lemma backward_layers_app (xs ys : list (Layer T)) (up : np.ndarray T) :
  MLP.backward_layers (xs ++ ys) up =
  let (xs', r) := MLP.backward_layers xs up in
  match r with
  | Ok g => let (ys', r') := MLP.backward_layers ys g in (xs' ++ ys', r')
  | Raise e => (xs' ++ ys, Raise e)
  end.
Proof.
  revert up; induction xs as [|layer rest IH]; intros up.
  - cbn. destruct (MLP.backward_layers ys up); reflexivity.
  - cbn [app MLP.backward_layers].
    destruct (Layer_backward layer up) as [layer' [g|e]]; [|reflexivity].
    rewrite IH. destruct (MLP.backward_layers rest g) as [rest' [z|e]].
    + destruct (MLP.backward_layers ys z); reflexivity.
    + reflexivity.
Qed.

Lemma update_layers_app (xs ys : list (Layer T)) (lr : T) :
  MLP.update_layers (xs ++ ys) lr =
  let (xs', r) := MLP.update_layers xs lr in
  match r with
  | Ok _ => let (ys', r') := MLP.update_layers ys lr in (xs' ++ ys', r')
  | Raise e => (xs' ++ ys, Raise e)
  end.
Proof.
  induction xs as [|layer rest IH].
  - cbn. destruct (MLP.update_layers ys lr); reflexivity.
  - cbn [app MLP.update_layers].
    destruct (Layer_update layer lr) as [layer' [u|e]]; [|reflexivity].
    rewrite IH. destruct (MLP.update_layers rest lr) as [rest' [z|e]].
    + destruct (MLP.update_layers ys lr); reflexivity.
    + reflexivity.
Qed.

(** The forward pass through hidden layers that fit: every layer caches
    its input, and the result has the width of the last layer. *)
Lemma forward_layers_ok (ls : list (Layer T)) (d_in d_out r : nat)
    (x : np.ndarray T) :
  chain layer_any d_in ls d_out -> np.has_shape x r d_in ->
  exists ls' y,
    MLP.forward_layers ls x = (ls', Ok y) /\ np.has_shape y r d_out /\
    chain (layer_primed r) d_in ls' d_out.
Proof.
  intros Hchain; revert x.
  induction Hchain as [d|layer rest d_in d_mid d_out Hty _ Hrest IH]; intros x Hx.
  - exists [], x. split; [reflexivity|]. split; [exact Hx | constructor].
  - destruct layer as [l|l|l]; cbn [layer_ty] in Hty; [| |contradiction].
    + destruct Hty as (Hwf & Hin & Hout). subst d_in d_mid.
      destruct (LinearLayer_forward_ok Hwf Hx) as (out & Hfwd & Hshape).
      destruct (IH out Hshape) as (rest' & y & Hrun & Hy & Hchain').
      exists (Linear (LinearLayer.set_input l x) :: rest'), y.
      cbn [MLP.forward_layers Layer_forward lift]. rewrite Hfwd. cbn [fst snd].
      rewrite Hrun. split; [reflexivity|]. split; [exact Hy|].
      apply chain_cons with (d_mid := LinearLayer.n_outputs l); [| |exact Hchain'].
      * cbn. split; [exact Hwf | split; reflexivity].
      * cbn. exists x. split; [reflexivity | exact Hx].
    + subst d_mid.
      assert (Hshape : np.has_shape (np.maximum0 x) r d_in)
        by (apply map_nd_shape; exact Hx).
      destruct (IH _ Hshape) as (rest' & y & Hrun & Hy & Hchain').
      exists (ReLU (ReLULayer.mk (Some x)) :: rest'), y.
      cbn [MLP.forward_layers Layer_forward lift ReLULayer.forward fst snd].
      rewrite Hrun. split; [reflexivity|]. split; [exact Hy|].
      apply chain_cons with (d_mid := d_in); [reflexivity | | exact Hchain'].
      cbn. exists x. split; [reflexivity | exact Hx].
Qed.

(** The backward pass, which visits the hidden layers last to first: every
    linear layer stores gradients of the shape of its parameters. *)
Lemma backward_layers_ok (ls : list (Layer T)) (d_in d_out r : nat)
    (up : np.ndarray T) :
  chain (layer_primed r) d_in ls d_out -> np.has_shape up r d_out ->
  exists ls' g,
    MLP.backward_layers (rev ls) up = (rev ls', Ok g) /\
    np.has_shape g r d_in /\ chain layer_ready d_in ls' d_out.
Proof.
  intros Hchain Hup.
  induction Hchain as [d|layer rest d_in d_mid d_out Hty Hprimed Hrest IH].
  - exists [], up. split; [reflexivity|]. split; [exact Hup | constructor].
  - destruct (IH Hup) as (rest' & g1 & Hrun & Hg1 & Hchain').
    cbn [rev]. rewrite backward_layers_app, Hrun.
    destruct layer as [l|l|l]; cbn [layer_ty layer_primed] in Hty, Hprimed;
      [| |contradiction].
    + destruct Hty as (Hwf & Hin & Hout). subst d_in d_mid.
      destruct Hprimed as (x & Hcache & Hx).
      destruct (LinearLayer_backward_ok Hwf Hcache Hx Hg1)
        as (gb & gB & down & Hbwd & Hgb & HgB & Hdown).
      exists (Linear (LinearLayer.set_grad_B (LinearLayer.set_grad_b l gb) gB)
              :: rest'), down.
      cbn [MLP.backward_layers Layer_backward lift]. rewrite Hbwd. cbn [fst snd rev].
      split; [reflexivity|]. split; [exact Hdown|].
      apply chain_cons with (d_mid := LinearLayer.n_outputs l); [| |exact Hchain'].
      * cbn. split; [exact Hwf | split; reflexivity].
      * cbn. exists gB, gb. split; [reflexivity|]. split; [exact HgB|].
        split; [reflexivity | exact Hgb].
    + subst d_mid. destruct Hprimed as (x & Hcache & Hx).
      destruct (ReLULayer_backward_ok l Hcache Hx Hg1) as (down & Hbwd & Hdown).
      exists (ReLU l :: rest'), down.
      cbn [MLP.backward_layers Layer_backward lift]. rewrite Hbwd. cbn [fst snd rev].
      split; [reflexivity|]. split; [exact Hdown|].
      apply chain_cons with (d_mid := d_in); [reflexivity | exact I | exact Hchain'].
Qed.

(** The update of hidden layers that hold their gradients. *)
Lemma update_layers_ok (ls : list (Layer T)) (d_in d_out : nat) (lr : T) :
  chain layer_ready d_in ls d_out ->
  exists ls',
    MLP.update_layers ls lr = (ls', Ok tt) /\ chain layer_any d_in ls' d_out.
Proof.
  intros Hchain.
  induction Hchain as [d|layer rest d_in d_mid d_out Hty Hready Hrest IH].
  - exists []. split; [reflexivity | constructor].
  - destruct IH as (rest' & Hrun & Hchain').
    destruct layer as [l|l|l]; cbn [layer_ty layer_ready] in Hty, Hready;
      [| |contradiction].
    + destruct Hty as (Hwf & Hin & Hout).
      destruct Hready as (gB & gb & HgB & HgBshape & Hgb & Hgblen).
      destruct (LinearLayer_update_ok lr Hwf HgB HgBshape Hgb Hgblen)
        as (l' & Hupd & Hwf' & Hin' & Hout').
      exists (Linear l' :: rest').
      cbn [MLP.update_layers Layer_update lift]. rewrite Hupd. cbn [fst snd].
      rewrite Hrun. split; [reflexivity|].
      apply chain_cons with (d_mid := d_mid); [| exact I | exact Hchain'].
      cbn. split; [exact Hwf' | split; congruence].
    + exists (ReLU l :: rest').
      cbn [MLP.update_layers Layer_update lift ReLULayer.update fst snd].
      rewrite Hrun. split; [reflexivity|].
      apply chain_cons with (d_mid := d_mid); [exact Hty | exact I | exact Hchain'].
Qed.

(** One call of [MLP.update] on a mini-batch that fits the network runs
    to its end and leaves a network of the same form. *)
Lemma MLP_update_ok (net : MLP.t T) (X : np.ndarray T) (Y : list Z) (lr : T)
    (n_features n_classes r : nat) :
  MLP_wf net n_features n_classes ->
  np.has_shape X r n_features -> 0 < r ->
  length Y = r -> labels_in_range n_classes Y ->
  exists net',
    MLP.update net X Y lr = (net', Ok tt) /\ MLP_wf net' n_features n_classes.
Proof.
  intros (body & o & Hlayers & Hchain & Hn) HX Hr HY Hlabels.
  assert (Hpos : 0 < n_classes).
  { destruct Y as [|l Y']; [simpl in HY; lia|].
    inversion Hlabels as [|? ? Hl _]; subst. lia. }
  (* forward *)
  destruct (forward_layers_ok Hchain HX) as (body1 & y & Hfwd & Hy & Hchain1).
  destruct (OutputLayer_forward_entry o Hy) as (P & Hout & HP & _).
  set (o1 := OutputLayer.mk (OutputLayer.n_classes o) (Some y)) in *.
  assert (Hforward : MLP.forward net X =
            (MLP.mk (MLP.n_layers net) (body1 ++ [Output o1]), Ok P)).
  { unfold MLP.forward, np.reshape_rows.
    destruct HX as (_ & HXr & _).
    destruct (Nat.eqb_spec (np.nrows X) 0) as [H0|_]; [lia|].
    rewrite Hlayers, forward_layers_app, Hfwd.
    cbn [MLP.forward_layers Layer_forward lift]. rewrite Hout. reflexivity. }
  (* backward *)
  assert (HP' : np.has_shape P r (OutputLayer.n_classes o1))
    by (cbn; rewrite Hn; exact HP).
  assert (Hlabels' : labels_in_range (OutputLayer.n_classes o1) Y)
    by (cbn; rewrite Hn; exact Hlabels).
  destruct (OutputLayer_backward_ok o1 HP' HY Hlabels') as (down & Hbwd & Hdown).
  cbn [OutputLayer.n_classes o1] in Hdown. rewrite Hn in Hdown.
  destruct (backward_layers_ok Hchain1 Hdown) as (body2 & g & Hback & _ & Hchain2).
  assert (Hbackward :
            MLP.backward (MLP.mk (MLP.n_layers net) (body1 ++ [Output o1])) P Y =
            (MLP.mk (MLP.n_layers net) (body2 ++ [Output o1]), Ok tt)).
  { unfold MLP.backward. cbn [MLP.layers MLP.n_layers].
    rewrite rev_app_distr. cbn [rev app Layer_backward2 lift].
    rewrite Hbwd. cbn [fst snd]. rewrite Hback.
    cbn [rev bind]. rewrite rev_involutive. reflexivity. }
  (* update *)
  destruct (update_layers_ok lr Hchain2) as (body3 & Hupd & Hchain3).
  exists (MLP.mk (MLP.n_layers net) (body3 ++ [Output o1])).
  split.
  - unfold MLP.update. rewrite Hforward.
    unfold np.argmax_axis1. destruct HP as (_ & _ & HPc).
    destruct (Nat.eqb_spec (np.ncols P) 0) as [H0|_]; [lia|].
    rewrite Hbackward. cbn [MLP.layers MLP.n_layers].
    rewrite update_layers_app, Hupd. reflexivity.
  - exists body3, o1. split; [reflexivity|]. split; [exact Hchain3 | exact Hn].
Qed.
End TrainingStep.

(** ** MLP: the schedule of [train] *)

Section Slices.
Context {A : Type}.

Lemma slice_length (v : list A) (start len : nat) :
  start + len <= length v -> length (np.slice v start (start + len)) = len.
Proof.
  intros Hle. unfold np.slice.
  rewrite length_firstn, length_skipn. lia.
Qed.

Lemma slice_incl (v : list A) (start stop : nat) (a : A) :
  In a (np.slice v start stop) -> In a v.
Proof.
  unfold np.slice. intros Hin.
  rewrite <- (firstn_skipn start v). apply in_or_app. right.
  rewrite <- (firstn_skipn (stop - start) (skipn start v)).
  apply in_or_app. left. exact Hin.
Qed.

Lemma firstn_plus (v : list A) (n m : nat) :
  firstn (n + m) v = firstn n v ++ firstn m (skipn n v).
Proof.
  revert v; induction n as [|n IH]; intros v; [reflexivity|].
  destruct v as [|a v]; cbn; [rewrite firstn_nil; reflexivity|].
  rewrite IH. reflexivity.
Qed.

Lemma NoDup_app_disjoint (l1 l2 : list A) (a : A) :
  NoDup (l1 ++ l2) -> In a l1 -> ~ In a l2.
Proof.
  induction l1 as [|b l1 IH]; intros Hnd Hin1 Hin2; [contradiction|].
  cbn in Hnd. inversion Hnd as [|? ? Hnotin Hnd']; subst.
  destruct Hin1 as [->|Hin1].
  - apply Hnotin, in_or_app. right. exact Hin2.
  - exact (IH Hnd' Hin1 Hin2).
Qed.

Lemma NoDup_firstn_of (v : list A) (n : nat) : NoDup v -> NoDup (firstn n v).
Proof.
  intros Hnd. rewrite <- (firstn_skipn n v) in Hnd.
  apply NoDup_app_remove_r in Hnd. exact Hnd.
Qed.

Lemma NoDup_skipn_of (v : list A) (n : nat) : NoDup v -> NoDup (skipn n v).
Proof.
  intros Hnd. rewrite <- (firstn_skipn n v) in Hnd.
  apply NoDup_app_remove_l in Hnd. exact Hnd.
Qed.

End Slices.

(** The mini-batches of an epoch: their number, their size, what they
    cover, and that no index is in two of them. *)
Lemma schedule_spec_gen (perm : list nat) (bs m : nat) :
  m * bs <= length perm -> NoDup perm ->
  length (schedule perm bs m) = m /\
  Forall (fun idx => length idx = bs /\ NoDup idx) (schedule perm bs m) /\
  (forall k, k < m ->
     nth k (schedule perm bs m) [] = np.slice perm (k * bs) (k * bs + bs)) /\
  concat (schedule perm bs m) = firstn (m * bs) perm /\
  NoDup (concat (schedule perm bs m)).
Proof.
  intros Hle Hnd. unfold schedule.
  split; [rewrite length_map, length_seq; reflexivity|].
  split; [|split].
  - apply Forall_forall; intros idx Hidx.
    apply in_map_iff in Hidx as [k [<- Hk]]. apply in_seq in Hk.
    assert (k * bs + bs <= length perm) by nia.
    split; [apply slice_length; assumption|].
    unfold np.slice. apply NoDup_firstn_of, NoDup_skipn_of, Hnd.
  - intros k Hk.
    apply (nth_map_seq (fun batch => np.slice perm (batch * bs) (batch * bs + bs))).
    exact Hk.
  - assert (Hconcat : concat
              (map (fun batch => np.slice perm (batch * bs) (batch * bs + bs))
                   (seq 0 m)) = firstn (m * bs) perm).
    { clear Hnd. induction m as [|m IH]; [reflexivity|].
      rewrite seq_S, map_app, concat_app, IH by nia. cbn [map concat].
      rewrite app_nil_r. unfold np.slice.
      replace (0 + m) with m by lia.
      replace (m * bs + bs - m * bs) with bs by lia.
      replace (S m * bs) with (m * bs + bs) by lia.
      symmetry. apply firstn_plus. }
    split; [exact Hconcat|].
    rewrite Hconcat. apply NoDup_firstn_of, Hnd.
Qed.

Lemma normalize_index_of_nat (n i : nat) :
  i < n -> np.normalize_index n (Z.of_nat i) = Ok i.
Proof.
  intros Hi. rewrite normalize_index_in_range by lia.
  rewrite Nat2Z.id. reflexivity.
Qed.

(** [x[idx]] for indices in range: the rows picked, in the order of [idx]. *)
Lemma take_rows_ok {A : Type} (x : np.ndarray A) (idx : list nat) :
  np.wf x -> Forall (fun i => i < np.nrows x) idx ->
  exists xb,
    np.take_rows x (map Z.of_nat idx) = Ok xb /\
    np.has_shape xb (length idx) (np.ncols x).
Proof.
  intros Hwf Hidx. rewrite Forall_forall in Hidx.
  unfold np.take_rows.
  rewrite (mapM_Ok _ (fun k => nth (Z.to_nat k) (np.rows x) [])).
  2:{ intros k Hk. apply in_map_iff in Hk as [i [<- Hi]].
      rewrite normalize_index_of_nat, Nat2Z.id by auto. reflexivity. }
  cbn [bind]. eexists; split; [reflexivity|].
  unfold np.has_shape, np.wf; cbn [np.rows np.nrows np.ncols].
  rewrite !length_map. repeat split.
  apply Forall_forall; intros row Hrow.
  apply in_map_iff in Hrow as [k [<- Hk]].
  apply in_map_iff in Hk as [i [<- Hi]]. rewrite Nat2Z.id.
  apply (wf_row_length Hwf). auto.
Qed.

(** [y[idx]] for indices in range. *)
Lemma take_ok (y : list Z) (idx : list nat) (n_classes : nat) :
  Forall (fun i => i < length y) idx -> labels_in_range n_classes y ->
  exists yb,
    np.take 0%Z y (map Z.of_nat idx) = Ok yb /\
    length yb = length idx /\ labels_in_range n_classes yb.
Proof.
  intros Hidx Hy. rewrite Forall_forall in Hidx.
  unfold np.take.
  rewrite (mapM_Ok _ (fun k => nth (Z.to_nat k) y 0%Z)).
  2:{ intros k Hk. apply in_map_iff in Hk as [i [<- Hi]].
      rewrite normalize_index_of_nat, Nat2Z.id by auto. reflexivity. }
  eexists; split; [reflexivity|]. rewrite !length_map. split; [reflexivity|].
  unfold labels_in_range in *. rewrite Forall_forall in Hy.
  apply Forall_forall; intros l Hl.
  apply in_map_iff in Hl as [k [<- Hk]].
  apply in_map_iff in Hk as [i [<- Hi]]. rewrite Nat2Z.id.
  apply Hy, nth_In. auto.
Qed.

Section TrainingLoop.
Context {T : Type} {ST : Scalar T} {E : Exponential T}.
Context {G : Type} {RS : RandomSource T G}.

(** The loop over the mini-batches of an epoch, on data that fits the
    network: one call of [update] for each batch number, in order, on the
    slice of the permutation that belongs to it. *)
Lemma train_batches_ok (batches : list nat) (net : MLP.t T)
    (x : np.ndarray T) (y : list Z) (perm : list nat) (bs : nat) (lr : T)
    (N n_features n_classes : nat) :
  MLP_wf net n_features n_classes ->
  np.has_shape x N n_features -> length y = N ->
  labels_in_range n_classes y ->
  length perm = N -> Forall (fun i => i < N) perm -> 0 < bs ->
  Forall (fun batch => batch * bs + bs <= N) batches ->
  exists net',
    MLP.train_batches net x y perm bs lr batches =
      (net',
       map (fun batch => np.slice perm (batch * bs) (batch * bs + bs)) batches,
       Ok tt) /\
    MLP_wf net' n_features n_classes.
Proof.
  intros Hnet Hx Hy Hlabels Hperm Hrange Hbs Hbatches. revert net Hnet.
  induction Hbatches as [|batch rest Hbatch _ IH]; intros net Hnet.
  - exists net. split; [reflexivity | exact Hnet].
  - cbn [MLP.train_batches map].
    set (idx := np.slice perm (batch * bs) (batch * bs + bs)).
    assert (Hlen : length idx = bs)
      by (apply slice_length; rewrite Hperm; exact Hbatch).
    assert (Hidx : Forall (fun i => i < N) idx).
    { rewrite Forall_forall in Hrange. apply Forall_forall; intros i Hi.
      apply Hrange. exact (slice_incl _ _ _ _ Hi). }
    pose proof Hx as (Hwfx & Hxr & Hxc).
    destruct (@take_rows_ok _ x idx Hwfx) as (xb & Hxb & Hxbshape).
    { rewrite Hxr. exact Hidx. }
    destruct (@take_ok y idx n_classes) as (yb & Hyb & Hyblen & Hyblabels);
      [rewrite Hy; exact Hidx | exact Hlabels |].
    rewrite Hxb, Hyb. rewrite Hlen, Hxc in Hxbshape. rewrite Hlen in Hyblen.
    destruct (MLP_update_ok lr Hnet Hxbshape Hbs Hyblen Hyblabels)
      as (net1 & Hupd & Hnet1).
    rewrite Hupd.
    destruct (IH net1 Hnet1) as (net2 & Hrest & Hnet2).
    rewrite Hrest. exists net2. split; [reflexivity | exact Hnet2].
Qed.

Lemma draw_permutations_length (n_epochs N : nat) (g : G) :
  length (fst (draw_permutations g N n_epochs)) = n_epochs.
Proof.
  revert g; induction n_epochs as [|k IH]; intros g; [reflexivity|].
  cbn [draw_permutations].
  destruct (random_permutation g N) as [p g1]. specialize (IH g1).
  destruct (draw_permutations g1 N k) as [ps g2]. cbn in *. lia.
Qed.

Lemma draw_permutations_perm {RSS : RandomSourceSpec RS}
    (n_epochs N : nat) (g : G) :
  Forall (fun p => Permutation p (seq 0 N)) (fst (draw_permutations g N n_epochs)).
Proof.
  revert g; induction n_epochs as [|k IH]; intros g; [constructor|].
  cbn [draw_permutations].
  pose proof (random_permutation_perm g N) as Hp.
  destruct (random_permutation g N) as [p g1]. specialize (IH g1).
  destruct (draw_permutations g1 N k) as [ps g2]. cbn in *.
  constructor; assumption.
Qed.

(** The loop over the epochs: each epoch draws its permutation from the
    generator and runs the whole schedule on it. *)
Lemma train_epochs_ok {RSS : RandomSourceSpec RS} (epochs : list nat)
    (net : MLP.t T) (x : np.ndarray T) (y : list Z) (bs : nat) (lr : T) (g : G)
    (N n_features n_classes : nat) :
  MLP_wf net n_features n_classes ->
  np.has_shape x N n_features -> length y = N ->
  labels_in_range n_classes y -> 0 < bs ->
  exists net',
    MLP.train_epochs net x y N (N / bs) bs lr g epochs =
      (net', snd (draw_permutations g N (length epochs)),
       map (fun p => (p, schedule p bs (N / bs)))
           (fst (draw_permutations g N (length epochs))),
       Ok tt) /\
    MLP_wf net' n_features n_classes.
Proof.
  intros Hnet Hx Hy Hlabels Hbs. revert net g Hnet.
  induction epochs as [|i rest IH]; intros net g Hnet.
  - exists net. split; [reflexivity | exact Hnet].
  - cbn [MLP.train_epochs length draw_permutations].
    pose proof (random_permutation_perm g N) as Hp.
    destruct (random_permutation g N) as [perm g1]. cbn [fst] in Hp.
    assert (Hlen : length perm = N)
      by (rewrite (Permutation_length Hp); apply length_seq).
    assert (Hrange : Forall (fun i => i < N) perm).
    { apply Forall_forall; intros k Hk.
      apply (Permutation_in _ Hp), in_seq in Hk. lia. }
    assert (Hbatches : Forall (fun batch => batch * bs + bs <= N) (seq 0 (N / bs))).
    { apply Forall_forall; intros k Hk. apply in_seq in Hk.
      pose proof (Nat.Div0.mul_div_le N bs). nia. }
    destruct (train_batches_ok lr Hnet Hx Hy Hlabels Hlen Hrange Hbs Hbatches)
      as (net1 & Hrun & Hnet1).
    rewrite Hrun.
    destruct (IH net1 g1 Hnet1) as (net2 & Hrest & Hnet2).
    rewrite Hrest.
    destruct (draw_permutations g1 N (length rest)) as [ps g2].
    exists net2. split; [reflexivity | exact Hnet2].
Qed.

Lemma LinearLayer_init_wf {RSS : RandomSourceSpec RS} (n_in n_out : nat) (g : G) :
  layer_ty (Linear (fst (LinearLayer.init n_in n_out g))) n_in n_out.
Proof.
  unfold LinearLayer.init.
  pose proof (random_normal2_shape g n_in n_out) as HB.
  destruct (random_normal2 g n_in n_out) as [B0 g1].
  pose proof (random_normal1_length g1 n_out) as Hb.
  destruct (random_normal1 g1 n_out) as [b0 g2].
  cbn in *. repeat split; try apply HB; exact Hb.
Qed.

Lemma init_interior_chain {RSS : RandomSourceSpec RS} (sizes : list nat)
    (n_in : nat) (g : G) (tail : list (Layer T)) (d_out : nat) :
  chain layer_any (snd (fst (MLP.init_interior n_in sizes g))) tail d_out ->
  chain layer_any n_in (fst (fst (MLP.init_interior n_in sizes g)) ++ tail) d_out.
Proof.
  revert n_in g; induction sizes as [|n_out rest IH]; intros n_in g Htail.
  - exact Htail.
  - cbn [MLP.init_interior] in *.
    pose proof (LinearLayer_init_wf n_in n_out g) as Hlin.
    destruct (LinearLayer.init n_in n_out g) as [lin g1]. cbn [fst] in Hlin.
    specialize (IH n_out g1).
    destruct (MLP.init_interior n_out rest g1) as [[ls n'] g2].
    cbn [fst snd app] in *.
    apply chain_cons with (d_mid := n_out); [exact Hlin | exact I |].
    apply chain_cons with (d_mid := n_out); [reflexivity | exact I |].
    apply IH, Htail.
Qed.

(** The networks that the constructor returns are networks on which a
    training step runs. *)
Lemma MLP_init_wf {RSS : RandomSourceSpec RS} (n_features : nat)
    (layer_sizes : list nat) (g g' : G) (net : MLP.t T) :
  MLP.init n_features layer_sizes g = Ok (net, g') ->
  MLP_wf net n_features (last layer_sizes 0).
Proof.
  unfold MLP.init.
  pose proof (fun tail d => @init_interior_chain _ (removelast layer_sizes)
                              n_features g tail d) as Hchain.
  destruct (MLP.init_interior n_features (removelast layer_sizes) g)
    as [[ls n_in] g1]. cbn [fst snd] in Hchain.
  destruct layer_sizes as [|n0 rest] eqn:Hsizes; [discriminate|].
  rewrite <- Hsizes in *.
  pose proof (LinearLayer_init_wf n_in (last layer_sizes 0) g1) as Hlin.
  destruct (LinearLayer.init n_in (last layer_sizes 0) g1) as [lin g2].
  cbn [fst] in Hlin. intros Hinit. injection Hinit as <- _.
  exists (ls ++ [Linear lin]), (OutputLayer.init (last layer_sizes 0)).
  split; [cbn [MLP.layers]; rewrite <- app_assoc; reflexivity|].
  split; [|reflexivity].
  apply Hchain. apply chain_cons with (d_mid := last layer_sizes 0);
    [exact Hlin | exact I | constructor].
Qed.

Lemma update_each_app (net : MLP.t T) (x : np.ndarray T) (y : list Z)
    (lr : T) (calls calls' : list (list nat)) (net1 : MLP.t T) :
  update_each net x y lr calls = (net1, Ok tt) ->
  update_each net x y lr (calls ++ calls') = update_each net1 x y lr calls'.
Proof.
  revert net. induction calls as [|idx rest IH]; intros net Hrun.
  - cbn in Hrun. injection Hrun as ->. reflexivity.
  - cbn [update_each app] in *.
    destruct (np.take_rows x (map Z.of_nat idx)) as [xb|e];
      [|discriminate Hrun].
    destruct (np.take 0%Z y (map Z.of_nat idx)) as [yb|e];
      [|discriminate Hrun].
    destruct (MLP.update net xb yb lr) as [net0 [u|e]];
      [|discriminate Hrun].
    apply IH, Hrun.
Qed.

(** The network that the loop over the mini-batches returns is the one
    that the calls of [update] leave, one call for each index array that
    the loop records, in order. *)
Lemma train_batches_updates (batches : list nat) (net : MLP.t T)
    (x : np.ndarray T) (y : list Z) (perm : list nat) (bs : nat) (lr : T)
    (net' : MLP.t T) (calls : list (list nat)) :
  MLP.train_batches net x y perm bs lr batches = (net', calls, Ok tt) ->
  update_each net x y lr calls = (net', Ok tt).
Proof.
  revert net net' calls.
  induction batches as [|batch rest IH]; intros net net' calls.
  - cbn. intros Hrun. injection Hrun as <- <-. reflexivity.
  - cbn [MLP.train_batches].
    set (idx := np.slice perm (batch * bs) (batch * bs + bs)).
    destruct (np.take_rows x (map Z.of_nat idx)) as [xb|e] eqn:Hxb;
      [|discriminate].
    destruct (np.take 0%Z y (map Z.of_nat idx)) as [yb|e] eqn:Hyb;
      [|discriminate].
    destruct (MLP.update net xb yb lr) as [net1 [u|e]] eqn:Hupd;
      [|discriminate].
    destruct (MLP.train_batches net1 x y perm bs lr rest)
      as [[net2 calls2] r2] eqn:Hrest.
    intros Hrun. injection Hrun as Hnet Hcalls Hr. subst net' calls r2.
    cbn [update_each]. rewrite Hxb, Hyb, Hupd.
    exact (IH _ _ _ Hrest).
Qed.

(** The same for the loop over the epochs: the calls of all epochs, one
    epoch after the other. *)
Lemma train_epochs_updates (epochs : list nat) (net : MLP.t T)
    (x : np.ndarray T) (y : list Z) (N n_batches bs : nat) (lr : T) (g g' : G)
    (net' : MLP.t T) (log : list MLP.epoch_log) :
  MLP.train_epochs net x y N n_batches bs lr g epochs = (net', g', log, Ok tt) ->
  update_each net x y lr (concat (map snd log)) = (net', Ok tt).
Proof.
  revert net g g' net' log.
  induction epochs as [|i rest IH]; intros net g g' net' log.
  - cbn. intros Hrun. injection Hrun as <- _ <-. reflexivity.
  - cbn [MLP.train_epochs].
    destruct (random_permutation g N) as [perm g1].
    destruct (MLP.train_batches net x y perm bs lr (seq 0 n_batches))
      as [[net1 calls] [u|e]] eqn:Hbatches; [|discriminate].
    destruct u. apply train_batches_updates in Hbatches.
    destruct (MLP.train_epochs net1 x y N n_batches bs lr g1 rest)
      as [[[net2 g2] log2] r2] eqn:Hrest.
    intros Hrun. injection Hrun as Hnet Hg Hlog Hr. subst net' g' log r2.
    cbn [map snd concat].
    erewrite update_each_app by exact Hbatches.
    exact (IH _ _ _ _ _ Hrest).
Qed.

(** C7, amended.  [train] on a network and data that fit ([x] holds [N]
    rows of [n_features] entries, [y] holds [N] labels in
    [[0, n_classes)]) with [batch_size >= 1] returns normally, and does in
    each of the [n_epochs] epochs the following.  It draws a fresh
    permutation of [range(N)]: the epochs' permutations are what
    [n_epochs] successive calls of [np.random.permutation(N)] return, and
    [train] draws nothing else from the generator, so that they are
    distributed as NumPy distributes these calls (uniformly, each call
    independent of the ones before).  It calls [update] once for each of
    [N // batch_size] mini-batches, in order, the [k]-th on the rows and
    labels at the indices [permutation[k*batch_size : (k+1)*batch_size]];
    the network that [train] leaves is the one these calls leave, each
    made on the network the call before it left.  Every mini-batch has
    exactly [batch_size] indices, all distinct; together the mini-batches
    are the first [(N // batch_size) * batch_size] entries of the
    permutation, so no index is in two of them, and the last
    [N mod batch_size] entries of the permutation are in none.  For
    [N = 2000] and [batch_size = 200] an epoch has 10 mini-batches (of 200
    distinct indices each, by the above). *)
Theorem MLP_train_schedule {RSS : RandomSourceSpec RS} (net : MLP.t T)
    (x : np.ndarray T) (y : list Z) (n_epochs batch_size : nat)
    (learning_rate : T) (g : G) (N n_features n_classes : nat) :
  MLP_wf net n_features n_classes ->
  np.has_shape x N n_features -> length y = N ->
  labels_in_range n_classes y ->
  0 < batch_size ->
  exists net' g' log,
    MLP.train net x y n_epochs batch_size learning_rate g =
      (net', g', log, Ok tt) /\
    length log = n_epochs /\
    (map fst log, g') = draw_permutations g N n_epochs /\
    update_each net x y learning_rate (concat (map snd log)) = (net', Ok tt) /\
    Forall (fun epoch : MLP.epoch_log =>
      let permutation := fst epoch in
      let calls := snd epoch in
      let n_batches := N / batch_size in
      Permutation permutation (seq 0 N) /\
      length calls = n_batches /\
      (forall k, k < n_batches ->
         nth k calls [] =
         np.slice permutation (k * batch_size) (k * batch_size + batch_size)) /\
      Forall (fun idx => length idx = batch_size /\ NoDup idx) calls /\
      concat calls = firstn (n_batches * batch_size) permutation /\
      NoDup (concat calls) /\
      length (skipn (n_batches * batch_size) permutation) = N mod batch_size /\
      (forall i, In i (skipn (n_batches * batch_size) permutation) ->
         ~ In i (concat calls)) /\
      (N = 2000 -> batch_size = 200 -> length calls = 10)) log.
Proof.
  intros Hnet Hx Hy Hlabels Hbs.
  pose proof Hx as (_ & Hxr & _).
  destruct (@train_epochs_ok _ (seq 0 n_epochs) _ _ _ _ learning_rate g
              _ _ _ Hnet Hx Hy Hlabels Hbs) as (net' & Hrun & _).
  rewrite length_seq in Hrun.
  exists net', (snd (draw_permutations g N n_epochs)),
    (map (fun p => (p, schedule p batch_size (N / batch_size)))
         (fst (draw_permutations g N n_epochs))).
  split; [|split; [|split; [|split]]].
  - unfold MLP.train. rewrite Hxr.
    destruct (Nat.eqb_spec batch_size 0) as [H0|_]; [lia | exact Hrun].
  - rewrite length_map. apply draw_permutations_length.
  - rewrite map_map. cbn [fst]. rewrite map_id.
    destruct (draw_permutations g N n_epochs); reflexivity.
  - eapply train_epochs_updates. exact Hrun.
  - pose proof (draw_permutations_perm n_epochs N g) as Hperms.
    rewrite Forall_forall in Hperms.
    apply Forall_forall; intros [perm calls] Hin.
    apply in_map_iff in Hin as [p [Heq Hp]].
    injection Heq as -> <-. cbn [fst snd].
    specialize (Hperms perm Hp).
    assert (Hlen : length perm = N)
      by (rewrite (Permutation_length Hperms); apply length_seq).
    assert (Hnd : NoDup perm).
    { apply (Permutation_NoDup (Permutation_sym Hperms)), seq_NoDup. }
    assert (Hle : N / batch_size * batch_size <= length perm).
    { rewrite Hlen. pose proof (Nat.Div0.mul_div_le N batch_size). nia. }
    destruct (@schedule_spec_gen perm batch_size _ Hle Hnd)
      as (Hcount & Hsizes & Hnth & Hconcat & Hdisjoint).
    split; [exact Hperms|]. split; [exact Hcount|]. split; [exact Hnth|].
    split; [exact Hsizes|]. split; [exact Hconcat|]. split; [exact Hdisjoint|].
    split; [|split].
    + rewrite length_skipn, Hlen.
      pose proof (Nat.div_mod_eq N batch_size). nia.
    + intros i Hi Hin. rewrite Hconcat in Hin.
      rewrite <- (firstn_skipn (N / batch_size * batch_size) perm) in Hnd.
      exact (NoDup_app_disjoint _ _ _ Hnd Hin Hi).
    + intros -> ->. rewrite Hcount. reflexivity.
Qed.
End TrainingLoop.

(** * The definitions on concrete inputs *)

#[export] Instance RandomSource_counter_spec {T : Type} {ST : Scalar T}
  : RandomSourceSpec (RandomSource_counter (T := T)).
Proof.
  constructor; cbn.
  - intros g r c. apply tabulate_shape.
  - intros g n. apply repeat_length.
  - intros g n. unfold rotate.
    etransitivity; [apply Permutation_app_comm|].
    rewrite firstn_skipn. reflexivity.
Qed.

Ltac shapes :=
  unfold LinearLayer_wf, labels_in_range, np.has_shape, np.wf; cbn;
  repeat split; repeat constructor; try lia.

Example LinearLayer_forward_runs :
  snd (LinearLayer.forward ex.linear ex.input) =
  Ok (np.mk_ndarray 3 2 [[14; 26]; [12; 24]; [7; 16]]%Z).
Proof. reflexivity. Qed.

Example LinearLayer_backward_runs :
  LinearLayer.backward (fst (LinearLayer.forward ex.linear ex.input)) ex.upstream =
  (ex.linear_after_backward,
   Ok (np.mk_ndarray 3 2 [[5; 11]; [11; 25]; [17; 39]]%Z)).
Proof. reflexivity. Qed.

Example LinearLayer_update_runs :
  fst (LinearLayer.update ex.linear_after_backward 2%Z) =
  LinearLayer.mk 2 2 (np.mk_ndarray 2 2 [[-13; -18]; [11; 12]]%Z) [4; 12]%Z
                 (Some ex.input) (Some ex.gw) (Some ex.gW).
Proof. reflexivity. Qed.

Example LinearLayer_backward_unprimed :
  snd (LinearLayer.backward ex.linear ex.upstream) = Raise AttributeError.
Proof. reflexivity. Qed.

Example ReLULayer_runs :
  snd (ReLULayer.backward (fst (ReLULayer.forward ReLULayer.init ex.input))
                          ex.upstream) =
  Ok (np.mk_ndarray 3 2 [[1; 2]; [3; 0]; [0; 0]]%Z).
Proof. reflexivity. Qed.

Example OutputLayer_backward_runs :
  snd (OutputLayer.backward (OutputLayer.init 2) ex.upstream ex.labels) =
  Ok (np.mk_ndarray 3 2 [[0; 2]; [3; 3]; [5; 5]]%Z).
Proof. reflexivity. Qed.

Example ReLULayer_forward_doubles :
  snd (ReLULayer.forward ReLULayer.init exf.mixed) = Ok exf.mixed_relu.
Proof. reflexivity. Qed.

Example argmax_doubles :
  np.argmax_axis1 exf.rows_with_nan = Ok [1; 1].
Proof. reflexivity. Qed.

Example MLP_init_runs :
  match MLP.init (T := Z) 2 [3; 2] 0 with
  | Ok (net, g) => map layer_kind (MLP.layers net) =
                     [KLinear 2 3; KReLU; KLinear 3 2; KOutput 2] /\ g = 4
  | Raise _ => False
  end.
Proof. split; reflexivity. Qed.

Lemma LinearLayer_forward_spec_witness :
  LinearLayer_wf ex.linear /\ np.has_shape ex.input 3 2 /\
  exists out,
    LinearLayer.forward ex.linear ex.input =
      (LinearLayer.set_input ex.linear ex.input, Ok out) /\
    np.has_shape out 3 2 /\
    np.entry out 0 0 = 14%Z.
Proof.
  assert (Hwf : LinearLayer_wf ex.linear) by shapes.
  assert (Hx : np.has_shape ex.input 3 (LinearLayer.n_inputs ex.linear)) by shapes.
  split; [exact Hwf|]. split; [exact Hx|].
  destruct (LinearLayer_forward_spec Hwf Hx) as (out & Hrun & _ & Hshape & Hentry).
  exists out. split; [exact Hrun|]. split; [exact Hshape|].
  rewrite Hentry by (cbn; lia). reflexivity.
Defined.

Lemma LinearLayer_backward_spec_witness :
  np.has_shape ex.W 2 2 /\ np.has_shape ex.input 3 2 /\
  np.has_shape ex.upstream 3 2 /\
  exists gb gB down,
    snd (LinearLayer.backward (fst (LinearLayer.forward ex.linear ex.input))
                              ex.upstream) = Ok down /\
    LinearLayer.grad_b (fst (LinearLayer.backward
                          (fst (LinearLayer.forward ex.linear ex.input))
                          ex.upstream)) = Some gb /\
    LinearLayer.grad_B (fst (LinearLayer.backward
                          (fst (LinearLayer.forward ex.linear ex.input))
                          ex.upstream)) = Some gB /\
    nth 0 gb 0%Z = 3%Z /\ np.entry gB 0 0 = 7%Z /\ np.entry down 0 0 = 5%Z.
Proof.
  assert (Hwf : np.has_shape (LinearLayer.B ex.linear)
                  (LinearLayer.n_inputs ex.linear)
                  (LinearLayer.n_outputs ex.linear)) by shapes.
  assert (Hx : np.has_shape ex.input 3 (LinearLayer.n_inputs ex.linear)) by shapes.
  assert (Hup : np.has_shape ex.upstream 3 (LinearLayer.n_outputs ex.linear))
    by shapes.
  split; [exact Hwf|]. split; [exact Hx|]. split; [exact Hup|].
  destruct (LinearLayer_backward_spec ex.linear Hwf Hx Hup)
    as (gb & gB & down & Hrun & (_ & Hgb) & (_ & HgB) & (_ & Hdown)).
  exists gb, gB, down. rewrite Hrun. cbn [fst snd].
  split; [reflexivity|]. split; [reflexivity|]. split; [reflexivity|].
  rewrite Hgb, HgB, Hdown by (cbn; lia). repeat split.
Defined.

Lemma LinearLayer_update_spec_witness :
  LinearLayer_wf ex.linear_after_backward /\
  LinearLayer.grad_B ex.linear_after_backward = Some ex.gW /\
  np.has_shape ex.gW 2 2 /\
  LinearLayer.grad_b ex.linear_after_backward = Some ex.gw /\
  length ex.gw = 2 /\
  exists self',
    LinearLayer.update ex.linear_after_backward 2%Z = (self', Ok tt) /\
    np.entry (LinearLayer.B self') 0 0 = (-13)%Z /\
    np.entry (LinearLayer.B self') 1 1 = 12%Z /\
    nth 0 (LinearLayer.b self') 0%Z = 4%Z /\
    nth 1 (LinearLayer.b self') 0%Z = 12%Z /\
    LinearLayer.input self' = Some ex.input.
Proof.
  assert (Hwf : LinearLayer_wf ex.linear_after_backward) by shapes.
  assert (HgW : np.has_shape ex.gW
                  (LinearLayer.n_inputs ex.linear_after_backward)
                  (LinearLayer.n_outputs ex.linear_after_backward)) by shapes.
  assert (Hgw : length ex.gw = LinearLayer.n_outputs ex.linear_after_backward)
    by reflexivity.
  split; [exact Hwf|]. split; [reflexivity|]. split; [exact HgW|].
  split; [reflexivity|]. split; [exact Hgw|].
  destruct (LinearLayer_update_spec 2%Z Hwf eq_refl HgW eq_refl Hgw)
    as (self' & Hrun & (_ & HB') & (_ & Hb') & (_ & _ & Hin & _)).
  exists self'. split; [exact Hrun|].
  rewrite !HB', !Hb', Hin by (cbn; lia). repeat split.
Defined.

(** The two laws of the multiplication that C3 rests on, for the doubles. *)
Module fl_facts.
Import PrimFloat SpecFloat FloatOps FloatAxioms.
Local Open Scope float_scope.

Lemma shr_fexp_times_one (m : positive) (e : Z) :
  fexp prec emax (Z.pos (digits2_pos m) + e) = e ->
  shr_fexp prec emax (Z.pos (m * 4503599627370496)) (e + -52) loc_Exact =
  ({| shr_m := Z.pos m; shr_r := false; shr_s := false |}, e).
Proof.
  intros Hcanon. unfold shr_fexp.
  rewrite Pos.mul_comm. cbn [Pos.mul Zdigits2 digits2_pos].
  rewrite !Pos2Z.inj_succ.
  replace (Z.succ _ + (e + -52))%Z with (Z.pos (digits2_pos m) + e)%Z by lia.
  rewrite Hcanon. replace (e - (e + -52))%Z with 52%Z by lia.
  cbn. f_equal. lia.
Qed.

Lemma shr_fexp_canonical (m : positive) (e : Z) :
  fexp prec emax (Z.pos (digits2_pos m) + e) = e ->
  shr_fexp prec emax (Z.pos m) e loc_Exact =
  ({| shr_m := Z.pos m; shr_r := false; shr_s := false |}, e).
Proof.
  intros Hcanon. unfold shr_fexp. cbn [Zdigits2].
  rewrite Hcanon, Z.sub_diag. reflexivity.
Qed.

(** [x * 1.0] is [x], for every double: the product of the mantissa with
    [2^52] is shifted back by 52 bits and nothing is rounded off. *)
Lemma mul_one (x : float) : x * 1 = x.
Proof.
  apply Prim2SF_inj. rewrite mul_spec.
  change (Prim2SF 1) with (S754_finite false 4503599627370496 (-52)).
  pose proof (Prim2SF_valid x) as Hvalid.
  destruct (Prim2SF x) as [s|s| |s m e]; cbn [SF64mul SFmul];
    try reflexivity; try (destruct s; reflexivity).
  cbn [valid_binary] in Hvalid.
  unfold bounded, canonical_mantissa in Hvalid.
  apply andb_true_iff in Hvalid as [Hcanon Hle].
  apply Z.eqb_eq in Hcanon.
  unfold binary_round_aux.
  rewrite (@shr_fexp_times_one _ _ Hcanon).
  cbn [shr_m loc_of_shr_record round_nearest_even].
  rewrite (@shr_fexp_canonical _ _ Hcanon). cbn [shr_m].
  rewrite Hle, xorb_false_r. reflexivity.
Qed.

(** [x * 0.0] is a zero when [x] is finite (and not-a-number when [x] is
    infinite or not-a-number, which the test [x - x == 0] excludes). *)
Lemma mul_zero (x : float) :
  sfinite x = true -> szero (smul x s0) = true.
Proof.
  unfold sfinite, szero.
  cbn [sleb ssub smul s0 Scalar_float]. unfold fl.zero.
  rewrite !leb_spec, sub_spec, mul_spec.
  change (Prim2SF 0) with (S754_zero false).
  destruct (Prim2SF x) as [s|s| |s m e]; try (destruct s; cbn; congruence);
    try (cbn; congruence).
Qed.
End fl_facts.

Lemma ReLULayer_backward_spec_witness :
  (forall x : PrimFloat.float, smul x s1 = x) /\
  (forall x : PrimFloat.float, sfinite x = true -> szero (smul x s0) = true) /\
  sltb (s0 : PrimFloat.float) s0 = false /\
  np.has_shape exf.input 2 2 /\ np.has_shape exf.upstream 2 2 /\
  exists down,
    snd (ReLULayer.backward (fst (ReLULayer.forward ReLULayer.init exf.input))
                            exf.upstream) = Ok down /\
    np.entry down 0 0 = PrimFloat.infinity /\
    szero (np.entry down 0 1) = true /\
    szero (np.entry down 1 0) = true /\
    szero (np.entry down 1 1) = true.
Proof.
  assert (H1 : forall x : PrimFloat.float, smul x s1 = x)
    by exact fl_facts.mul_one.
  assert (H0 : forall x : PrimFloat.float,
            sfinite x = true -> szero (smul x s0) = true)
    by exact fl_facts.mul_zero.
  assert (Hirr : sltb (s0 : PrimFloat.float) s0 = false) by reflexivity.
  assert (Hx : np.has_shape exf.input 2 2) by shapes.
  assert (Hup : np.has_shape exf.upstream 2 2) by shapes.
  split; [exact H1|]. split; [exact H0|]. split; [exact Hirr|].
  split; [exact Hx|]. split; [exact Hup|].
  destruct (ReLULayer_backward_spec ReLULayer.init H1 H0 Hirr Hx Hup)
    as (down & Hrun & _ & Hentry).
  exists down. rewrite Hrun. split; [reflexivity|].
  destruct (Hentry 0 0) as (_ & Hpos & _); [lia | lia |].
  destruct (Hentry 0 1) as (_ & _ & Hneg & _); [lia | lia |].
  destruct (Hentry 1 0) as (_ & _ & _ & Hzero); [lia | lia |].
  destruct (Hentry 1 1) as (_ & _ & Hnan & _); [lia | lia |].
  rewrite Hpos by reflexivity.
  split; [reflexivity|]. split; [apply Hneg; reflexivity|].
  split; [apply Hzero; reflexivity | apply Hnan; reflexivity].
Defined.

(** C3, as stated, fails on the doubles: over an input with no entry above
    0, the infinite and the not-a-number entry of the upstream gradient
    give not-a-number ([inf * 0] and [nan * 0]), which is not 0. *)
Lemma ReLULayer_backward_not_finite :
  np.has_shape exf.nonpositive 1 2 /\ np.has_shape exf.unbounded 1 2 /\
  sleb (np.entry exf.nonpositive 0 0) s0 = true /\
  np.entry exf.nonpositive 0 1 = s0 /\
  exists down,
    snd (ReLULayer.backward
           (fst (ReLULayer.forward ReLULayer.init exf.nonpositive))
           exf.unbounded) = Ok down /\
    np.entry down 0 0 = PrimFloat.nan /\ np.entry down 0 1 = PrimFloat.nan /\
    szero (np.entry down 0 0) = false /\ szero (np.entry down 0 1) = false.
Proof.
  split; [shapes|]. split; [shapes|]. split; [reflexivity|].
  split; [reflexivity|].
  eexists. split; [reflexivity|]. repeat split.
Qed.

Lemma OutputLayer_backward_spec_witness :
  np.has_shape ex.posteriors 3 2 /\ length ex.labels = 3 /\
  Forall (fun l => (0 <= l < 2)%Z) ex.labels /\
  exists down,
    OutputLayer.backward (OutputLayer.init 2) ex.posteriors ex.labels =
      (OutputLayer.init 2, Ok down) /\
    forall i j, i < 3 -> j < 2 -> np.entry down i j = 0%Z.
Proof.
  assert (HP : np.has_shape ex.posteriors 3
                 (OutputLayer.n_classes (OutputLayer.init (T := Z) 2))) by shapes.
  assert (Hlen : length ex.labels = 3) by reflexivity.
  assert (Hlabels : Forall (fun l => (0 <= l < Z.of_nat
                      (OutputLayer.n_classes (OutputLayer.init (T := Z) 2)))%Z)
                    ex.labels) by shapes.
  split; [exact HP|]. split; [exact Hlen|]. split; [exact Hlabels|].
  destruct (OutputLayer_backward_spec (OutputLayer.init 2) HP Hlen Hlabels)
    as (down & Hrun & _ & _ & Hzero).
  exists down. split; [exact Hrun|].
  apply Hzero; reflexivity.
Defined.


(** On the doubles, for scores of moderate size: every row of the result
    sums to 1 within [2^-50]. *)
Example OutputLayer_forward_doubles :
  exists out,
    snd (OutputLayer.forward (OutputLayer.init 3) exf.scores) = Ok out /\
    sltb (exf.off_one (big_sum 3 (fun j => np.entry out 0 j)))
         exf.tolerance = true /\
    sltb (exf.off_one (big_sum 3 (fun j => np.entry out 1 j)))
         exf.tolerance = true.
Proof. eexists. split; [reflexivity|]. split; vm_compute; reflexivity. Qed.


Lemma ex_net_wf : MLP_wf ex.net 2 2.
Proof.
  unfold ex.net.
  eexists [_; _; _], _. split; [reflexivity|]. split; [|reflexivity].
  apply chain_cons with (d_mid := 2); [shapes | exact I |].
  apply chain_cons with (d_mid := 2); [reflexivity | exact I |].
  apply chain_cons with (d_mid := 2); [shapes | exact I |].
  constructor.
Qed.

Lemma MLP_train_schedule_witness :
  MLP_wf ex.net 2 2 /\ np.has_shape ex.x 5 2 /\ length ex.y = 5 /\
  labels_in_range 2 ex.y /\ 0 < 2 /\
  exists net' g' log,
    MLP.train ex.net ex.x ex.y 3 2 (1 / 2)%R 0 = (net', g', log, Ok tt) /\
    map fst log = [[0; 1; 2; 3; 4]; [1; 2; 3; 4; 0]; [2; 3; 4; 0; 1]] /\
    g' = 3 /\
    map snd log = [[[0; 1]; [2; 3]]; [[1; 2]; [3; 4]]; [[2; 3]; [4; 0]]] /\
    update_each ex.net ex.x ex.y (1 / 2)%R
      [[0; 1]; [2; 3]; [1; 2]; [3; 4]; [2; 3]; [4; 0]] = (net', Ok tt).
Proof.
  assert (Hx : np.has_shape ex.x 5 2) by shapes.
  assert (Hy : length ex.y = 5) by reflexivity.
  assert (Hlabels : labels_in_range 2 ex.y) by shapes.
  assert (Hbs : 0 < 2) by lia.
  split; [exact ex_net_wf|]. split; [exact Hx|]. split; [exact Hy|].
  split; [exact Hlabels|]. split; [exact Hbs|].
  destruct (MLP_train_schedule 3 (1 / 2)%R 0 ex_net_wf Hx Hy Hlabels Hbs)
    as (net' & g' & log & Hrun & Hlen & Hperms & Hupdates & Hlog).
  injection Hperms as Hperms Hg.
  assert (Hcalls : map snd log =
            [[[0; 1]; [2; 3]]; [[1; 2]; [3; 4]]; [[2; 3]; [4; 0]]]).
  { destruct log as [|[p1 c1] [|[p2 c2] [|[p3 c3] [|]]]]; try discriminate Hlen.
    cbn [map fst snd] in *. injection Hperms as -> -> ->.
    inversion Hlog as [|? ? H1 Hlog1]; subst.
    inversion Hlog1 as [|? ? H2 Hlog2]; subst.
    inversion Hlog2 as [|? ? H3 _]; subst.
    cbv zeta in H1, H2, H3. cbn [fst snd] in H1, H2, H3.
    destruct H1 as (_ & Hn1 & Hk1 & _).
    destruct H2 as (_ & Hn2 & Hk2 & _).
    destruct H3 as (_ & Hn3 & Hk3 & _).
    change (5 / 2) with 2 in *.
    destruct c1 as [|a1 [|b1 [|]]]; try discriminate Hn1.
    destruct c2 as [|a2 [|b2 [|]]]; try discriminate Hn2.
    destruct c3 as [|a3 [|b3 [|]]]; try discriminate Hn3.
    pose proof (Hk1 0 ltac:(lia)) as E10. pose proof (Hk1 1 ltac:(lia)) as E11.
    pose proof (Hk2 0 ltac:(lia)) as E20. pose proof (Hk2 1 ltac:(lia)) as E21.
    pose proof (Hk3 0 ltac:(lia)) as E30. pose proof (Hk3 1 ltac:(lia)) as E31.
    cbn in E10, E11, E20, E21, E30, E31. subst. reflexivity. }
  exists net', g', log. split; [exact Hrun|]. split; [exact Hperms|].
  split; [exact Hg|]. split; [exact Hcalls|].
  rewrite Hcalls in Hupdates. exact Hupdates.
Defined.

(** C7, as stated, fails in two ways.  For [batch_size = 0], on a network
    and data that fit, [train] raises [ZeroDivisionError] at
    [N // batch_size]: no permutation is drawn and [update] is not called.
    For a dataset of five instances whose rows do not fit the network
    (three features for a network of two), with [batch_size = 2], the first
    call of [update] raises [ValueError] and ends [train]: the second
    mini-batch of the epoch is never taken. *)
Lemma MLP_train_raises :
  (MLP_wf ex.net 2 2 /\ np.has_shape ex.x 5 2 /\ length ex.y = 5 /\
   labels_in_range 2 ex.y /\
   MLP.train ex.net ex.x ex.y 1 0 (1 / 2)%R 0 =
     (ex.net, 0, [], Raise ZeroDivisionError)) /\
  (MLP_wf ex.net 2 2 /\ np.has_shape ex.x_wide 5 3 /\ length ex.y = 5 /\
   labels_in_range 2 ex.y /\ 5 / 2 = 2 /\
   exists net',
     MLP.train ex.net ex.x_wide ex.y 1 2 (1 / 2)%R 0 =
       (net', 1, [([0; 1; 2; 3; 4], [[0; 1]])], Raise ValueError)).
Proof.
  split.
  - split; [exact ex_net_wf|]. split; [shapes|]. split; [reflexivity|].
    split; [shapes | reflexivity].
  - split; [exact ex_net_wf|]. split; [shapes|]. split; [reflexivity|].
    split; [shapes|]. split; [reflexivity|].
    eexists. vm_compute. reflexivity.
Qed.

(** * More of the code *)

(** ** Layers: edge cases and errors *)

Section LayerEdges.
Context {T : Type} {ST : Scalar T}.

Lemma maximum0_idempotent (m : np.ndarray T) :
  np.maximum0 (np.maximum0 m) = np.maximum0 m.
Proof.
  unfold np.maximum0, np.map_nd; cbn [np.rows np.nrows np.ncols].
  f_equal. rewrite map_map. apply map_ext; intros row.
  rewrite map_map. apply map_ext; intros x.
  destruct (sleb x s0) eqn:Hx; [|rewrite Hx; reflexivity].
  destruct (sleb s0 s0); reflexivity.
Qed.

(** X1. [ReLULayer.forward] never raises.  It caches its input and
    returns an array of the shape of the input whose entry is zero where
    the input's is [<= 0] and the input's elsewhere (so that an entry that
    is not a number stays one); applied to its own result it returns that
    result again. *)
Theorem ReLULayer_forward_spec (self : ReLULayer.t T) (input : np.ndarray T)
    (r c : nat) :
  np.has_shape input r c ->
  exists out,
    ReLULayer.forward self input = (ReLULayer.mk (Some input), Ok out) /\
    np.has_shape out r c /\
    (forall i j, i < r -> j < c ->
       np.entry out i j =
       if sleb (np.entry input i j) s0 then s0 else np.entry input i j) /\
    snd (ReLULayer.forward (ReLULayer.mk (Some input)) out) = Ok out.
Proof.
  intros Hshape. pose proof Hshape as (Hwf & Hr & Hc).
  exists (np.maximum0 input). split; [reflexivity|].
  split; [apply map_nd_shape; exact Hshape|]. split.
  - intros i j Hi Hj. unfold np.entry, np.maximum0.
    rewrite (get_map_nd (fun x => if sleb x s0 then s0 else x) s0 s0 Hwf)
      by lia.
    reflexivity.
  - cbn [ReLULayer.forward snd]. rewrite maximum0_idempotent. reflexivity.
Qed.

(** X3. [LinearLayer.forward] on an input whose width is not [n_inputs]
    raises [ValueError], and has stored that input all the same.  A
    [backward] that follows, on an upstream gradient with as many rows,
    then returns normally and stores a [grad_B] of the shape
    [width x n_outputs], which is not the shape of [B]; and [update]
    after it raises [ValueError] unless the width or [n_inputs] is 1. *)
Theorem LinearLayer_forward_wrong_width (self : LinearLayer.t T)
    (input upstream_gradient : np.ndarray T) (learning_rate : T) (r c : nat) :
  LinearLayer_wf self ->
  np.has_shape input r c -> c <> LinearLayer.n_inputs self ->
  np.has_shape upstream_gradient r (LinearLayer.n_outputs self) ->
  LinearLayer.forward self input =
    (LinearLayer.mk (LinearLayer.n_inputs self) (LinearLayer.n_outputs self)
       (LinearLayer.B self) (LinearLayer.b self) (Some input)
       (LinearLayer.grad_b self) (LinearLayer.grad_B self),
     Raise ValueError) /\
  exists gb gB down,
    LinearLayer.backward (fst (LinearLayer.forward self input))
                         upstream_gradient =
      (LinearLayer.mk (LinearLayer.n_inputs self) (LinearLayer.n_outputs self)
         (LinearLayer.B self) (LinearLayer.b self) (Some input)
         (Some gb) (Some gB),
       Ok down) /\
    np.has_shape gB c (LinearLayer.n_outputs self) /\
    np.has_shape down r (LinearLayer.n_inputs self) /\
    (c <> 1 -> LinearLayer.n_inputs self <> 1 ->
     snd (LinearLayer.update
            (fst (LinearLayer.backward (fst (LinearLayer.forward self input))
                                       upstream_gradient))
            learning_rate) = Raise ValueError).
Proof.
  intros [HB Hb] Hin Hc Hup.
  pose proof Hin as (Hwfin & Hinr & Hinc).
  pose proof Hup as (Hwfup & Hupr & Hupc).
  pose proof HB as (HwfB & HBr & HBc).
  assert (Hfwd : LinearLayer.forward self input =
            (LinearLayer.mk (LinearLayer.n_inputs self)
               (LinearLayer.n_outputs self) (LinearLayer.B self)
               (LinearLayer.b self) (Some input) (LinearLayer.grad_b self)
               (LinearLayer.grad_B self), Raise ValueError)).
  { unfold LinearLayer.forward, np.matmul.
    cbn [LinearLayer.set_input LinearLayer.B].
    destruct (Nat.eqb_spec (np.ncols input) (np.nrows (LinearLayer.B self)));
      [lia | reflexivity]. }
  split; [exact Hfwd|]. rewrite Hfwd. cbn [fst].
  pose proof (transpose_shape Hwfin) as HinT.
  pose proof (transpose_shape HwfB) as HBT.
  rewrite Hinr, Hinc in HinT. rewrite HBr, HBc in HBT.
  destruct (matmul_spec HinT Hup) as (gB & HgB & HgBshape & _).
  destruct (matmul_spec Hup HBT) as (down & Hdown & Hdshape & _).
  exists (np.vdiv_nat (np.sum_axis0 upstream_gradient)
                      (np.nrows upstream_gradient)), gB, down.
  match goal with
  | |- ?run = ?res /\ _ => assert (Hbwd : run = res)
  end.
  { unfold LinearLayer.backward.
    cbn [LinearLayer.set_grad_b LinearLayer.input].
    rewrite HgB.
    cbn [LinearLayer.set_grad_B LinearLayer.set_grad_b LinearLayer.B].
    rewrite Hdown. reflexivity. }
  split; [exact Hbwd|]. split; [exact HgBshape|]. split; [exact Hdshape|].
  intros Hc1 Hn1. rewrite Hbwd. cbn [fst].
  assert (Hsub : np.sub (LinearLayer.B self) (np.scale learning_rate gB)
                 = Raise ValueError).
  { unfold np.sub, np.broadcast2.
    cbn [np.scale np.map_nd np.nrows np.ncols].
    destruct HgBshape as (_ & HgBr & _). rewrite HBr, HgBr.
    unfold np.bdim.
    destruct (Nat.eqb_spec (LinearLayer.n_inputs self) c); [lia|].
    destruct (Nat.eqb_spec (LinearLayer.n_inputs self) 1); [lia|].
    destruct (Nat.eqb_spec c 1); [lia|]. reflexivity. }
  unfold LinearLayer.update.
  cbn [LinearLayer.grad_B LinearLayer.B].
  rewrite Hsub. reflexivity.
Qed.

(** X4. [LinearLayer.backward] assigns [grad_b] before it reads the
    cached input.  When the upstream gradient has not as many rows as the
    cached input, the call raises [ValueError] with [grad_b] replaced and
    [grad_B] as it was; when the rows agree and the width is not
    [n_outputs], it raises [ValueError] with both gradients replaced. *)
Theorem LinearLayer_backward_wrong_shape (self : LinearLayer.t T)
    (cached upstream_gradient : np.ndarray T) :
  LinearLayer.input self = Some cached ->
  np.wf cached -> np.wf upstream_gradient ->
  let gb := np.vdiv_nat (np.sum_axis0 upstream_gradient)
                        (np.nrows upstream_gradient) in
  (np.nrows cached <> np.nrows upstream_gradient ->
   LinearLayer.backward self upstream_gradient =
     (LinearLayer.mk (LinearLayer.n_inputs self) (LinearLayer.n_outputs self)
        (LinearLayer.B self) (LinearLayer.b self) (Some cached)
        (Some gb) (LinearLayer.grad_B self),
      Raise ValueError)) /\
  (np.nrows cached = np.nrows upstream_gradient ->
   np.ncols upstream_gradient <> np.ncols (LinearLayer.B self) ->
   exists gB,
     LinearLayer.backward self upstream_gradient =
       (LinearLayer.mk (LinearLayer.n_inputs self) (LinearLayer.n_outputs self)
          (LinearLayer.B self) (LinearLayer.b self) (Some cached)
          (Some gb) (Some gB),
        Raise ValueError) /\
     np.has_shape gB (np.ncols cached) (np.ncols upstream_gradient)).
Proof.
  intros Hcache Hwfc Hwfup gb.
  destruct self as [n_in n_out W w cache gb0 gB0].
  cbn [LinearLayer.input] in Hcache. subst cache.
  cbn [LinearLayer.n_inputs LinearLayer.n_outputs LinearLayer.B LinearLayer.b
       LinearLayer.grad_B].
  split.
  - intros Hrows. unfold LinearLayer.backward.
    cbn [LinearLayer.set_grad_b LinearLayer.input LinearLayer.n_inputs
         LinearLayer.n_outputs LinearLayer.B LinearLayer.b LinearLayer.grad_B].
    unfold np.matmul. cbn [np.transpose np.ncols].
    destruct (Nat.eqb_spec (np.nrows cached) (np.nrows upstream_gradient));
      [lia | reflexivity].
  - intros Hrows Hcols.
    pose proof (transpose_shape Hwfc) as HcT.
    assert (Hup : np.has_shape upstream_gradient (np.nrows cached)
                               (np.ncols upstream_gradient))
      by (unfold np.has_shape; auto).
    destruct (matmul_spec HcT Hup) as (gB & HgB & HgBshape & _).
    exists gB. split; [|exact HgBshape].
    unfold LinearLayer.backward.
    cbn [LinearLayer.set_grad_b LinearLayer.input LinearLayer.n_inputs
         LinearLayer.n_outputs LinearLayer.B LinearLayer.b LinearLayer.grad_B].
    rewrite HgB.
    cbn [LinearLayer.set_grad_B LinearLayer.set_grad_b LinearLayer.B
         LinearLayer.n_inputs LinearLayer.n_outputs LinearLayer.b
         LinearLayer.input LinearLayer.grad_b].
    unfold np.matmul. cbn [np.transpose np.nrows].
    destruct (Nat.eqb_spec (np.ncols upstream_gradient) (np.ncols W));
      [lia | reflexivity].
Qed.
End LayerEdges.

Section LinearLayerFresh.
Context {T : Type} {ST : Scalar T}.
Context {G : Type} {RS : RandomSource T G}.

(** X2. The layer that [LinearLayer(n_inputs, n_outputs)] constructs has
    weights of shape [n_inputs x n_outputs] and [n_outputs] intercepts,
    and neither a cached input nor gradients.  On it [backward] raises
    [AttributeError], after it has stored [grad_b], and [update] raises
    [AttributeError] and leaves the layer as it is. *)
Theorem LinearLayer_init_spec {RSS : RandomSourceSpec RS} (n_in n_out : nat)
    (g : G) (upstream_gradient : np.ndarray T) (learning_rate : T) :
  let self := fst (LinearLayer.init n_in n_out g) in
  (LinearLayer.n_inputs self = n_in /\ LinearLayer.n_outputs self = n_out /\
   np.has_shape (LinearLayer.B self) n_in n_out /\
   length (LinearLayer.b self) = n_out) /\
  layer_fresh (Linear self) /\
  LinearLayer.backward self upstream_gradient =
    (LinearLayer.mk n_in n_out (LinearLayer.B self) (LinearLayer.b self) None
       (Some (np.vdiv_nat (np.sum_axis0 upstream_gradient)
                          (np.nrows upstream_gradient)))
       None,
     Raise AttributeError) /\
  LinearLayer.update self learning_rate = (self, Raise AttributeError).
Proof.
  unfold LinearLayer.init.
  pose proof (random_normal2_shape g n_in n_out) as HB.
  destruct (random_normal2 g n_in n_out) as [B0 g1].
  pose proof (random_normal1_length g1 n_out) as Hb.
  destruct (random_normal1 g1 n_out) as [b0 g2].
  cbv zeta. cbn [fst] in *.
  split; [|split; [|split]].
  - cbn. auto.
  - cbn. auto.
  - reflexivity.
  - reflexivity.
Qed.
End LinearLayerFresh.

Lemma mapM_ext_in {A B : Type} (f g : A -> result B) (xs : list A) :
  (forall x, In x xs -> f x = g x) -> mapM f xs = mapM g xs.
Proof.
  induction xs as [|x xs IH]; intros Hfg; cbn; [reflexivity|].
  rewrite (Hfg x) by (left; reflexivity).
  rewrite IH by (intros; apply Hfg; right; assumption). reflexivity.
Qed.

Lemma mapM_map {A B C : Type} (f : B -> result C) (h : A -> B) (xs : list A) :
  mapM f (map h xs) = mapM (fun x => f (h x)) xs.
Proof.
  induction xs as [|x xs IH]; cbn; [reflexivity|]. rewrite IH. reflexivity.
Qed.

(** When every failure of [f] is the exception [e] and [f] fails on some
    element, [mapM f] raises [e]. *)
Lemma mapM_Raise {A B : Type} (f : A -> result B) (e : exn) (xs : list A) :
  (forall x e', In x xs -> f x = Raise e' -> e' = e) ->
  Exists (fun x => f x = Raise e) xs ->
  mapM f xs = Raise e.
Proof.
  intros Honly Hex. induction Hex as [x xs Hx|x xs Hex IH]; cbn.
  - rewrite Hx. reflexivity.
  - destruct (f x) as [y|e'] eqn:Hfx; cbn.
    + rewrite IH; [reflexivity|].
      intros x' e' Hin. apply Honly. right. exact Hin.
    + f_equal. apply (Honly x); [left; reflexivity | exact Hfx].
Qed.

Lemma normalize_index_spec (n : nat) (k : Z) :
  ((- Z.of_nat n <= k < Z.of_nat n)%Z ->
   np.normalize_index n k = Ok (Z.to_nat (wrap_index n k))) /\
  ((k < - Z.of_nat n \/ Z.of_nat n <= k)%Z ->
   np.normalize_index n k = Raise IndexError).
Proof.
  unfold np.normalize_index, wrap_index.
  destruct (Z.leb_spec 0 k); destruct (Z.ltb_spec k (Z.of_nat n));
    destruct (Z.leb_spec (- Z.of_nat n) k); destruct (Z.ltb_spec k 0);
    cbn; split; intros; try reflexivity; lia.
Qed.

Section OutputLayerLabels.
Context {T : Type} {ST : Scalar T}.

(** X5. The labels of [OutputLayer.backward] index the rows of
    [np.eye(n_classes)].  A label in [[-n_classes, 0)] counts from the
    end: the call returns what it returns for the label plus
    [n_classes].  A label below [-n_classes] or from [n_classes] on makes
    the call raise [IndexError], whatever the posteriors are. *)
Theorem OutputLayer_backward_labels (self : OutputLayer.t T)
    (predicted_posteriors : np.ndarray T) (true_labels : list Z) :
  let n := OutputLayer.n_classes self in
  (Forall (fun l => (- Z.of_nat n <= l < Z.of_nat n)%Z) true_labels ->
   Forall (fun l => (0 <= l < Z.of_nat n)%Z) (map (wrap_index n) true_labels) /\
   OutputLayer.backward self predicted_posteriors true_labels =
   OutputLayer.backward self predicted_posteriors
                        (map (wrap_index n) true_labels)) /\
  (Exists (fun l => (l < - Z.of_nat n \/ Z.of_nat n <= l)%Z) true_labels ->
   OutputLayer.backward self predicted_posteriors true_labels =
     (self, Raise IndexError)).
Proof.
  intros n. split.
  - intros Hrange. rewrite Forall_forall in Hrange. split.
    + apply Forall_forall; intros l Hl.
      apply in_map_iff in Hl as [k [<- Hk]]. specialize (Hrange k Hk).
      unfold wrap_index. destruct (Z.ltb_spec k 0); lia.
    + unfold OutputLayer.backward, OutputLayer.get_one_hot, np.take_rows.
      fold n. rewrite mapM_map, length_map.
      rewrite (mapM_ext_in
                 (fun x => let* i := np.normalize_index (np.nrows (np.eye n))
                                       (wrap_index n x) in
                           Ok (nth i (np.rows (np.eye n)) []))
                 (fun k => let* i := np.normalize_index (np.nrows (np.eye n)) k in
                           Ok (nth i (np.rows (np.eye n)) []))); [reflexivity|].
      intros k Hk. specialize (Hrange k Hk).
      cbn [np.eye np.tabulate np.nrows].
      destruct (normalize_index_spec n k) as [Hk1 _].
      destruct (normalize_index_spec n (wrap_index n k)) as [Hk2 _].
      rewrite Hk1 by exact Hrange.
      rewrite Hk2 by (unfold wrap_index; destruct (Z.ltb_spec k 0); lia).
      do 3 f_equal. unfold wrap_index.
      destruct (Z.ltb_spec k 0) as [Hneg|Hpos];
        [destruct (Z.ltb_spec (Z.of_nat n + k) 0) | destruct (Z.ltb_spec k 0)];
        try reflexivity; lia.
  - intros Hbad. unfold OutputLayer.backward, OutputLayer.get_one_hot, np.take_rows.
    fold n. rewrite mapM_Raise with (e := IndexError); [reflexivity| |].
    + intros k e' _. cbn [np.eye np.tabulate np.nrows].
      destruct (np.normalize_index n k) as [i|e0] eqn:Hk; cbn; [discriminate|].
      intros Heq. injection Heq as <-.
      unfold np.normalize_index in Hk.
      destruct ((0 <=? k) && (k <? Z.of_nat n))%Z; [discriminate|].
      destruct ((- Z.of_nat n <=? k) && (k <? 0))%Z; [discriminate|].
      injection Hk as <-. reflexivity.
    + eapply Exists_impl; [|exact Hbad]. intros k Hk. cbn beta in Hk.
      cbn [np.eye np.tabulate np.nrows].
      destruct (normalize_index_spec n k) as [_ Hraise].
      rewrite Hraise by exact Hk. reflexivity.
Qed.
End OutputLayerLabels.

(** Two well-formed arrays of one shape with the same entries are the same
    array. *)
Lemma ndarray_ext {A : Type} (d : A) (m1 m2 : np.ndarray A) (r c : nat) :
  np.has_shape m1 r c -> np.has_shape m2 r c ->
  (forall i j, i < r -> j < c -> np.get d m1 i j = np.get d m2 i j) ->
  m1 = m2.
Proof.
  intros (Hwf1 & Hr1 & Hc1) (Hwf2 & Hr2 & Hc2) Hget.
  pose proof (fun i => @wf_row_length _ m1 i Hwf1) as L1.
  pose proof (fun i => @wf_row_length _ m2 i Hwf2) as L2.
  destruct Hwf1 as [Hl1 _], Hwf2 as [Hl2 _].
  destruct m1 as [r1 c1 rs1], m2 as [r2 c2 rs2]; simpl in *.
  assert (Hrows : rs1 = rs2).
  { apply (nth_ext _ _ [] []); [lia|].
    intros i Hi.
    apply (nth_ext _ _ d d).
    - rewrite L1, L2; lia.
    - intros j Hj. rewrite L1 in Hj by lia. apply (Hget i j); lia. }
  congruence.
Qed.

Section OutputLayerEntries.
Context {T : Type} {ST : Scalar T}.

(** [OutputLayer.backward], entry by entry. *)
Lemma OutputLayer_backward_entry (o : OutputLayer.t T) (p : np.ndarray T)
    (y : list Z) (r : nat) :
  np.has_shape p r (OutputLayer.n_classes o) -> length y = r ->
  labels_in_range (OutputLayer.n_classes o) y ->
  exists down,
    OutputLayer.backward o p y = (o, Ok down) /\
    np.has_shape down r (OutputLayer.n_classes o) /\
    forall i j, i < r -> j < OutputLayer.n_classes o ->
      np.entry down i j =
      ssub (np.entry p i j)
           (if (Z.of_nat j =? nth i y 0)%Z then s1 else s0).
Proof.
  intros (Hwf & Hr & Hc) Hlen Hlabels.
  destruct (@get_one_hot_spec _ _ _ _ Hlabels)
    as (h & Hh & (Hwfh & Hhr & Hhc) & Hhget).
  rewrite Hlen in Hhr, Hhget.
  destruct (broadcast2_same ssub s0 s0 s0 p h Hr Hc Hhr Hhc)
    as (down & Hdown & Hshape & Hget).
  exists down. split; [|split; [exact Hshape|]].
  - unfold OutputLayer.backward. rewrite Hh; cbn [bind].
    unfold np.sub. rewrite Hdown. reflexivity.
  - intros i j Hi Hj. unfold np.entry at 1. rewrite Hget by assumption.
    fold (np.entry h i j). rewrite Hhget by assumption. reflexivity.
Qed.
End OutputLayerEntries.

(** ** The softmax and its gradient over the reals *)

Section SoftmaxMore.
Open Scope R_scope.

Lemma big_sum_R_mul (n : nat) (f : nat -> R) (c : R) :
  big_sum n (fun k => f k * c) = big_sum n f * c.
Proof.
  induction n as [|n IH].
  - unfold big_sum; simpl. ring.
  - rewrite !big_sum_S, IH. simpl. ring.
Qed.

Lemma big_sum_R_minus (n : nat) (f g : nat -> R) :
  big_sum n (fun k => f k - g k) = big_sum n f - big_sum n g.
Proof.
  induction n as [|n IH].
  - unfold big_sum; simpl. ring.
  - rewrite !big_sum_S, IH. simpl. ring.
Qed.

Lemma big_sum_R_indicator (n l : nat) :
  (l < n)%nat ->
  big_sum n (fun j => if (j =? l)%nat then 1 else 0) = 1.
Proof.
  induction n as [|n IH]; intros Hl; [lia|].
  rewrite big_sum_S. simpl.
  destruct (Nat.eqb_spec n l) as [->|Hne].
  - rewrite (big_sum_ext _ (fun _ => 0 * 0)).
    + rewrite big_sum_R_mul. ring.
    + intros k Hk. destruct (Nat.eqb_spec k l); [lia | ring].
  - rewrite IH by lia. ring.
Qed.

(** The facts about normalised exponentials that the softmax rests on. *)
Lemma softmax_R_facts (n : nat) (f : nat -> R) :
  (0 < n)%nat ->
  let total := big_sum n (fun k => exp (f k)) in
  0 < total /\
  big_sum n (fun j => exp (f j) / total) = 1 /\
  forall j, (j < n)%nat -> 0 < exp (f j) / total <= 1.
Proof.
  intros Hn total.
  destruct (@big_sum_R_pos n (fun k => exp (f k)))
    as (_ & Hle & Hpos); [intros; apply exp_pos|].
  specialize (Hpos Hn). fold total in Hle, Hpos.
  split; [exact Hpos|]. split.
  - rewrite big_sum_R_div. fold total. unfold Rdiv. apply Rinv_r. lra.
  - intros j Hj. pose proof (exp_pos (f j)) as He.
    specialize (Hle j Hj). cbv beta in Hle. split.
    + apply Rdiv_lt_0_compat; assumption.
    + apply (Rmult_le_reg_r total); [exact Hpos|].
      unfold Rdiv. rewrite Rmult_assoc, Rinv_l, Rmult_1_r, Rmult_1_l by lra.
      exact Hle.
Qed.

(** X6. The softmax of [OutputLayer.forward] does not change when a
    number is added to all entries of a row (a different number for each
    row, as in the usual subtraction of the row maximum): over the reals
    the two calls return the same array. *)
Theorem OutputLayer_forward_shift (self : OutputLayer.t R)
    (input shifted : np.ndarray R) (shift : nat -> R) (r n : nat) :
  np.has_shape input r n -> np.has_shape shifted r n ->
  (forall i j, (i < r)%nat -> (j < n)%nat ->
     np.entry shifted i j = np.entry input i j + shift i) ->
  snd (OutputLayer.forward self shifted) = snd (OutputLayer.forward self input).
Proof.
  intros Hin Hsh Hentries.
  destruct (OutputLayer_forward_entry self Hin) as (out & Hout & Hoshape & Hoentry).
  destruct (OutputLayer_forward_entry self Hsh) as (out' & Hout' & Hoshape' & Hoentry').
  rewrite Hout, Hout'. cbn [snd]. f_equal.
  apply (ndarray_ext 0 Hoshape' Hoshape).
  intros i j Hi Hj. change (np.entry out' i j = np.entry out i j).
  rewrite (Hoentry i j Hi Hj), (Hoentry' i j Hi Hj).
  change (@sdiv R Scalar_R) with Rdiv. change (@sexp R Exponential_R) with exp.
  rewrite (big_sum_ext _ (fun k => exp (np.entry input i k) * exp (shift i))).
  2:{ intros k Hk. rewrite (Hentries i k Hi Hk). apply exp_plus. }
  rewrite big_sum_R_mul, (Hentries i j Hi Hj), exp_plus.
  assert (Hn : (0 < n)%nat) by lia.
  destruct (softmax_R_facts (fun k => np.entry input i k) Hn) as (Hpos & _).
  cbv zeta in Hpos. pose proof (exp_pos (shift i)).
  field. split; lra.
Qed.

(** X7. [OutputLayer.backward] on the posteriors that
    [OutputLayer.forward] returns, for labels in [[0, n_classes)] and at
    least one class: over the reals every row of the gradient sums to
    zero, and every entry lies in [[-1, 1]]. *)
Theorem OutputLayer_gradient_rows (self : OutputLayer.t R)
    (input : np.ndarray R) (true_labels : list Z) (batch : nat) :
  np.has_shape input batch (OutputLayer.n_classes self) ->
  (0 < OutputLayer.n_classes self)%nat ->
  length true_labels = batch ->
  labels_in_range (OutputLayer.n_classes self) true_labels ->
  exists posteriors gradient,
    snd (OutputLayer.forward self input) = Ok posteriors /\
    snd (OutputLayer.backward (fst (OutputLayer.forward self input))
                              posteriors true_labels) = Ok gradient /\
    np.has_shape gradient batch (OutputLayer.n_classes self) /\
    forall i, (i < batch)%nat ->
      big_sum (OutputLayer.n_classes self) (fun j => np.entry gradient i j) = 0 /\
      forall j, (j < OutputLayer.n_classes self)%nat ->
        -1 <= np.entry gradient i j <= 1.
Proof.
  intros Hin Hn Hlen Hlabels.
  destruct (OutputLayer_forward_entry self Hin) as (P & Hout & HP & HPentry).
  set (o1 := OutputLayer.mk (OutputLayer.n_classes self) (Some input)) in *.
  destruct (@OutputLayer_backward_entry _ _ o1 P true_labels batch HP Hlen Hlabels)
    as (grad & Hback & Hgshape & Hgentry).
  cbn [OutputLayer.n_classes o1] in Hgshape, Hgentry.
  exists P, grad. rewrite Hout. cbn [fst snd]. rewrite Hback. cbn [snd].
  split; [reflexivity|]. split; [reflexivity|]. split; [exact Hgshape|].
  intros i Hi.
  destruct (softmax_R_facts (fun k => np.entry input i k) Hn)
    as (_ & Hsum & Hbounds). cbv zeta in Hsum, Hbounds.
  assert (Hl : (0 <= nth i true_labels 0 < Z.of_nat (OutputLayer.n_classes self))%Z).
  { unfold labels_in_range in Hlabels. rewrite Forall_forall in Hlabels.
    apply Hlabels, nth_In. lia. }
  assert (Hgrad : forall j, (j < OutputLayer.n_classes self)%nat ->
            np.entry grad i j =
            exp (np.entry input i j) /
            big_sum (OutputLayer.n_classes self)
                    (fun k => exp (np.entry input i k)) -
            (if (j =? Z.to_nat (nth i true_labels 0%Z))%nat then 1 else 0)).
  { intros j Hj. rewrite (Hgentry i j Hi Hj), (HPentry i j Hi Hj).
    change (@ssub R Scalar_R) with Rminus. change (@sdiv R Scalar_R) with Rdiv.
    change (@sexp R Exponential_R) with exp.
    change (@s1 R Scalar_R) with 1. change (@s0 R Scalar_R) with 0.
    destruct (Z.eqb_spec (Z.of_nat j) (nth i true_labels 0%Z));
      destruct (Nat.eqb_spec j (Z.to_nat (nth i true_labels 0%Z)));
      try reflexivity; lia. }
  split.
  - rewrite (big_sum_ext _ _ Hgrad), big_sum_R_minus, Hsum.
    rewrite big_sum_R_indicator by lia. ring.
  - intros j Hj. rewrite (Hgrad j Hj).
    specialize (Hbounds j Hj).
    destruct (j =? Z.to_nat (nth i true_labels 0%Z))%nat; lra.
Qed.
End SoftmaxMore.

(** ** The network: construction, forward and backward *)

Section NetworkParams.
Context {T : Type} {ST : Scalar T} {E : Exponential T}.

Lemma LinearLayer_backward_params (l : LinearLayer.t T) (up : np.ndarray T) :
  LinearLayer.B (fst (LinearLayer.backward l up)) = LinearLayer.B l /\
  LinearLayer.b (fst (LinearLayer.backward l up)) = LinearLayer.b l.
Proof.
  destruct l as [n_in n_out W w cache gb gB]. unfold LinearLayer.backward.
  cbn [LinearLayer.set_grad_b LinearLayer.input].
  destruct cache as [cached|]; [|split; reflexivity].
  destruct (np.matmul (np.transpose cached) up); split; reflexivity.
Qed.

Lemma Layer_forward_params (layer : Layer T) (x : np.ndarray T) :
  layer_params (fst (Layer_forward layer x)) = layer_params layer.
Proof. destruct layer; reflexivity. Qed.

Lemma Layer_backward_params (layer : Layer T) (up : np.ndarray T) :
  layer_params (fst (Layer_backward layer up)) = layer_params layer.
Proof.
  destruct layer as [l|l|l]; cbn [Layer_backward lift fst layer_params];
    [|reflexivity|reflexivity].
  destruct (LinearLayer_backward_params l up) as [-> ->]. reflexivity.
Qed.

Lemma Layer_backward2_params (layer : Layer T) (p : np.ndarray T) (y : list Z) :
  layer_params (fst (Layer_backward2 layer p y)) = layer_params layer.
Proof. destruct layer; reflexivity. Qed.

Lemma forward_layers_params (ls : list (Layer T)) (x : np.ndarray T) :
  map layer_params (fst (MLP.forward_layers ls x)) = map layer_params ls.
Proof.
  revert x; induction ls as [|layer rest IH]; intros x; [reflexivity|].
  cbn [MLP.forward_layers].
  pose proof (Layer_forward_params layer x) as Hk.
  destruct (Layer_forward layer x) as [layer' [y|e]]; cbn [fst] in Hk.
  - specialize (IH y). destruct (MLP.forward_layers rest y) as [rest' r].
    cbn [fst map] in *. congruence.
  - cbn [fst map]. congruence.
Qed.

Lemma backward_layers_params (ls : list (Layer T)) (up : np.ndarray T) :
  map layer_params (fst (MLP.backward_layers ls up)) = map layer_params ls.
Proof.
  revert up; induction ls as [|layer rest IH]; intros up; [reflexivity|].
  cbn [MLP.backward_layers].
  pose proof (Layer_backward_params layer up) as Hk.
  destruct (Layer_backward layer up) as [layer' [g|e]]; cbn [fst] in Hk.
  - specialize (IH g). destruct (MLP.backward_layers rest g) as [rest' r].
    cbn [fst map] in *. congruence.
  - cbn [fst map]. congruence.
Qed.

Lemma MLP_forward_params (net : MLP.t T) (X : np.ndarray T) :
  MLP_params (fst (MLP.forward net X)) = MLP_params net.
Proof.
  unfold MLP.forward, MLP_params.
  destruct (np.reshape_rows X) as [X'|e]; [|reflexivity].
  pose proof (forward_layers_params (MLP.layers net) X') as Hk.
  destruct (MLP.forward_layers (MLP.layers net) X') as [ls r]. exact Hk.
Qed.

Lemma MLP_backward_params (net : MLP.t T) (p : np.ndarray T) (y : list Z) :
  MLP_params (fst (MLP.backward net p y)) = MLP_params net.
Proof.
  unfold MLP.backward, MLP_params.
  destruct (rev (MLP.layers net)) as [|last_layer before] eqn:Hrev;
    [reflexivity|].
  assert (Hl : MLP.layers net = rev (last_layer :: before))
    by (rewrite <- Hrev, rev_involutive; reflexivity).
  pose proof (Layer_backward2_params last_layer p y) as Hk.
  destruct (Layer_backward2 last_layer p y) as [last' [up|e]]; cbn [fst] in Hk.
  - pose proof (backward_layers_params before up) as Hks.
    destruct (MLP.backward_layers before up) as [before' r]. cbn [fst] in *.
    cbn [MLP.layers]. rewrite Hl, !map_rev. cbn [map]. congruence.
  - cbn [fst MLP.layers]. rewrite Hl, !map_rev. cbn [map]. congruence.
Qed.

(** X11. [MLP.forward] and [MLP.backward] never change a weight or an
    intercept of any layer of the network, whatever their arguments and
    whether or not they raise; and when [MLP.forward] raises on a batch,
    [MLP.update] on that batch raises the same exception and changes no
    weight or intercept either. *)
Theorem MLP_params_frame (net : MLP.t T) (X p : np.ndarray T) (Y : list Z)
    (learning_rate : T) :
  MLP_params (fst (MLP.forward net X)) = MLP_params net /\
  MLP_params (fst (MLP.backward net p Y)) = MLP_params net /\
  (forall e, snd (MLP.forward net X) = Raise e ->
     snd (MLP.update net X Y learning_rate) = Raise e /\
     MLP_params (fst (MLP.update net X Y learning_rate)) = MLP_params net).
Proof.
  split; [apply MLP_forward_params|]. split; [apply MLP_backward_params|].
  intros e He. unfold MLP.update.
  pose proof (MLP_forward_params net X) as Hp.
  destruct (MLP.forward net X) as [net1 r]. cbn [fst snd] in *. subst r.
  split; [reflexivity | exact Hp].
Qed.

(** X10. [MLP.forward] raises [ValueError] on a batch with no row, and
    leaves the network as it is.  On a batch with rows whose width is not
    the [n_inputs] of the first layer it raises [ValueError] too; the
    first layer has then cached that batch, and the layers after it are as
    they were. *)
Theorem MLP_forward_errors (net : MLP.t T) (X : np.ndarray T) :
  (np.nrows X = 0 -> MLP.forward net X = (net, Raise ValueError)) /\
  (forall l rest,
     MLP.layers net = Linear l :: rest ->
     np.nrows X <> 0 ->
     np.ncols X <> np.nrows (LinearLayer.B l) ->
     MLP.forward net X =
       (MLP.mk (MLP.n_layers net)
          (Linear (LinearLayer.mk (LinearLayer.n_inputs l)
                     (LinearLayer.n_outputs l) (LinearLayer.B l)
                     (LinearLayer.b l) (Some X) (LinearLayer.grad_b l)
                     (LinearLayer.grad_B l)) :: rest),
        Raise ValueError)).
Proof.
  split.
  - intros H0. unfold MLP.forward, np.reshape_rows. rewrite H0. reflexivity.
  - intros l rest Hlayers Hrows Hwidth.
    unfold MLP.forward, np.reshape_rows.
    destruct (Nat.eqb_spec (np.nrows X) 0); [lia|].
    rewrite Hlayers.
    cbn [MLP.forward_layers Layer_forward lift LinearLayer.forward fst snd].
    unfold np.matmul. cbn [LinearLayer.set_input LinearLayer.B].
    destruct (Nat.eqb_spec (np.ncols X) (np.nrows (LinearLayer.B l)));
      [lia | reflexivity].
Qed.
End NetworkParams.

Section NetworkInit.
Context {T : Type} {ST : Scalar T} {E : Exponential T}.
Context {G : Type} {RS : RandomSource T G}.

Lemma LinearLayer_init_fresh (n_in n_out : nat) (g : G) :
  layer_fresh (Linear (fst (LinearLayer.init (T := T) n_in n_out g))).
Proof.
  unfold LinearLayer.init.
  destruct (random_normal2 g n_in n_out) as [B0 g1].
  destruct (random_normal1 g1 n_out) as [b0 g2]. cbn. auto.
Qed.

Lemma init_interior_fresh (sizes : list nat) (n_in : nat) (g : G) :
  Forall layer_fresh (fst (fst (MLP.init_interior (T := T) n_in sizes g))).
Proof.
  revert n_in g; induction sizes as [|n_out rest IH]; intros n_in g;
    [constructor|].
  cbn [MLP.init_interior].
  pose proof (LinearLayer_init_fresh n_in n_out g) as Hlin.
  destruct (LinearLayer.init n_in n_out g) as [lin g1]. cbn [fst] in Hlin.
  specialize (IH n_out g1).
  destruct (MLP.init_interior n_out rest g1) as [[ls n'] g2]. cbn [fst] in *.
  constructor; [exact Hlin|]. constructor; [reflexivity | exact IH].
Qed.

(** The layers of a constructed network: fresh hidden layers, a fresh
    linear layer, the output layer. *)
Lemma MLP_init_layers (n_features : nat) (layer_sizes : list nat) (g g' : G)
    (net : MLP.t T) :
  MLP.init n_features layer_sizes g = Ok (net, g') ->
  exists ls lin,
    MLP.layers net =
      ls ++ [Linear lin; Output (OutputLayer.init (last layer_sizes 0))] /\
    Forall layer_fresh ls /\ layer_fresh (Linear lin).
Proof.
  unfold MLP.init.
  pose proof (init_interior_fresh (removelast layer_sizes) n_features g) as Hfresh.
  destruct (MLP.init_interior n_features (removelast layer_sizes) g)
    as [[ls n_in] g1]. cbn [fst] in Hfresh.
  destruct layer_sizes as [|n0 rest] eqn:Hsizes; [discriminate|].
  rewrite <- Hsizes in *.
  pose proof (LinearLayer_init_fresh n_in (last layer_sizes 0) g1) as Hlin.
  destruct (LinearLayer.init n_in (last layer_sizes 0) g1) as [lin g2].
  cbn [fst] in Hlin. intros Hinit. injection Hinit as <- _.
  exists ls, lin. cbn [MLP.layers]. auto.
Qed.

(** X8. For a list [layer_sizes] that is not empty, [MLP(n_features,
    layer_sizes)] returns a network on which a training step runs (hidden
    layers whose widths fit, from [n_features] to the last width, then
    the output layer for that many classes), and every layer of it is
    fresh: no input cached, no gradient stored. *)
Theorem MLP_init_spec {RSS : RandomSourceSpec RS} (n_features : nat)
    (layer_sizes : list nat) (g : G) :
  layer_sizes <> [] ->
  exists net g',
    MLP.init n_features layer_sizes g = Ok (net, g') /\
    MLP_wf net n_features (last layer_sizes 0) /\
    Forall layer_fresh (MLP.layers net).
Proof.
  intros Hne.
  assert (Hok : exists net g', MLP.init n_features layer_sizes g = Ok (net, g')).
  { unfold MLP.init.
    destruct (MLP.init_interior n_features (removelast layer_sizes) g)
      as [[ls n_in] g1].
    destruct layer_sizes as [|n0 rest]; [contradiction|].
    destruct (LinearLayer.init n_in (last (n0 :: rest) 0) g1) as [lin g2].
    eexists _, _. reflexivity. }
  destruct Hok as (net & g' & Hinit). exists net, g'.
  split; [exact Hinit|]. split; [exact (MLP_init_wf _ _ _ Hinit)|].
  destruct (MLP_init_layers _ _ _ Hinit) as (ls & lin & -> & Hls & Hlin).
  apply Forall_app. split; [exact Hls|].
  constructor; [exact Hlin|]. constructor; [reflexivity | constructor].
Qed.

(** X12. [MLP.backward] on a network as constructed, before any
    [forward], never returns normally.  When the posteriors and the
    labels fit the output layer, the exception is [AttributeError],
    raised by the last linear layer, which has no cached input. *)
Theorem MLP_backward_before_forward (n_features : nat) (layer_sizes : list nat)
    (g g' : G) (net : MLP.t T) (predicted_posteriors : np.ndarray T)
    (true_classes : list Z) :
  MLP.init n_features layer_sizes g = Ok (net, g') ->
  (exists e, snd (MLP.backward net predicted_posteriors true_classes) = Raise e) /\
  (forall batch,
     np.has_shape predicted_posteriors batch (last layer_sizes 0) ->
     length true_classes = batch ->
     labels_in_range (last layer_sizes 0) true_classes ->
     snd (MLP.backward net predicted_posteriors true_classes) =
       Raise AttributeError).
Proof.
  intros Hinit.
  destruct (MLP_init_layers _ _ _ Hinit) as (ls & lin & Hlayers & _ & Hlin).
  cbn in Hlin. destruct Hlin as (Hcache & _ & _).
  assert (Hrun : forall up,
            snd (OutputLayer.backward (OutputLayer.init (last layer_sizes 0))
                   predicted_posteriors true_classes) = Ok up ->
            snd (MLP.backward net predicted_posteriors true_classes) =
              Raise AttributeError).
  { intros up Hup. unfold MLP.backward. rewrite Hlayers, rev_app_distr.
    cbn [rev app Layer_backward2 lift]. rewrite Hup. cbn [fst snd].
    cbn [MLP.backward_layers Layer_backward lift].
    unfold LinearLayer.backward at 1 2.
    cbn [LinearLayer.set_grad_b LinearLayer.input]. rewrite Hcache.
    reflexivity. }
  split.
  - destruct (snd (OutputLayer.backward (OutputLayer.init (last layer_sizes 0))
                     predicted_posteriors true_classes)) as [up|e] eqn:Hup.
    + exists AttributeError. exact (Hrun up eq_refl).
    + exists e. unfold MLP.backward. rewrite Hlayers, rev_app_distr.
      cbn [rev app Layer_backward2 lift]. rewrite Hup. reflexivity.
  - intros batch HP Hlen Hlabels.
    destruct (OutputLayer_backward_ok (OutputLayer.init (last layer_sizes 0))
                HP Hlen Hlabels) as (down & Hback & _).
    apply (Hrun down). rewrite Hback. reflexivity.
Qed.
End NetworkInit.

Section NetworkForward.
Context {T : Type} {ST : Scalar T} {E : Exponential T}.

(** The forward pass through a network that fits the batch: the hidden
    layers give the scores, the output layer their softmax. *)
Lemma MLP_forward_ok (net : MLP.t T) (X : np.ndarray T)
    (n_features n_classes r : nat) :
  MLP_wf net n_features n_classes ->
  np.has_shape X r n_features -> 0 < r ->
  exists net' scores P,
    MLP.forward net X = (net', Ok P) /\
    MLP_wf net' n_features n_classes /\
    np.has_shape scores r n_classes /\
    np.has_shape P r n_classes /\
    forall i j, i < r -> j < n_classes ->
      np.entry P i j =
      sdiv (sexp (np.entry scores i j))
           (big_sum n_classes (fun k => sexp (np.entry scores i k))).
Proof.
  intros (body & o & Hlayers & Hchain & Hn) HX Hr.
  destruct (forward_layers_ok Hchain HX) as (body1 & y & Hfwd & Hy & Hchain1).
  destruct (OutputLayer_forward_entry o Hy) as (P & Hout & HP & HPentry).
  exists (MLP.mk (MLP.n_layers net)
                 (body1 ++ [Output (OutputLayer.mk (OutputLayer.n_classes o)
                                                   (Some y))])), y, P.
  split; [|split; [|split; [exact Hy|split; [exact HP | exact HPentry]]]].
  - unfold MLP.forward, np.reshape_rows.
    destruct HX as (_ & HXr & _).
    destruct (Nat.eqb_spec (np.nrows X) 0) as [H0|_]; [lia|].
    rewrite Hlayers, forward_layers_app, Hfwd.
    cbn [MLP.forward_layers Layer_forward lift]. rewrite Hout. reflexivity.
  - eexists body1, _. split; [reflexivity|]. split; [|exact Hn].
    clear - Hchain1. induction Hchain1; econstructor; eauto. exact I.
Qed.

Lemma argmax_from_range (row : list T) (best : T) (ibest i : nat) :
  ibest < i -> np.argmax_from best ibest i row < i + length row.
Proof.
  revert best ibest i; induction row as [|x row IH]; intros best ibest i Hlt;
    cbn [np.argmax_from length]; [lia|].
  destruct (np.isnan best); [lia|].
  destruct (sleb x best).
  - specialize (IH best ibest (S i)). lia.
  - specialize (IH x i (S i)). lia.
Qed.

Lemma argmax_axis1_range (m : np.ndarray T) (r c : nat) :
  np.has_shape m r c -> 0 < c ->
  exists classes,
    np.argmax_axis1 m = Ok classes /\ length classes = r /\
    Forall (fun k => k < c) classes.
Proof.
  intros ([Hlen Hrows] & Hr & Hc) Hpos. unfold np.argmax_axis1.
  destruct (Nat.eqb_spec (np.ncols m) 0); [lia|].
  eexists; split; [reflexivity|]. split; [rewrite length_map; lia|].
  rewrite Forall_forall in Hrows. apply Forall_forall; intros k Hk.
  apply in_map_iff in Hk as [row [<- Hrow]].
  specialize (Hrows row Hrow). destruct row as [|x rest]; [lia|].
  pose proof (@argmax_from_range rest x 0 1). cbn [length] in Hrows. lia.
Qed.

(** X16. The class predictions of the test code
    ([np.argmax(network.forward(X_test), axis=1)]) on a network and a batch
    that fit, with at least one row and one class: the call returns
    normally, one class for each row, each in [[0, n_classes)]; and the
    forward pass has changed no weight or intercept. *)
Theorem Main_predict_spec (net : MLP.t T) (X_test : np.ndarray T)
    (n_features n_classes r : nat) :
  MLP_wf net n_features n_classes ->
  np.has_shape X_test r n_features -> 0 < r -> 0 < n_classes ->
  exists net' classes,
    Main.predict net X_test = (net', Ok classes) /\
    length classes = r /\
    Forall (fun k => k < n_classes) classes /\
    MLP_params net' = MLP_params net /\
    MLP_wf net' n_features n_classes.
Proof.
  intros Hnet HX Hr Hn.
  destruct (MLP_forward_ok Hnet HX Hr) as (net' & scores & P & Hfwd & Hnet' & _ & HP & _).
  destruct (argmax_axis1_range HP Hn) as (classes & Harg & Hlen & Hrange).
  exists net', classes. unfold Main.predict.
  pose proof (MLP_forward_params net X_test) as Hparams.
  rewrite Hfwd in *. cbn [bind fst] in *. rewrite Harg. auto.
Qed.
End NetworkForward.

Section NetworkForwardReal.
Open Scope R_scope.

(** X9. [MLP.forward] over the reals, on a network and a batch that fit,
    with at least one row and one class, returns posteriors of shape
    [batch x n_classes]: every entry lies in [(0, 1]] and every row sums
    to [1].  The network still fits afterwards. *)
Theorem MLP_forward_posteriors (net : MLP.t R) (X : np.ndarray R)
    (n_features n_classes batch : nat) :
  MLP_wf net n_features n_classes ->
  np.has_shape X batch n_features ->
  (0 < batch)%nat -> (0 < n_classes)%nat ->
  exists net' posteriors,
    MLP.forward net X = (net', Ok posteriors) /\
    MLP_wf net' n_features n_classes /\
    np.has_shape posteriors batch n_classes /\
    forall i, (i < batch)%nat ->
      big_sum n_classes (fun j => np.entry posteriors i j) = 1 /\
      forall j, (j < n_classes)%nat -> 0 < np.entry posteriors i j <= 1.
Proof.
  intros Hnet HX Hr Hn.
  destruct (MLP_forward_ok Hnet HX Hr)
    as (net' & scores & P & Hfwd & Hnet' & _ & HP & HPentry).
  exists net', P. split; [exact Hfwd|]. split; [exact Hnet'|].
  split; [exact HP|]. intros i Hi.
  destruct (softmax_R_facts (fun k => np.entry scores i k) Hn)
    as (_ & Hsum & Hbounds). cbv zeta in Hsum, Hbounds.
  split.
  - rewrite <- Hsum. apply big_sum_ext. intros j Hj.
    rewrite (HPentry i j Hi Hj). reflexivity.
  - intros j Hj. rewrite (HPentry i j Hi Hj). exact (Hbounds j Hj).
Qed.
End NetworkForwardReal.

(** ** Training: edge cases *)

Section TrainEdges.
Context {T : Type} {ST : Scalar T} {E : Exponential T}.
Context {G : Type} {RS : RandomSource T G}.

Lemma train_epochs_no_batch (epochs : list nat) (net : MLP.t T)
    (x : np.ndarray T) (y : list Z) (N bs : nat) (lr : T) (g : G) :
  MLP.train_epochs net x y N 0 bs lr g epochs =
    (net, snd (draw_permutations g N (length epochs)),
     map (fun p => (p, [])) (fst (draw_permutations g N (length epochs))),
     Ok tt).
Proof.
  revert g; induction epochs as [|i rest IH]; intros g; [reflexivity|].
  cbn [MLP.train_epochs length draw_permutations seq MLP.train_batches].
  destruct (random_permutation g N) as [perm g1].
  rewrite IH. destruct (draw_permutations g1 N (length rest)) as [ps g2].
  reflexivity.
Qed.

(** X15. [train] with a batch size larger than the number of instances
    calls [update] not once: it returns normally with the network exactly
    as it was, having drawn one permutation per epoch.  Whatever the data
    and the labels are, no error is raised. *)
Theorem MLP_train_no_batch (net : MLP.t T) (x : np.ndarray T) (y : list Z)
    (n_epochs batch_size : nat) (learning_rate : T) (g : G) :
  np.nrows x < batch_size ->
  MLP.train net x y n_epochs batch_size learning_rate g =
    (net, snd (draw_permutations g (np.nrows x) n_epochs),
     map (fun p => (p, [])) (fst (draw_permutations g (np.nrows x) n_epochs)),
     Ok tt).
Proof.
  intros Hlt. unfold MLP.train.
  destruct (Nat.eqb_spec batch_size 0); [lia|].
  rewrite (Nat.div_small _ _ Hlt), train_epochs_no_batch, length_seq.
  reflexivity.
Qed.
End TrainEdges.

(** ** The script: preparing the data and scoring the predictions *)

Lemma broadcast1_same_gen {A B C : Type} (f : A -> B -> C) (da : A) (db : B)
    (dc : C) (u : list A) (v : list B) (n : nat) :
  length u = n -> length v = n ->
  exists w, np.broadcast1 f da db u v = Ok w /\ length w = n /\
    forall j, j < n -> nth j w dc = f (nth j u da) (nth j v db).
Proof.
  intros Hu Hv. unfold np.broadcast1. rewrite Hu, Hv, bdim_same.
  eexists; split; [reflexivity|]. split.
  - rewrite length_map, length_seq. reflexivity.
  - intros j Hj.
    rewrite (nth_map_seq _ dc Hj), !bidx_lt by assumption. reflexivity.
Qed.

Lemma count_true_le (v : list bool) : npx.count_true v <= length v.
Proof. unfold npx.count_true. apply filter_length_le. Qed.

Lemma count_true_zero (v : list bool) :
  npx.count_true v = 0 <-> forall j, j < length v -> nth j v false = false.
Proof.
  unfold npx.count_true. induction v as [|c v IH]; cbn [filter length].
  - split; [intros _ j Hj; lia | reflexivity].
  - destruct c; cbn [length].
    + split; [discriminate|]. intros H. specialize (H 0). cbn in H.
      discriminate H. lia.
    + rewrite IH. split.
      * intros H [|j] Hj; [reflexivity|]. cbn. apply H. lia.
      * intros H j Hj. apply (H (S j)). lia.
Qed.

Section ScoreReal.
Open Scope R_scope.

Lemma error_rate_R_ok (predicted_classes : list nat) (Y_test : list Z) (N : nat) :
  length predicted_classes = N -> length Y_test = N -> (0 < N)%nat ->
  exists wrong,
    np.broadcast1 (fun p y => negb (Z.of_nat p =? y)%Z) 0%nat 0%Z
                  predicted_classes Y_test = Ok wrong /\
    length wrong = N /\
    (forall j, (j < N)%nat ->
       nth j wrong false =
       negb (Z.of_nat (nth j predicted_classes 0%nat) =? nth j Y_test 0%Z)%Z) /\
    Main.error_rate (T := R) predicted_classes Y_test =
      Ok (INR (npx.count_true wrong) / INR N) /\
    0 <= INR (npx.count_true wrong) / INR N <= 1.
Proof.
  intros Hp Hy HN.
  destruct (@broadcast1_same_gen _ _ _ (fun p y => negb (Z.of_nat p =? y)%Z)
              0%nat 0%Z false _ _ _ Hp Hy) as (wrong & Hw & Hlen & Hnth).
  exists wrong. split; [exact Hw|]. split; [exact Hlen|]. split; [exact Hnth|].
  split.
  - unfold Main.error_rate. rewrite Hw. cbn [bind]. rewrite Hy. reflexivity.
  - pose proof (count_true_le wrong) as Hle. rewrite Hlen in Hle.
    assert (0 < INR N) by (apply lt_0_INR; exact HN).
    assert (0 <= INR (npx.count_true wrong)) by apply pos_INR.
    assert (INR (npx.count_true wrong) <= INR N) by (apply le_INR; exact Hle).
    split.
    + apply Rmult_le_reg_r with (r := INR N); [assumption|].
      unfold Rdiv. rewrite Rmult_assoc, Rinv_l by lra. lra.
    + apply Rmult_le_reg_r with (r := INR N); [assumption|].
      unfold Rdiv. rewrite Rmult_assoc, Rinv_l by lra. lra.
Qed.

(** X18. The error rate of the test code,
    [np.sum(predicted_classes != Y_test) / len(Y_test)], for [N >= 1]
    predictions and as many labels: over the reals the expression
    returns normally, its value lies in [[0, 1]], and it is [0] exactly
    when every prediction equals its label. *)
Theorem Main_error_rate_spec (predicted_classes : list nat) (Y_test : list Z)
    (N : nat) :
  length predicted_classes = N -> length Y_test = N -> (0 < N)%nat ->
  exists rate : R,
    Main.error_rate predicted_classes Y_test = Ok rate /\
    0 <= rate <= 1 /\
    (rate = 0 <->
     forall j, (j < N)%nat ->
       Z.of_nat (nth j predicted_classes 0%nat) = nth j Y_test 0%Z).
Proof.
  intros Hp Hy HN.
  destruct (@error_rate_R_ok _ _ _ Hp Hy HN)
    as (wrong & _ & Hlen & Hnth & Hrate & Hbounds).
  exists (INR (npx.count_true wrong) / INR N).
  split; [exact Hrate|]. split; [exact Hbounds|].
  assert (HNpos : 0 < INR N) by (apply lt_0_INR; exact HN).
  assert (Hzero : INR (npx.count_true wrong) / INR N = 0 <->
                  npx.count_true wrong = 0%nat).
  { split.
    - intros H0. apply INR_eq. simpl (INR 0).
      apply (Rmult_eq_reg_r (/ INR N)).
      + unfold Rdiv in H0. rewrite H0. ring.
      + apply Rinv_neq_0_compat. lra.
    - intros ->. simpl (INR 0). unfold Rdiv. ring. }
  rewrite Hzero, count_true_zero, Hlen. split.
  - intros H j Hj. specialize (H j Hj). rewrite (Hnth j Hj) in H.
    apply negb_false_iff, Z.eqb_eq in H. exact H.
  - intros H j Hj. rewrite (Hnth j Hj), (H j Hj), Z.eqb_refl. reflexivity.
Qed.
End ScoreReal.

Section RowBroadcast.
Context {T : Type} {ST : Scalar T}.

(** An operation between an array and a one-dimensional array of the
    length of its rows: row by row. *)
Lemma broadcast_row_spec (f : T -> T -> T) (p : np.ndarray T) (v : list T)
    (r c : nat) :
  np.has_shape p r c -> length v = c ->
  exists out, np.broadcast2 f s0 s0 p (np.as_row v) = Ok out /\
    np.has_shape out r c /\
    forall i j, i < r -> j < c ->
      np.entry out i j = f (np.entry p i j) (nth j v s0).
Proof.
  intros (Hwf & Hr & Hc) Hv.
  destruct (broadcast2_spec f s0 s0 s0 p (np.as_row v) (r := r) (c := c))
    as (out & Hout & Hshape & Hget).
  - simpl. rewrite Hr. apply bdim_1_r.
  - simpl. rewrite Hc, Hv. apply bdim_same.
  - exists out; split; [exact Hout|]. split; [exact Hshape|].
    intros i j Hi Hj. unfold np.entry. rewrite Hget by assumption.
    rewrite Hr, Hc, !bidx_lt by assumption.
    simpl np.nrows; simpl np.ncols. rewrite Hv, (bidx_lt Hj).
    reflexivity.
Qed.
End RowBroadcast.

Section StandardizeReal.
Open Scope R_scope.

(** A reduction along the batch axis with an operation that picks one of
    its two arguments, the one that is in relation [rel] with both. *)
Lemma fold_pick (op : R -> R -> R) (rel : R -> R -> Prop)
    (rest : list (list R)) (acc : list R) (d : nat) :
  (forall a b, rel (op a b) a /\ rel (op a b) b /\ (op a b = a \/ op a b = b)) ->
  (forall a b c, rel a b -> rel b c -> rel a c) ->
  (forall a, rel a a) ->
  length acc = d -> Forall (fun r => length r = d) rest ->
  let res := fold_left (fun u v => map (fun p => op (fst p) (snd p)) (combine u v))
                       rest acc in
  length res = d /\
  forall j, (j < d)%nat ->
    rel (nth j res 0) (nth j acc 0) /\
    (forall r, In r rest -> rel (nth j res 0) (nth j r 0)) /\
    (nth j res 0 = nth j acc 0 \/
     exists r, In r rest /\ nth j res 0 = nth j r 0).
Proof.
  intros Hop Htrans Hrefl. revert acc.
  induction rest as [|r rest IH]; intros acc Hacc Hrest; cbn [fold_left].
  - split; [exact Hacc|]. intros j Hj. split; [apply Hrefl|].
    split; [intros r []|]. left. reflexivity.
  - inversion Hrest as [|? ? Hr Hrest']; subst.
    set (acc' := map (fun p => op (fst p) (snd p)) (combine acc r)).
    assert (Hacc' : length acc' = length acc).
    { unfold acc'. rewrite length_map, length_combine. lia. }
    destruct (IH acc' Hacc' Hrest') as [Hlen Hj].
    split; [exact Hlen|]. intros j Hjd.
    destruct (Hj j Hjd) as (Hle & Hall & Hpick).
    assert (Hnth : nth j acc' 0 = op (nth j acc 0) (nth j r 0)).
    { unfold acc'.
      rewrite (nth_map_in _ _ (0, 0)) by (rewrite length_combine; lia).
      rewrite combine_nth by lia. reflexivity. }
    rewrite Hnth in Hle, Hpick.
    destruct (Hop (nth j acc 0) (nth j r 0)) as (Ha & Hb & Hab).
    split; [exact (Htrans _ _ _ Hle Ha)|]. split.
    + intros r' [<-|Hin]; [exact (Htrans _ _ _ Hle Hb) | exact (Hall r' Hin)].
    + destruct Hpick as [Heq|(r' & Hin & Heq)].
      * destruct Hab as [Hab|Hab]; rewrite Hab in Heq.
        -- left. exact Heq.
        -- right. exists r. split; [left; reflexivity | exact Heq].
      * right. exists r'. split; [right; exact Hin | exact Heq].
Qed.

Lemma smin_R_pick (a b : R) :
  npx.smin a b <= a /\ npx.smin a b <= b /\
  (npx.smin a b = a \/ npx.smin a b = b).
Proof.
  unfold npx.smin, np.isnan. cbn [sleb Scalar_R].
  destruct (Rle_dec a b); destruct (Rle_dec a a); cbn [orb negb];
    repeat split; try lra; auto.
Qed.

Lemma smax_R_pick (a b : R) :
  npx.smax a b >= a /\ npx.smax a b >= b /\
  (npx.smax a b = a \/ npx.smax a b = b).
Proof.
  unfold npx.smax, np.isnan. cbn [sleb Scalar_R].
  destruct (Rle_dec b a); destruct (Rle_dec a a); cbn [orb negb];
    repeat split; try lra; auto.
Qed.

(** [X.min(axis=0)] and [X.max(axis=0)] of an array with a row: for each
    column a bound of its entries that is one of them. *)
Lemma min_max_axis0_R (X : np.ndarray R) (N d : nat) :
  np.has_shape X N d -> (0 < N)%nat ->
  exists lo hi,
    npx.min_axis0 X = Ok lo /\ npx.max_axis0 X = Ok hi /\
    length lo = d /\ length hi = d /\
    forall j, (j < d)%nat ->
      (forall i, (i < N)%nat -> nth j lo 0 <= np.entry X i j <= nth j hi 0) /\
      (exists i, (i < N)%nat /\ np.entry X i j = nth j lo 0) /\
      (exists i, (i < N)%nat /\ np.entry X i j = nth j hi 0).
Proof.
  intros ([Hlen Hrows] & Hr & Hc) HN.
  unfold npx.min_axis0, npx.max_axis0, np.entry, np.get.
  destruct (np.rows X) as [|r0 rest] eqn:Hrs; [cbn in Hlen; lia|].
  inversion Hrows as [|? ? Hr0 Hrest]; subst.
  destruct (@fold_pick npx.smin Rle rest r0 (np.ncols X))
    as [Hlo Hloj]; auto using smin_R_pick, Rle_refl.
  { intros a b c; apply Rle_trans. }
  destruct (@fold_pick npx.smax Rge rest r0 (np.ncols X))
    as [Hhi Hhij]; auto using smax_R_pick, Rge_refl.
  { intros a b c; apply Rge_trans. }
  cbv zeta in *.
  exists (fold_left npx.vmin rest r0), (fold_left npx.vmax rest r0).
  split; [reflexivity|]. split; [reflexivity|].
  split; [exact Hlo|]. split; [exact Hhi|].
  intros j Hj.
  destruct (Hloj j Hj) as (Hl0 & Hlall & Hlpick).
  destruct (Hhij j Hj) as (Hh0 & Hhall & Hhpick).
  assert (Hin : forall i, (i < length (r0 :: rest))%nat ->
            nth i (r0 :: rest) [] = r0 \/ In (nth i (r0 :: rest) []) rest).
  { intros [|i] Hi; [left; reflexivity|]. right. cbn. apply nth_In.
    cbn in Hi. lia. }
  split; [|split].
  - intros i Hi. destruct (Hin i) as [->|Hir]; [lia| |].
    + split; [exact Hl0 | apply Rge_le; exact Hh0].
    + split; [exact (Hlall _ Hir) | apply Rge_le; exact (Hhall _ Hir)].
  - destruct Hlpick as [Heq|(r & Hir & Heq)].
    + exists 0%nat. split; [lia|]. cbn [nth]. symmetry. exact Heq.
    + destruct (In_nth _ _ [] Hir) as (i & Hi & Hnth).
      exists (S i). split; [cbn in Hlen; lia|]. cbn [nth]. rewrite Hnth.
      symmetry. exact Heq.
  - destruct Hhpick as [Heq|(r & Hir & Heq)].
    + exists 0%nat. split; [lia|]. cbn [nth]. symmetry. exact Heq.
    + destruct (In_nth _ _ [] Hir) as (i & Hi & Hnth).
      exists (S i). split; [cbn in Hlen; lia|]. cbn [nth]. rewrite Hnth.
      symmetry. exact Heq.
Qed.

(** X17. The standardization of the training features,
    [offset = X.min(axis=0)], [scaling = X.max(axis=0) - offset],
    [((X - offset) / scaling - 0.5) * 2.0], on an array with at least one
    row in which no column is constant: over the reals both steps return
    normally, the result has the shape of [X], all its entries lie in
    [[-1, 1]], and every column has an entry [-1] and an entry [1]. *)
Theorem Main_standardize_range (X : np.ndarray R) (N d : nat) :
  np.has_shape X N d -> (0 < N)%nat ->
  (forall j, (j < d)%nat ->
     exists i i', (i < N)%nat /\ (i' < N)%nat /\
                  np.entry X i j <> np.entry X i' j) ->
  exists offset scaling X',
    Main.scaler X = Ok (offset, scaling) /\
    Main.standardize X offset scaling = Ok X' /\
    np.has_shape X' N d /\
    forall j, (j < d)%nat ->
      (forall i, (i < N)%nat -> -1 <= np.entry X' i j <= 1) /\
      (exists i, (i < N)%nat /\ np.entry X' i j = -1) /\
      (exists i, (i < N)%nat /\ np.entry X' i j = 1).
Proof.
  intros HX HN Hvaries.
  destruct (min_max_axis0_R HX HN) as (lo & hi & Hlo & Hhi & Hlolen & Hhilen & Hcol).
  destruct (@broadcast1_same_gen _ _ _ Rminus 0 0 0 hi lo d Hhilen Hlolen)
    as (scaling & Hsc & Hsclen & Hscnth).
  destruct (@broadcast_row_spec _ _ Rminus X lo N d HX Hlolen)
    as (centred & Hcen & Hcshape & Hcentry).
  destruct (@broadcast_row_spec _ _ Rdiv centred scaling N d Hcshape Hsclen)
    as (scaled & Hscd & Hsshape & Hsentry).
  exists lo, scaling,
    (np.map_nd (fun v => smul (ssub v Main.half) Main.two) scaled).
  split; [|split; [|split]].
  - unfold Main.scaler. rewrite Hlo, Hhi. cbn [bind].
    unfold np.vsub. change (@ssub R Scalar_R) with Rminus.
    change (@s0 R Scalar_R) with 0. rewrite Hsc. reflexivity.
  - unfold Main.standardize, np.sub, np.divide.
    change (@ssub R Scalar_R) with Rminus. change (@sdiv R Scalar_R) with Rdiv.
    rewrite Hcen. cbn [bind]. rewrite Hscd. reflexivity.
  - apply map_nd_shape. exact Hsshape.
  - intros j Hj.
    destruct (Hcol j Hj) as (Hbounds & (imin & Himin & Hmin) & (imax & Himax & Hmax)).
    assert (Hgap : 0 < nth j hi 0 - nth j lo 0).
    { destruct (Hvaries j Hj) as (i & i' & Hi & Hi' & Hne).
      pose proof (Hbounds i Hi). pose proof (Hbounds i' Hi').
      destruct (Req_dec (nth j hi 0) (nth j lo 0)); [|lra].
      exfalso. apply Hne. lra. }
    assert (Hentry : forall i, (i < N)%nat ->
              np.entry (np.map_nd (fun v => smul (ssub v Main.half) Main.two)
                                  scaled) i j =
              ((np.entry X i j - nth j lo 0) / (nth j hi 0 - nth j lo 0) - 1 / 2)
              * 2).
    { intros i Hi. unfold np.entry at 1.
      destruct Hsshape as (Hwfs & Hsr & Hsc').
      rewrite (get_map_nd (fun v => smul (ssub v Main.half) Main.two) 0 0 Hwfs)
        by lia.
      change (np.get 0 scaled i j) with (np.entry scaled i j).
      rewrite (Hsentry i j Hi Hj), (Hcentry i j Hi Hj).
      change (@s0 R Scalar_R) with 0. rewrite (Hscnth j Hj).
      unfold Main.half, Main.two. cbn [smul ssub sdiv s1 sof_nat Scalar_R].
      simpl INR. reflexivity. }
    split; [|split].
    + intros i Hi. rewrite (Hentry i Hi).
      destruct (Hbounds i Hi) as [Hl Hh].
      assert (H01 : 0 <= (np.entry X i j - nth j lo 0) /
                         (nth j hi 0 - nth j lo 0) <= 1).
      { split.
        - apply Rmult_le_reg_r with (r := nth j hi 0 - nth j lo 0); [exact Hgap|].
          unfold Rdiv. rewrite Rmult_assoc, Rinv_l by lra. lra.
        - apply Rmult_le_reg_r with (r := nth j hi 0 - nth j lo 0); [exact Hgap|].
          unfold Rdiv. rewrite Rmult_assoc, Rinv_l by lra. lra. }
      lra.
    + exists imin. split; [exact Himin|]. rewrite (Hentry imin Himin), Hmin.
      field. lra.
    + exists imax. split; [exact Himax|]. rewrite (Hentry imax Himax), Hmax.
      field. lra.
Qed.
End StandardizeReal.

(** ** The script: one experiment from construction to the error rate *)

Section Experiment.
Context {G : Type} {RS : RandomSource R G}.

Lemma MLP_init_ok (n_features : nat) (layer_sizes : list nat) (g : G) :
  layer_sizes <> [] ->
  exists net g', MLP.init (T := R) n_features layer_sizes g = Ok (net, g').
Proof.
  intros Hne. unfold MLP.init.
  destruct (MLP.init_interior n_features (removelast layer_sizes) g)
    as [[ls n_in] g1].
  destruct layer_sizes as [|n0 rest]; [contradiction|].
  destruct (LinearLayer.init n_in (last (n0 :: rest) 0) g1) as [lin g2].
  eexists _, _. reflexivity.
Qed.

Lemma MLP_train_ok {RSS : RandomSourceSpec RS} (net : MLP.t R)
    (x : np.ndarray R) (y : list Z) (n_epochs bs : nat) (lr : R) (g : G)
    (N n_features n_classes : nat) :
  MLP_wf net n_features n_classes ->
  np.has_shape x N n_features -> length y = N ->
  labels_in_range n_classes y -> 0 < bs ->
  exists net' g' log,
    MLP.train net x y n_epochs bs lr g = (net', g', log, Ok tt) /\
    MLP_wf net' n_features n_classes.
Proof.
  intros Hnet Hx Hy Hlabels Hbs. pose proof Hx as (_ & Hxr & _).
  destruct (@train_epochs_ok _ _ _ _ _ _ (seq 0 n_epochs) _ _ _ _ lr g
              _ _ _ Hnet Hx Hy Hlabels Hbs) as (net' & Hrun & Hnet').
  unfold MLP.train. rewrite Hxr.
  destruct (Nat.eqb_spec bs 0); [lia|].
  rewrite Hrun. eexists _, _, _. split; [reflexivity | exact Hnet'].
Qed.

(** X19. One pass of the loop of the script over the reals: for a list
    [layer_sizes] that is not empty and ends in a positive number of
    classes, training data and test data of [n_features] columns with as
    many labels as rows (the training labels in [[0, n_classes)]), a
    positive batch size and at least one test instance, the construction,
    the training, the forward pass on the test data, the [argmax] and the
    error rate all return normally, and the error rate lies in
    [[0, 1]]. *)
Theorem Main_experiment_spec {RSS : RandomSourceSpec RS} (n_features : nat)
    (layer_sizes : list nat) (X_train : np.ndarray R) (Y_train : list Z)
    (X_test : np.ndarray R) (Y_test : list Z) (n_epochs batch_size : nat)
    (learning_rate : R) (g : G) (N M : nat) :
  layer_sizes <> [] -> 0 < last layer_sizes 0 ->
  np.has_shape X_train N n_features -> length Y_train = N ->
  labels_in_range (last layer_sizes 0) Y_train ->
  0 < batch_size ->
  np.has_shape X_test M n_features -> length Y_test = M -> 0 < M ->
  exists g' rate,
    Main.experiment n_features layer_sizes X_train Y_train X_test Y_test
                    n_epochs batch_size learning_rate g = (g', Ok rate) /\
    (0 <= rate <= 1)%R.
Proof.
  intros Hne Hn Hx Hy Hlabels Hbs Hxt Hyt HM.
  destruct (MLP_init_ok n_features g Hne) as (net & g1 & Hinit).
  pose proof (MLP_init_wf _ _ _ Hinit) as Hnet.
  destruct (MLP_train_ok n_epochs learning_rate g1 Hnet Hx Hy Hlabels Hbs)
    as (net1 & g2 & log & Htrain & Hnet1).
  destruct (MLP_forward_ok Hnet1 Hxt HM)
    as (net2 & scores & P & Hfwd & _ & _ & HP & _).
  destruct (argmax_axis1_range HP Hn) as (classes & Harg & Hlen & _).
  destruct (@error_rate_R_ok _ _ _ Hlen Hyt HM)
    as (wrong & _ & _ & _ & Hrate & Hbounds).
  exists g2, (INR (npx.count_true wrong) / INR M)%R.
  split; [|exact Hbounds].
  unfold Main.experiment. rewrite Hinit, Htrain.
  unfold Main.predict. rewrite Hfwd. cbn [bind]. rewrite Harg. cbn [bind].
  rewrite Hrate. reflexivity.
Qed.
End Experiment.

(** ** The script: the winner-takes-all rule *)

Section WinnerReal.
Open Scope R_scope.

Lemma argmax_from_R_spec (rest pre : list R) (best : R) (ibest : nat) :
  (ibest < length pre)%nat -> nth ibest pre 0 = best ->
  (forall k, (k < length pre)%nat -> nth k pre 0 <= best) ->
  (forall k, (k < ibest)%nat -> nth k pre 0 < best) ->
  let c := np.argmax_from best ibest (length pre) rest in
  (c < length (pre ++ rest))%nat /\
  (forall k, (k < length (pre ++ rest))%nat ->
     nth k (pre ++ rest) 0 <= nth c (pre ++ rest) 0) /\
  (forall k, (k < c)%nat -> nth k (pre ++ rest) 0 < nth c (pre ++ rest) 0).
Proof.
  revert pre best ibest.
  induction rest as [|x rest IH]; intros pre best ibest Hi Hbest Hle Hlt.
  - cbn [np.argmax_from]. rewrite app_nil_r. rewrite Hbest. auto.
  - cbn [np.argmax_from]. unfold np.isnan. cbn [sleb Scalar_R].
    destruct (Rle_dec best best) as [_|Hrefl]; [|exfalso; lra].
    cbn [negb].
    replace (pre ++ x :: rest) with ((pre ++ [x]) ++ rest)
      by (rewrite <- app_assoc; reflexivity).
    replace (S (length pre)) with (length (pre ++ [x]))
      by (rewrite length_app; cbn; lia).
    destruct (Rle_dec x best) as [Hxb|Hxb].
    + apply IH.
      * rewrite length_app; cbn; lia.
      * rewrite app_nth1 by lia. exact Hbest.
      * intros k Hk. rewrite length_app in Hk; cbn in Hk.
        destruct (Nat.eq_dec k (length pre)) as [->|Hne].
        -- rewrite app_nth2, Nat.sub_diag by lia. cbn. lra.
        -- rewrite app_nth1 by lia. apply Hle. lia.
      * intros k Hk. rewrite app_nth1 by lia. apply Hlt. exact Hk.
    + apply IH.
      * rewrite length_app; cbn; lia.
      * rewrite app_nth2, Nat.sub_diag by lia. reflexivity.
      * intros k Hk. rewrite length_app in Hk; cbn in Hk.
        destruct (Nat.eq_dec k (length pre)) as [->|Hne].
        -- rewrite app_nth2, Nat.sub_diag by lia. cbn. lra.
        -- rewrite app_nth1 by lia. assert (nth k pre 0 <= best) by (apply Hle; lia).
           lra.
      * intros k Hk. rewrite app_nth1 by lia.
        assert (nth k pre 0 <= best) by (apply Hle; lia). lra.
Qed.

(** [np.argmax(m, axis=1)] over the reals: in each row the first position
    of the greatest entry. *)
Lemma argmax_axis1_R_spec (m : np.ndarray R) (r c : nat) :
  np.has_shape m r c -> (0 < c)%nat ->
  exists classes,
    np.argmax_axis1 m = Ok classes /\ length classes = r /\
    forall i, (i < r)%nat ->
      let w := nth i classes 0%nat in
      (w < c)%nat /\
      (forall j, (j < c)%nat -> np.entry m i j <= np.entry m i w) /\
      (forall j, (j < w)%nat -> np.entry m i j < np.entry m i w).
Proof.
  intros (Hwf & Hr & Hc) Hpos. pose proof Hwf as [Hlen Hrows].
  unfold np.argmax_axis1.
  destruct (Nat.eqb_spec (np.ncols m) 0); [lia|].
  eexists; split; [reflexivity|]. split; [rewrite length_map; lia|].
  intros i Hi. cbv zeta.
  rewrite (nth_map_in _ _ [] 0%nat) by lia.
  pose proof (@wf_row_length _ m i Hwf) as Hrow.
  unfold np.entry, np.get. change (@s0 R Scalar_R) with 0.
  destruct (nth i (np.rows m) []) as [|x rest]; [cbn in Hrow; lia|].
  destruct (@argmax_from_R_spec rest [x] x 0) as (H1 & H2 & H3).
  - cbn; lia.
  - reflexivity.
  - intros [|k] Hk; cbn in *; [lra | lia].
  - intros k Hk; lia.
  - cbn [length app] in *. rewrite Hrow in * by lia.
    split; [rewrite <- Hc; exact H1|]. split.
    + intros j Hj. apply H2. lia.
    + exact H3.
Qed.

(** X20. The predictions of the test code follow the winner-takes-all
    rule: over the reals, on a network and a batch that fit, the class
    predicted for a row has the greatest posterior of that row, and is the
    first class to have it. *)
Theorem Main_predict_winner (net : MLP.t R) (X_test : np.ndarray R)
    (n_features n_classes r : nat) :
  MLP_wf net n_features n_classes ->
  np.has_shape X_test r n_features -> (0 < r)%nat -> (0 < n_classes)%nat ->
  exists net' posteriors classes,
    MLP.forward net X_test = (net', Ok posteriors) /\
    Main.predict net X_test = (net', Ok classes) /\
    length classes = r /\
    forall i, (i < r)%nat ->
      let winner := nth i classes 0%nat in
      (winner < n_classes)%nat /\
      (forall j, (j < n_classes)%nat ->
         np.entry posteriors i j <= np.entry posteriors i winner) /\
      (forall j, (j < winner)%nat ->
         np.entry posteriors i j < np.entry posteriors i winner).
Proof.
  intros Hnet HX Hr Hn.
  destruct (MLP_forward_ok Hnet HX Hr)
    as (net' & scores & P & Hfwd & _ & _ & HP & _).
  destruct (argmax_axis1_R_spec HP Hn) as (classes & Harg & Hlen & Hwin).
  exists net', P, classes. split; [exact Hfwd|].
  split; [|split; [exact Hlen | exact Hwin]].
  unfold Main.predict. rewrite Hfwd. cbn [bind]. rewrite Harg. reflexivity.
Qed.
End WinnerReal.

(** ** The network: one step of gradient descent *)

Section DescentStep.
Context {T : Type} {ST : Scalar T} {E : Exponential T}.

Lemma LinearLayer_update_step (l : LinearLayer.t T) (lr : T)
    (gB : np.ndarray T) (gb : list T) :
  LinearLayer_wf l ->
  LinearLayer.grad_B l = Some gB ->
  np.has_shape gB (LinearLayer.n_inputs l) (LinearLayer.n_outputs l) ->
  LinearLayer.grad_b l = Some gb ->
  length gb = LinearLayer.n_outputs l ->
  exists l',
    LinearLayer.update l lr = (l', Ok tt) /\ LinearLayer_wf l' /\
    descent_step lr (Linear l) (Linear l').
Proof.
  intros [HB Hb] HgB HgBshape Hgb Hgblen.
  destruct HB as (HwfB & HBr & HBc).
  destruct HgBshape as (HwfgB & HgBr & HgBc).
  destruct (broadcast2_same ssub s0 s0 s0 (LinearLayer.B l)
              (np.scale lr gB) HBr HBc)
    as (B' & HB' & HB'shape & HB'get); [exact HgBr | exact HgBc |].
  destruct (@broadcast1_same _ _ ssub (LinearLayer.b l) (np.vscale lr gb) _ Hb)
    as (b' & Hb' & Hb'len & Hb'get).
  { unfold np.vscale. rewrite length_map. exact Hgblen. }
  exists (LinearLayer.set_b (LinearLayer.set_B l B') b').
  split; [|split].
  - unfold LinearLayer.update. rewrite HgB. unfold np.sub. rewrite HB'.
    cbn [LinearLayer.set_B LinearLayer.grad_b LinearLayer.b].
    rewrite Hgb. unfold np.vsub. rewrite Hb'. reflexivity.
  - split; assumption.
  - cbn. split; [reflexivity|]. split; [reflexivity|].
    exists gB, gb. split; [exact HgB|]. split; [exact Hgb|].
    split; [exact HB'shape|]. split; [exact Hb'len|]. split.
    + intros i j Hi Hj. unfold np.entry. rewrite HB'get by assumption.
      unfold np.scale.
      rewrite (get_map_nd (smul lr) s0 s0 HwfgB) by lia. reflexivity.
    + intros j Hj. rewrite Hb'get by assumption. unfold np.vscale.
      rewrite (nth_map_in _ _ s0) by lia. reflexivity.
Qed.

Lemma update_layers_step (ls : list (Layer T)) (d_in d_out : nat) (lr : T) :
  chain layer_ready d_in ls d_out ->
  exists ls',
    MLP.update_layers ls lr = (ls', Ok tt) /\
    chain layer_any d_in ls' d_out /\
    Forall2 (descent_step lr) ls ls'.
Proof.
  intros Hchain.
  induction Hchain as [d|layer rest d_in d_mid d_out Hty Hready Hrest IH].
  - exists []. split; [reflexivity|]. split; constructor.
  - destruct IH as (rest' & Hrun & Hchain' & Hsteps).
    destruct layer as [l|l|l]; cbn [layer_ty layer_ready] in Hty, Hready;
      [| |contradiction].
    + destruct Hty as (Hwf & Hin & Hout).
      destruct Hready as (gB & gb & HgB & HgBshape & Hgb & Hgblen).
      destruct (LinearLayer_update_step lr Hwf HgB HgBshape Hgb Hgblen)
        as (l' & Hupd & Hwf' & Hstep).
      exists (Linear l' :: rest').
      cbn [MLP.update_layers Layer_update lift]. rewrite Hupd. cbn [fst snd].
      rewrite Hrun. split; [reflexivity|]. split.
      * apply chain_cons with (d_mid := d_mid); [| exact I | exact Hchain'].
        destruct Hstep as (Hin' & Hout' & _).
        cbn. split; [exact Hwf' | split; congruence].
      * constructor; assumption.
    + exists (ReLU l :: rest').
      cbn [MLP.update_layers Layer_update lift ReLULayer.update fst snd].
      rewrite Hrun. split; [reflexivity|]. split.
      * apply chain_cons with (d_mid := d_mid);
          [exact Hty | exact I | exact Hchain'].
      * constructor; [exact I | exact Hsteps].
Qed.

Lemma descent_step_transfer (lr : T) (ls ls' after : list (Layer T)) :
  map layer_kind ls = map layer_kind ls' ->
  map layer_params ls = map layer_params ls' ->
  Forall2 (descent_step lr) ls' after ->
  Forall2 (descent_step lr) ls after.
Proof.
  intros Hk Hp Hsteps. revert ls Hk Hp.
  induction Hsteps as [|x' a ls' after Hstep Hsteps IH]; intros ls Hk Hp.
  - destruct ls; [constructor | discriminate].
  - destruct ls as [|x ls]; [discriminate|].
    cbn [map] in Hk, Hp. injection Hk as Hkx Hk. injection Hp as Hpx Hp.
    constructor; [|exact (IH ls Hk Hp)].
    destruct x as [l|l|l], x' as [l'|l'|l']; try discriminate;
      destruct a as [m|m|m]; cbn in *; try contradiction; try exact I.
    + injection Hkx as Hin Hout. injection Hpx as HB Hb.
      rewrite Hin, Hout, HB, Hb. exact Hstep.
    + injection Hkx as Hn. congruence.
Qed.

(** X13. [MLP.update] on a mini-batch that fits the network takes one
    step of gradient descent: it returns normally, and afterwards every
    layer is of the class and sizes it was, every linear layer holds
    gradients of the shape of its parameters, and its weights and
    intercepts are the ones before the call minus [learning_rate] times
    those gradients, entry by entry.  The network still fits. *)
Theorem MLP_update_step (net : MLP.t T) (X : np.ndarray T) (Y : list Z)
    (learning_rate : T) (n_features n_classes batch : nat) :
  MLP_wf net n_features n_classes ->
  np.has_shape X batch n_features -> 0 < batch ->
  length Y = batch -> labels_in_range n_classes Y ->
  exists net',
    MLP.update net X Y learning_rate = (net', Ok tt) /\
    MLP_wf net' n_features n_classes /\
    Forall2 (descent_step learning_rate) (MLP.layers net) (MLP.layers net').
Proof.
  intros (body & o & Hlayers & Hchain & Hn) HX Hr HY Hlabels.
  assert (Hpos : 0 < n_classes).
  { destruct Y as [|l Y']; [simpl in HY; lia|].
    inversion Hlabels as [|? ? Hl _]; subst. lia. }
  destruct (forward_layers_ok Hchain HX) as (body1 & y & Hfwd & Hy & Hchain1).
  destruct (OutputLayer_forward_entry o Hy) as (P & Hout & HP & _).
  set (o1 := OutputLayer.mk (OutputLayer.n_classes o) (Some y)) in *.
  assert (Hforward : MLP.forward net X =
            (MLP.mk (MLP.n_layers net) (body1 ++ [Output o1]), Ok P)).
  { unfold MLP.forward, np.reshape_rows.
    destruct HX as (_ & HXr & _).
    destruct (Nat.eqb_spec (np.nrows X) 0) as [H0|_]; [lia|].
    rewrite Hlayers, forward_layers_app, Hfwd.
    cbn [MLP.forward_layers Layer_forward lift]. rewrite Hout. reflexivity. }
  assert (HP' : np.has_shape P batch (OutputLayer.n_classes o1))
    by (cbn; rewrite Hn; exact HP).
  assert (Hlabels' : labels_in_range (OutputLayer.n_classes o1) Y)
    by (cbn; rewrite Hn; exact Hlabels).
  destruct (OutputLayer_backward_ok o1 HP' HY Hlabels') as (down & Hbwd & Hdown).
  cbn [OutputLayer.n_classes o1] in Hdown. rewrite Hn in Hdown.
  destruct (backward_layers_ok Hchain1 Hdown) as (body2 & g & Hback & _ & Hchain2).
  assert (Hbackward :
            MLP.backward (MLP.mk (MLP.n_layers net) (body1 ++ [Output o1])) P Y =
            (MLP.mk (MLP.n_layers net) (body2 ++ [Output o1]), Ok tt)).
  { unfold MLP.backward. cbn [MLP.layers MLP.n_layers].
    rewrite rev_app_distr. cbn [rev app Layer_backward2 lift].
    rewrite Hbwd. cbn [fst snd]. rewrite Hback.
    cbn [rev bind]. rewrite rev_involutive. reflexivity. }
  destruct (update_layers_step learning_rate Hchain2)
    as (body3 & Hupd & Hchain3 & Hsteps).
  exists (MLP.mk (MLP.n_layers net) (body3 ++ [Output o1])).
  split; [|split].
  - unfold MLP.update. rewrite Hforward.
    unfold np.argmax_axis1. destruct HP as (_ & _ & HPc).
    destruct (Nat.eqb_spec (np.ncols P) 0) as [H0|_]; [lia|].
    rewrite Hbackward. cbn [MLP.layers MLP.n_layers].
    rewrite update_layers_app, Hupd. reflexivity.
  - exists body3, o1. split; [reflexivity|]. split; [exact Hchain3 | exact Hn].
  - rewrite Hlayers. cbn [MLP.layers]. apply Forall2_app.
    + apply descent_step_transfer with (ls' := body2); [| |exact Hsteps].
      * pose proof (forward_layers_kinds body X) as Hk1.
        pose proof (backward_layers_kinds (rev body1) down) as Hk2.
        rewrite Hfwd in Hk1. rewrite Hback in Hk2. cbn [fst] in Hk1, Hk2.
        rewrite !map_rev in Hk2. apply (f_equal (@rev _)) in Hk2.
        rewrite !rev_involutive in Hk2. congruence.
      * pose proof (forward_layers_params body X) as Hp1.
        pose proof (backward_layers_params (rev body1) down) as Hp2.
        rewrite Hfwd in Hp1. rewrite Hback in Hp2. cbn [fst] in Hp1, Hp2.
        rewrite !map_rev in Hp2. apply (f_equal (@rev _)) in Hp2.
        rewrite !rev_involutive in Hp2. congruence.
    + constructor; [reflexivity | constructor].
Qed.
End DescentStep.

(** ** The network: the rows of a batch do not influence one another *)

Lemma take_rows_spec {A : Type} (d : A) (x : np.ndarray A) (idx : list nat) :
  np.wf x -> Forall (fun i => i < np.nrows x) idx ->
  exists xs,
    np.take_rows x (map Z.of_nat idx) = Ok xs /\
    np.has_shape xs (length idx) (np.ncols x) /\
    forall k j, k < length idx ->
      np.get d xs k j = np.get d x (nth k idx 0) j.
Proof.
  intros Hwf Hidx. pose proof Hidx as Hidx'. rewrite Forall_forall in Hidx'.
  destruct (take_rows_ok Hwf Hidx) as (xs & Hxs & Hshape).
  exists xs. split; [exact Hxs|]. split; [exact Hshape|].
  unfold np.take_rows in Hxs.
  rewrite (mapM_Ok _ (fun k => nth (Z.to_nat k) (np.rows x) [])) in Hxs.
  2:{ intros k Hk. apply in_map_iff in Hk as [i [<- Hi]].
      rewrite normalize_index_of_nat, Nat2Z.id by auto. reflexivity. }
  cbn [bind] in Hxs. injection Hxs as <-.
  intros k j Hk. unfold np.get; cbn [np.rows].
  rewrite map_map.
  rewrite (nth_map_in _ _ 0 []) by exact Hk.
  rewrite Nat2Z.id. reflexivity.
Qed.

Section RowWise.
Context {T : Type} {ST : Scalar T} {E : Exponential T}.

Lemma Layer_forward_row_wise (layer : Layer T) (d_in d_out : nat) :
  layer_ty layer d_in d_out ->
  exists phi, row_wise (fun x => snd (Layer_forward layer x)) d_in d_out phi.
Proof.
  destruct layer as [l|l|l]; cbn [layer_ty]; [| |contradiction].
  - intros ([HB Hb] & Hin & Hout). subst d_in d_out.
    exists (fun j row =>
              sadd (big_sum (LinearLayer.n_inputs l)
                      (fun k => smul (row k) (np.entry (LinearLayer.B l) k j)))
                   (nth j (LinearLayer.b l) s0)).
    split.
    + intros row row' j _ Hrows. f_equal. apply big_sum_ext.
      intros k Hk. rewrite (Hrows k Hk). reflexivity.
    + intros r x Hx _.
      destruct (matmul_spec Hx HB) as (p & Hp & Hpshape & Hpget).
      destruct (@add_row_spec _ _ p _ _ _ Hpshape Hb)
        as (out & Hout & Hshape & Hget).
      exists out. cbn [Layer_forward lift snd].
      unfold LinearLayer.forward.
      cbn [LinearLayer.set_input LinearLayer.B LinearLayer.b snd].
      rewrite Hp; cbn [bind]. rewrite Hout; cbn [bind].
      split; [reflexivity|]. split; [exact Hshape|].
      intros i j Hi Hj. rewrite Hget, Hpget by assumption. reflexivity.
  - intros ->.
    exists (fun j row => if sleb (row j) s0 then s0 else row j).
    split.
    + intros row row' j Hj Hrows. rewrite (Hrows j Hj). reflexivity.
    + intros r x Hx _. exists (np.maximum0 x).
      split; [reflexivity|]. split; [apply map_nd_shape; exact Hx|].
      intros i j Hi Hj. destruct Hx as (Hwf & Hr & Hc).
      unfold np.entry, np.maximum0.
      rewrite (get_map_nd (fun v => if sleb v s0 then s0 else v) s0 s0 Hwf)
        by lia.
      reflexivity.
Qed.

Lemma forward_layers_row_wise (ls : list (Layer T)) (d_in d_out : nat) :
  chain layer_any d_in ls d_out ->
  exists phi, row_wise (fun x => snd (MLP.forward_layers ls x)) d_in d_out phi.
Proof.
  intros Hchain.
  induction Hchain as [d|layer rest d_in d_mid d_out Hty _ Hrest IH].
  - exists (fun j row => row j). split.
    + intros row row' j Hj Hrows. exact (Hrows j Hj).
    + intros r x Hx _. exists x. split; [reflexivity|]. split; [exact Hx|].
      reflexivity.
  - destruct (@Layer_forward_row_wise layer _ _ Hty) as (phi1 & Hcong1 & Hrun1).
    destruct IH as (phi2 & Hcong2 & Hrun2).
    exists (fun j row => phi2 j (fun k => phi1 k row)). split.
    + intros row row' j Hj Hrows. apply Hcong2; [exact Hj|].
      intros k Hk. apply Hcong1; assumption.
    + intros r x Hx Hr.
      destruct (Hrun1 r x Hx Hr) as (y1 & Hy1 & Hshape1 & Hentry1).
      destruct (Hrun2 r y1 Hshape1 Hr) as (y2 & Hy2 & Hshape2 & Hentry2).
      exists y2. split; [|split; [exact Hshape2|]].
      * cbn [MLP.forward_layers].
        destruct (Layer_forward layer x) as [layer' r1]. cbn [snd] in Hy1.
        subst r1. destruct (MLP.forward_layers rest y1) as [rest' r2].
        cbn [snd] in *. exact Hy2.
      * intros i j Hi Hj. rewrite (Hentry2 i j Hi Hj).
        apply Hcong2; [exact Hj|]. intros k Hk. apply Hentry1; assumption.
Qed.

Lemma MLP_forward_row_wise (net : MLP.t T) (n_features n_classes : nat) :
  MLP_wf net n_features n_classes ->
  exists phi,
    row_wise (fun X => snd (MLP.forward net X)) n_features n_classes phi.
Proof.
  intros (body & o & Hlayers & Hchain & Hn).
  destruct (@forward_layers_row_wise _ _ _ Hchain) as (phi & Hcong & Hrun).
  exists (fun j row =>
            sdiv (sexp (phi j row))
                 (big_sum n_classes (fun k => sexp (phi k row)))).
  split.
  - intros row row' j Hj Hrows. f_equal.
    + f_equal. apply Hcong; assumption.
    + apply big_sum_ext. intros k Hk. f_equal. apply Hcong; assumption.
  - intros r X HX Hr.
    destruct (Hrun r X HX Hr) as (y & Hy & Hshape & Hentry).
    destruct (OutputLayer_forward_entry o Hshape) as (P & Hout & HP & HPentry).
    exists P. split; [|split; [exact HP|]].
    + unfold MLP.forward, np.reshape_rows.
      destruct HX as (_ & HXr & _).
      destruct (Nat.eqb_spec (np.nrows X) 0) as [H0|_]; [lia|].
      rewrite Hlayers, forward_layers_app.
      destruct (MLP.forward_layers body X) as [body1 r1]. cbn [snd] in Hy.
      subst r1. cbn [MLP.forward_layers Layer_forward lift].
      rewrite Hout. reflexivity.
    + intros i j Hi Hj. rewrite (HPentry i j Hi Hj). f_equal.
      * f_equal. apply Hentry; assumption.
      * apply big_sum_ext. intros k Hk. f_equal. apply Hentry; assumption.
Qed.

(** X14. The forward pass treats every row of a batch by itself: for a
    network and a batch [X] that fit and a list [idx] of row numbers
    (not empty, repetitions allowed), [forward(X[idx])] returns
    [forward(X)[idx]].  The posteriors of an instance do not depend on
    the instances it shares a batch with. *)
Theorem MLP_forward_rows_independent (net : MLP.t T) (X : np.ndarray T)
    (idx : list nat) (n_features n_classes r : nat) :
  MLP_wf net n_features n_classes ->
  np.has_shape X r n_features ->
  idx <> [] -> Forall (fun i => i < r) idx ->
  exists P Xs Ps,
    snd (MLP.forward net X) = Ok P /\
    np.take_rows X (map Z.of_nat idx) = Ok Xs /\
    snd (MLP.forward net Xs) = Ok Ps /\
    np.take_rows P (map Z.of_nat idx) = Ok Ps.
Proof.
  intros Hnet HX Hne Hidx.
  assert (Hlen : 0 < length idx) by (destruct idx; [contradiction | cbn; lia]).
  assert (Hr : 0 < r).
  { destruct idx as [|i idx']; [contradiction|].
    inversion Hidx; subst. lia. }
  destruct (@MLP_forward_row_wise _ _ _ Hnet) as (phi & Hcong & Hrun).
  pose proof HX as (HwfX & HXr & HXc).
  destruct (Hrun r X HX Hr) as (P & HP & HPshape & HPentry).
  destruct (@take_rows_spec _ s0 X idx HwfX) as (Xs & HXs & HXsshape & HXsentry);
    [rewrite HXr; exact Hidx|].
  rewrite HXc in HXsshape.
  destruct (Hrun (length idx) Xs HXsshape Hlen) as (Ps & HPs & HPsshape & HPsentry).
  pose proof HPshape as (HwfP & HPr & HPc).
  destruct (@take_rows_spec _ s0 P idx HwfP) as (Pt & HPt & HPtshape & HPtentry);
    [rewrite HPr; exact Hidx|].
  rewrite HPc in HPtshape.
  exists P, Xs, Ps. split; [exact HP|]. split; [exact HXs|]. split; [exact HPs|].
  rewrite HPt. f_equal.
  apply (ndarray_ext s0 HPtshape HPsshape).
  intros k j Hk Hj. rewrite (HPtentry k j Hk).
  change (np.entry P (nth k idx 0) j = np.entry Ps k j).
  assert (Hik : nth k idx 0 < r).
  { rewrite Forall_forall in Hidx. apply Hidx, nth_In. exact Hk. }
  rewrite (HPentry _ j Hik Hj), (HPsentry k j Hk Hj).
  apply Hcong; [exact Hj|]. intros c Hc. symmetry. apply HXsentry. exact Hk.
Qed.
End RowWise.

(** * The added properties at concrete inputs *)

Lemma ReLULayer_forward_spec_witness :
  np.has_shape exf.mixed 1 4 /\
  exists out,
    ReLULayer.forward ReLULayer.init exf.mixed =
      (ReLULayer.mk (Some exf.mixed), Ok out) /\
    np.entry out 0 0 = PrimFloat.nan /\
    np.entry out 0 1 = s0 /\
    np.entry out 0 2 = np.entry exf.mixed 0 2 /\
    np.entry out 0 3 = s0.
Proof.
  assert (Hx : np.has_shape exf.mixed 1 4) by shapes.
  split; [exact Hx|].
  destruct (ReLULayer_forward_spec ReLULayer.init Hx)
    as (out & Hrun & _ & Hentry & _).
  exists out. split; [exact Hrun|].
  rewrite !Hentry by lia. repeat split.
Defined.

Lemma LinearLayer_init_spec_witness :
  RandomSourceSpec (RandomSource_counter (T := Z)) /\
  np.has_shape (LinearLayer.B (fst (LinearLayer.init (T := Z) 2 3 0))) 2 3 /\
  snd (LinearLayer.backward (fst (LinearLayer.init (T := Z) 2 3 0)) ex.upstream) =
    Raise AttributeError /\
  LinearLayer.grad_b
    (fst (LinearLayer.backward (fst (LinearLayer.init (T := Z) 2 3 0))
                               ex.upstream)) = Some [3; 4]%Z /\
  LinearLayer.update (fst (LinearLayer.init (T := Z) 2 3 0)) 1%Z =
    (fst (LinearLayer.init (T := Z) 2 3 0), Raise AttributeError).
Proof.
  split; [exact RandomSource_counter_spec|].
  pose proof (LinearLayer_init_spec (RSS := RandomSource_counter_spec (T := Z))
                2 3 0 ex.upstream 1%Z) as H.
  cbv zeta in H. destruct H as ((_ & _ & HB & _) & _ & Hbwd & Hupd).
  split; [exact HB|]. rewrite Hbwd. split; [reflexivity|].
  split; [reflexivity | exact Hupd].
Defined.

Lemma LinearLayer_forward_wrong_width_witness :
  LinearLayer_wf ex.linear /\ np.has_shape ex2.wide 3 3 /\ 3 <> 2 /\
  np.has_shape ex.upstream 3 2 /\
  snd (LinearLayer.forward ex.linear ex2.wide) = Raise ValueError /\
  LinearLayer.input (fst (LinearLayer.forward ex.linear ex2.wide)) =
    Some ex2.wide /\
  exists gB down,
    snd (LinearLayer.backward (fst (LinearLayer.forward ex.linear ex2.wide))
                              ex.upstream) = Ok down /\
    LinearLayer.grad_B
      (fst (LinearLayer.backward (fst (LinearLayer.forward ex.linear ex2.wide))
                                 ex.upstream)) = Some gB /\
    np.has_shape gB 3 2 /\
    snd (LinearLayer.update
           (fst (LinearLayer.backward
                   (fst (LinearLayer.forward ex.linear ex2.wide)) ex.upstream))
           1%Z) = Raise ValueError.
Proof.
  assert (Hwf : LinearLayer_wf ex.linear) by shapes.
  assert (Hx : np.has_shape ex2.wide 3 3) by shapes.
  assert (Hc : 3 <> LinearLayer.n_inputs ex.linear) by (cbn; lia).
  assert (Hup : np.has_shape ex.upstream 3 (LinearLayer.n_outputs ex.linear))
    by shapes.
  split; [exact Hwf|]. split; [exact Hx|]. split; [exact Hc|].
  split; [exact Hup|].
  destruct (LinearLayer_forward_wrong_width 1%Z Hwf Hx Hc Hup)
    as (Hfwd & gb & gB & down & Hbwd & HgB & _ & Hupd).
  split; [rewrite Hfwd; reflexivity|].
  split; [rewrite Hfwd; reflexivity|].
  exists gB, down.
  split; [rewrite Hbwd; reflexivity|].
  split; [rewrite Hbwd; reflexivity|].
  split; [exact HgB|].
  apply Hupd; cbn; lia.
Defined.

Lemma LinearLayer_backward_wrong_shape_witness :
  LinearLayer.input ex2.primed = Some ex.input /\
  np.wf ex.input /\ np.wf ex.W /\ np.wf ex2.wide /\
  snd (LinearLayer.backward ex2.primed ex.W) = Raise ValueError /\
  LinearLayer.grad_B (fst (LinearLayer.backward ex2.primed ex.W)) = None /\
  snd (LinearLayer.backward ex2.primed ex2.wide) = Raise ValueError /\
  exists gB,
    LinearLayer.grad_B (fst (LinearLayer.backward ex2.primed ex2.wide)) = Some gB /\
    np.has_shape gB 2 3.
Proof.
  assert (Hin : LinearLayer.input ex2.primed = Some ex.input) by reflexivity.
  assert (Hc : np.wf ex.input) by shapes.
  assert (HW : np.wf ex.W) by shapes.
  assert (Hwide : np.wf ex2.wide) by shapes.
  split; [exact Hin|]. split; [exact Hc|]. split; [exact HW|].
  split; [exact Hwide|].
  pose proof (LinearLayer_backward_wrong_shape ex2.primed Hin Hc HW) as H1.
  pose proof (LinearLayer_backward_wrong_shape ex2.primed Hin Hc Hwide) as H2.
  cbv zeta in H1, H2.
  destruct H1 as (Hrows & _). destruct H2 as (_ & Hcols).
  rewrite Hrows by (cbn; lia). split; [reflexivity|]. split; [reflexivity|].
  destruct Hcols as (gB & Hrun & Hshape); [reflexivity | cbn; lia |].
  rewrite Hrun. split; [reflexivity|].
  exists gB. split; [reflexivity | exact Hshape].
Defined.

Lemma OutputLayer_backward_labels_witness :
  Forall (fun l => (- 2 <= l < 2)%Z) [-1; 0; -2]%Z /\
  OutputLayer.backward (OutputLayer.init 2) ex.posteriors [-1; 0; -2]%Z =
  OutputLayer.backward (OutputLayer.init 2) ex.posteriors [1; 0; 0]%Z /\
  Exists (fun l => (l < - 2 \/ 2 <= l)%Z) [0; 2; 1]%Z /\
  snd (OutputLayer.backward (OutputLayer.init 2) ex.posteriors [0; 2; 1]%Z) =
    Raise IndexError.
Proof.
  assert (Hin : Forall (fun l => (- 2 <= l < 2)%Z) [-1; 0; -2]%Z)
    by (repeat constructor; lia).
  assert (Hout : Exists (fun l => (l < - 2 \/ 2 <= l)%Z) [0; 2; 1]%Z)
    by (apply Exists_cons_tl, Exists_cons_hd; lia).
  split; [exact Hin|].
  pose proof (OutputLayer_backward_labels (OutputLayer.init (T := Z) 2)
                ex.posteriors [-1; 0; -2]%Z) as H1.
  pose proof (OutputLayer_backward_labels (OutputLayer.init (T := Z) 2)
                ex.posteriors [0; 2; 1]%Z) as H2.
  cbv zeta in H1, H2.
  destruct H1 as (Hwrap & _). destruct H2 as (_ & Hraise).
  split; [exact (proj2 (Hwrap Hin))|]. split; [exact Hout|].
  rewrite (Hraise Hout). reflexivity.
Defined.

Lemma OutputLayer_forward_shift_witness :
  np.has_shape ex.scores 2 3 /\ np.has_shape ex2.shifted_scores 2 3 /\
  (forall i j, i < 2 -> j < 3 ->
     np.entry ex2.shifted_scores i j = (np.entry ex.scores i j + ex2.shift i)%R) /\
  snd (OutputLayer.forward (OutputLayer.init 3) ex2.shifted_scores) =
  snd (OutputLayer.forward (OutputLayer.init 3) ex.scores).
Proof.
  assert (Hx : np.has_shape ex.scores 2 3) by shapes.
  assert (Hs : np.has_shape ex2.shifted_scores 2 3) by shapes.
  assert (Hshift : forall i j, i < 2 -> j < 3 ->
            np.entry ex2.shifted_scores i j =
            (np.entry ex.scores i j + ex2.shift i)%R).
  { intros i j Hi Hj.
    destruct i as [|[|i]]; [| |lia];
      (destruct j as [|[|[|j]]]; [| | |lia]);
      unfold np.entry, np.get; cbn; lra. }
  split; [exact Hx|]. split; [exact Hs|]. split; [exact Hshift|].
  exact (OutputLayer_forward_shift (OutputLayer.init 3) ex2.shift Hx Hs Hshift).
Defined.

Lemma OutputLayer_gradient_rows_witness :
  np.has_shape ex.scores 2 3 /\ 0 < 3 /\ length [0; 2]%Z = 2 /\
  labels_in_range 3 [0; 2]%Z /\
  exists posteriors gradient,
    snd (OutputLayer.forward (OutputLayer.init 3) ex.scores) = Ok posteriors /\
    snd (OutputLayer.backward
           (fst (OutputLayer.forward (OutputLayer.init 3) ex.scores))
           posteriors [0; 2]%Z) = Ok gradient /\
    big_sum 3 (fun j => np.entry gradient 0 j) = 0%R /\
    (-1 <= np.entry gradient 1 2 <= 1)%R.
Proof.
  assert (Hx : np.has_shape ex.scores 2
                 (OutputLayer.n_classes (OutputLayer.init (T := R) 3))) by shapes.
  assert (Hn : 0 < OutputLayer.n_classes (OutputLayer.init (T := R) 3))
    by (cbn; lia).
  assert (Hlen : length [0; 2]%Z = 2) by reflexivity.
  assert (Hlabels : labels_in_range
                      (OutputLayer.n_classes (OutputLayer.init (T := R) 3))
                      [0; 2]%Z) by shapes.
  split; [exact Hx|]. split; [exact Hn|]. split; [exact Hlen|].
  split; [exact Hlabels|].
  destruct (OutputLayer_gradient_rows (OutputLayer.init 3) Hx Hn Hlen Hlabels)
    as (posteriors & gradient & Hfwd & Hbwd & _ & Hrows).
  exists posteriors, gradient. split; [exact Hfwd|]. split; [exact Hbwd|].
  split.
  - apply (Hrows 0). lia.
  - apply (Hrows 1); cbn; lia.
Defined.

Lemma MLP_params_frame_witness :
  snd (MLP.forward ex.net ex2.wide_x) = Raise ValueError /\
  snd (MLP.update ex.net ex2.wide_x [0%Z] 1%R) = Raise ValueError /\
  MLP_params (fst (MLP.update ex.net ex2.wide_x [0%Z] 1%R)) = MLP_params ex.net /\
  MLP_params (fst (MLP.forward ex.net ex.x)) = MLP_params ex.net.
Proof.
  assert (Hraise : snd (MLP.forward ex.net ex2.wide_x) = Raise ValueError)
    by (vm_compute; reflexivity).
  split; [exact Hraise|].
  destruct (MLP_params_frame ex.net ex2.wide_x ex.x [0%Z] 1%R)
    as (_ & _ & Hupd).
  destruct (Hupd ValueError Hraise) as (Hsnd & Hfst).
  split; [exact Hsnd|]. split; [exact Hfst|].
  exact (proj1 (MLP_params_frame ex.net ex.x ex.x [0%Z] 1%R)).
Defined.

Lemma MLP_forward_errors_witness :
  np.nrows ex2.no_row = 0 /\
  MLP.forward ex.net ex2.no_row = (ex.net, Raise ValueError) /\
  np.nrows ex2.wide_x <> 0 /\ np.ncols ex2.wide_x <> 2 /\
  snd (MLP.forward ex.net ex2.wide_x) = Raise ValueError /\
  exists l rest,
    MLP.layers (fst (MLP.forward ex.net ex2.wide_x)) = Linear l :: rest /\
    LinearLayer.input l = Some ex2.wide_x /\
    rest = tl (MLP.layers ex.net).
Proof.
  assert (H0 : np.nrows ex2.no_row = 0) by reflexivity.
  assert (Hr : np.nrows ex2.wide_x <> 0) by (cbn; lia).
  assert (Hc : np.ncols ex2.wide_x <> 2) by (cbn; lia).
  split; [exact H0|].
  split; [exact (proj1 (MLP_forward_errors ex.net ex2.no_row) H0)|].
  split; [exact Hr|]. split; [exact Hc|].
  rewrite (proj2 (MLP_forward_errors ex.net ex2.wide_x) _ _ eq_refl Hr Hc).
  split; [reflexivity|].
  eexists _, _. split; [reflexivity|]. split; reflexivity.
Defined.

Lemma MLP_init_spec_witness :
  RandomSourceSpec (RandomSource_counter (T := Z)) /\ [3; 2] <> [] /\
  exists net g',
    MLP.init (T := Z) 2 [3; 2] 0 = Ok (net, g') /\
    MLP_wf net 2 2 /\ Forall layer_fresh (MLP.layers net).
Proof.
  assert (Hne : [3; 2] <> []) by discriminate.
  split; [exact RandomSource_counter_spec|]. split; [exact Hne|].
  exact (MLP_init_spec (RSS := RandomSource_counter_spec (T := Z)) 2 0 Hne).
Defined.

Lemma MLP_backward_before_forward_witness :
  exists net g',
    MLP.init (T := Z) 2 [3; 2] 0 = Ok (net, g') /\
    np.has_shape ex.posteriors 3 2 /\ length ex.labels = 3 /\
    labels_in_range 2 ex.labels /\
    snd (MLP.backward net ex.posteriors ex.labels) = Raise AttributeError.
Proof.
  destruct (MLP.init (T := Z) 2 [3; 2] 0) as [[net g']|e] eqn:Hinit;
    [|discriminate Hinit].
  exists net, g'. split; [reflexivity|].
  assert (HP : np.has_shape ex.posteriors 3 2) by shapes.
  assert (Hlen : length ex.labels = 3) by reflexivity.
  assert (Hlabels : labels_in_range 2 ex.labels) by shapes.
  split; [exact HP|]. split; [exact Hlen|]. split; [exact Hlabels|].
  exact (proj2 (MLP_backward_before_forward 2 [3; 2] 0 ex.posteriors ex.labels
                  Hinit) 3 HP Hlen Hlabels).
Defined.

Lemma MLP_update_step_witness :
  MLP_wf ex.net 2 2 /\ np.has_shape ex.x 5 2 /\ 0 < 5 /\ length ex.y = 5 /\
  labels_in_range 2 ex.y /\
  exists net',
    MLP.update ex.net ex.x ex.y (1 / 2)%R = (net', Ok tt) /\
    Forall2 (descent_step (1 / 2)%R) (MLP.layers ex.net) (MLP.layers net').
Proof.
  assert (Hx : np.has_shape ex.x 5 2) by shapes.
  assert (Hb : 0 < 5) by lia.
  assert (Hy : length ex.y = 5) by reflexivity.
  assert (Hlabels : labels_in_range 2 ex.y) by shapes.
  split; [exact ex_net_wf|]. split; [exact Hx|]. split; [exact Hb|].
  split; [exact Hy|]. split; [exact Hlabels|].
  destruct (MLP_update_step (1 / 2)%R ex_net_wf Hx Hb Hy Hlabels)
    as (net' & Hrun & _ & Hstep).
  exists net'. split; [exact Hrun | exact Hstep].
Defined.

Lemma MLP_forward_rows_independent_witness :
  MLP_wf ex.net 2 2 /\ np.has_shape ex.x 5 2 /\ [3; 0; 3] <> [] /\
  Forall (fun i => i < 5) [3; 0; 3] /\
  exists P Xs Ps,
    snd (MLP.forward ex.net ex.x) = Ok P /\
    np.take_rows ex.x [3; 0; 3]%Z = Ok Xs /\
    snd (MLP.forward ex.net Xs) = Ok Ps /\
    np.take_rows P [3; 0; 3]%Z = Ok Ps.
Proof.
  assert (Hx : np.has_shape ex.x 5 2) by shapes.
  assert (Hne : [3; 0; 3] <> []) by discriminate.
  assert (Hidx : Forall (fun i => i < 5) [3; 0; 3]) by (repeat constructor; lia).
  split; [exact ex_net_wf|]. split; [exact Hx|]. split; [exact Hne|].
  split; [exact Hidx|].
  exact (MLP_forward_rows_independent ex_net_wf Hx Hne Hidx).
Defined.

Lemma MLP_train_no_batch_witness :
  np.nrows ex.x < 6 /\
  MLP.train ex.net ex.x ex.y 2 6 (1 / 2)%R 0 =
    (ex.net, 2, [([0; 1; 2; 3; 4], []); ([1; 2; 3; 4; 0], [])], Ok tt).
Proof.
  assert (Hlt : np.nrows ex.x < 6) by (cbn; lia).
  split; [exact Hlt|].
  rewrite (MLP_train_no_batch ex.net ex.x ex.y 2 (1 / 2)%R 0 Hlt).
  reflexivity.
Defined.

Lemma Main_predict_spec_witness :
  MLP_wf ex.net 2 2 /\ np.has_shape ex.x 5 2 /\ 0 < 5 /\ 0 < 2 /\
  exists net' classes,
    Main.predict ex.net ex.x = (net', Ok classes) /\
    length classes = 5 /\ Forall (fun k => k < 2) classes.
Proof.
  assert (Hx : np.has_shape ex.x 5 2) by shapes.
  assert (H5 : 0 < 5) by lia.
  assert (H2 : 0 < 2) by lia.
  split; [exact ex_net_wf|]. split; [exact Hx|]. split; [exact H5|].
  split; [exact H2|].
  destruct (Main_predict_spec ex_net_wf Hx H5 H2)
    as (net' & classes & Hrun & Hlen & Hrange & _).
  exists net', classes. split; [exact Hrun|]. split; [exact Hlen | exact Hrange].
Defined.

Lemma MLP_forward_posteriors_witness :
  MLP_wf ex.net 2 2 /\ np.has_shape ex.x 5 2 /\ 0 < 5 /\ 0 < 2 /\
  exists net' posteriors,
    MLP.forward ex.net ex.x = (net', Ok posteriors) /\
    big_sum 2 (fun j => np.entry posteriors 0 j) = 1%R /\
    (0 < np.entry posteriors 4 1 <= 1)%R.
Proof.
  assert (Hx : np.has_shape ex.x 5 2) by shapes.
  assert (H5 : 0 < 5) by lia.
  assert (H2 : 0 < 2) by lia.
  split; [exact ex_net_wf|]. split; [exact Hx|]. split; [exact H5|].
  split; [exact H2|].
  destruct (MLP_forward_posteriors ex_net_wf Hx H5 H2)
    as (net' & posteriors & Hrun & _ & _ & Hrows).
  exists net', posteriors. split; [exact Hrun|]. split.
  - apply (Hrows 0). lia.
  - apply (Hrows 4); lia.
Defined.

Lemma Main_error_rate_spec_witness :
  length [0; 1; 1] = 3 /\ length ex.labels = 3 /\ 0 < 3 /\
  Main.error_rate (T := R) [0; 1; 1] ex.labels = Ok 0%R.
Proof.
  assert (Hp : length [0; 1; 1] = 3) by reflexivity.
  assert (Hy : length ex.labels = 3) by reflexivity.
  assert (H3 : 0 < 3) by lia.
  split; [exact Hp|]. split; [exact Hy|]. split; [exact H3|].
  destruct (Main_error_rate_spec [0; 1; 1] ex.labels Hp Hy H3)
    as (rate & Hrun & _ & Hzero).
  rewrite Hrun. f_equal. apply Hzero.
  intros j Hj. destruct j as [|[|[|j]]]; [reflexivity..|lia].
Defined.

Lemma Main_standardize_range_witness :
  np.has_shape ex.x 5 2 /\ 0 < 5 /\
  (forall j, j < 2 ->
     exists i i', i < 5 /\ i' < 5 /\ np.entry ex.x i j <> np.entry ex.x i' j) /\
  exists offset scaling X',
    Main.scaler ex.x = Ok (offset, scaling) /\
    Main.standardize ex.x offset scaling = Ok X' /\
    (-1 <= np.entry X' 2 1 <= 1)%R.
Proof.
  assert (Hx : np.has_shape ex.x 5 2) by shapes.
  assert (H5 : 0 < 5) by lia.
  assert (Hspread : forall j, j < 2 ->
            exists i i', i < 5 /\ i' < 5 /\
                         np.entry ex.x i j <> np.entry ex.x i' j).
  { intros j Hj. destruct j as [|[|j]]; [| |lia].
    - exists 0, 1. split; [lia|]. split; [lia|].
      unfold np.entry, np.get; cbn. lra.
    - exists 0, 1. split; [lia|]. split; [lia|].
      unfold np.entry, np.get; cbn. lra. }
  split; [exact Hx|]. split; [exact H5|]. split; [exact Hspread|].
  destruct (Main_standardize_range Hx H5 Hspread)
    as (offset & scaling & X' & Hscaler & Hrun & _ & Hrange).
  exists offset, scaling, X'. split; [exact Hscaler|]. split; [exact Hrun|].
  apply (Hrange 1); lia.
Defined.

Lemma Main_experiment_spec_witness :
  RandomSourceSpec (RandomSource_counter (T := R)) /\
  [3; 2] <> [] /\ 0 < last [3; 2] 0 /\
  np.has_shape ex.x 5 2 /\ length ex.y = 5 /\ labels_in_range (last [3; 2] 0) ex.y /\
  0 < 2 /\
  exists g' rate,
    Main.experiment 2 [3; 2] ex.x ex.y ex.x ex.y 3 2 (1 / 100)%R 0 =
      (g', Ok rate) /\
    (0 <= rate <= 1)%R.
Proof.
  assert (Hne : [3; 2] <> []) by discriminate.
  assert (Hn : 0 < last [3; 2] 0) by (cbn; lia).
  assert (Hx : np.has_shape ex.x 5 2) by shapes.
  assert (Hy : length ex.y = 5) by reflexivity.
  assert (Hlabels : labels_in_range (last [3; 2] 0) ex.y) by shapes.
  assert (Hbs : 0 < 2) by lia.
  assert (H5 : 0 < 5) by lia.
  split; [exact RandomSource_counter_spec|]. split; [exact Hne|].
  split; [exact Hn|]. split; [exact Hx|]. split; [exact Hy|].
  split; [exact Hlabels|]. split; [exact Hbs|].
  exact (Main_experiment_spec (RSS := RandomSource_counter_spec (T := R))
           ex.y 3 (1 / 100)%R 0 Hne Hn Hx Hy Hlabels Hbs Hx Hy H5).
Defined.

Lemma Main_predict_winner_witness :
  MLP_wf ex.net 2 2 /\ np.has_shape ex.x 5 2 /\ 0 < 5 /\ 0 < 2 /\
  exists net' posteriors classes,
    MLP.forward ex.net ex.x = (net', Ok posteriors) /\
    Main.predict ex.net ex.x = (net', Ok classes) /\
    (np.entry posteriors 0 0 <= np.entry posteriors 0 (nth 0 classes 0%nat))%R /\
    (np.entry posteriors 0 1 <= np.entry posteriors 0 (nth 0 classes 0%nat))%R.
Proof.
  assert (Hx : np.has_shape ex.x 5 2) by shapes.
  assert (H5 : 0 < 5) by lia.
  assert (H2 : 0 < 2) by lia.
  split; [exact ex_net_wf|]. split; [exact Hx|]. split; [exact H5|].
  split; [exact H2|].
  destruct (Main_predict_winner ex_net_wf Hx H5 H2)
    as (net' & posteriors & classes & Hfwd & Hrun & _ & Hwin).
  exists net', posteriors, classes. split; [exact Hfwd|]. split; [exact Hrun|].
  pose proof (Hwin 0 H5) as H0. cbv zeta in H0.
  destruct H0 as (_ & Hmax & _).
  split; apply Hmax; lia.
Defined.
